(** * ProxImaL: linear-operator nodes and the proximal wrapper

    A shallow embedding of

      - [proximal/lin_ops/transpose.py]          (class [transpose]),
      - [proximal/lin_ops/pxwise_matrixmult.py]  (class [pxwise_matrixmult]),
      - [proximal/prox_fns/prox_fn.py]           (class [ProxFn]),

    together with the part of numpy these classes rely on.

    Conventions of the embedding.

      - Array elements and Python floats are real numbers ([R]); rounding of
        [float32]/[float64] arithmetic is not modelled.
      - A numpy array is a shape and a row-major (C-contiguous) data buffer;
        transposes, [...]-slices and broadcasts are strided windows onto a
        buffer, as in numpy.
      - A Python exception is a value of type [exn]; code that can raise
        returns a [result].
      - Shapes, axes and indices are natural numbers (negative Python indices
        are written out where the source uses them, e.g. [shape[:-2]]); the
        module [TransposeInt] takes the axes of [transpose] as Python
        integers and agrees with [Transpose] on the naturals. *)

From Stdlib Require Import String Ascii DecimalString DecimalNat.
From Stdlib Require Import Reals List Arith Lia Lra Bool Permutation.
Import ListNotations.

(* ================================================================== *)
(** * Part I: definitions *)
(* ================================================================== *)

(** ** Exceptions *)

Inductive exn : Type :=
| AssertionError
| IndexError
| ValueError
| TypeError
| AttributeError
| ZeroDivisionError
| KeyError
| CompileError
| PyException (msg : string).

Inductive result (A : Type) : Type :=
| Ok (a : A)
| Raise (e : exn).

Arguments Ok {A} a.
Arguments Raise {A} e.

Definition bind {A B : Type} (m : result A) (k : A -> result B) : result B :=
  match m with
  | Ok a => k a
  | Raise e => Raise e
  end.

Notation "x <- m ;; k" := (bind m (fun x => k))
  (at level 61, m at next level, right associativity).
Notation "' pat <- m ;; k" := (bind m (fun x => match x with pat => k end))
  (at level 61, pat pattern, m at next level, right associativity).

(** [for x in l: s = body(s, x)], stopping at the first exception. *)
Fixpoint for_each {A S : Type} (body : S -> A -> result S) (l : list A) (s : S)
  : result S :=
  match l with
  | [] => Ok s
  | x :: l' => s' <- body s x ;; for_each body l' s'
  end.

(** [[f(x) for x in l]], stopping at the first exception. *)
Fixpoint map_result {A B : Type} (f : A -> result B) (l : list A)
  : result (list B) :=
  match l with
  | [] => Ok []
  | x :: l' => y <- f x ;; ys <- map_result f l' ;; Ok (y :: ys)
  end.

(** ** Python sequences *)

(** [enumerate(l)] *)
Definition enumerate {A : Type} (l : list A) : list (nat * A) :=
  combine (seq 0 (length l)) l.

(** [l[k] = x] for [k] in range; the caller checks the range. *)
Fixpoint upd {A : Type} (l : list A) (k : nat) (x : A) : list A :=
  match l, k with
  | [], _ => []
  | _ :: t, O => x :: t
  | h :: t, S k' => h :: upd t k' x
  end.

(** [l[k]], raising [IndexError] out of range. *)
Definition getitem (l : list nat) (k : nat) : result nat :=
  if k <? length l then Ok (nth k l 0) else Raise IndexError.

(** [l[k] = x], raising [IndexError] out of range. *)
Definition setitem (l : list nat) (k x : nat) : result (list nat) :=
  if k <? length l then Ok (upd l k x) else Raise IndexError.

(** [l[:-k]] *)
Definition drop_last {A : Type} (k : nat) (l : list A) : list A :=
  firstn (length l - k) l.

(** [l[-k]] for [1 <= k], raising [IndexError] when [l] is shorter. *)
Definition from_end (k : nat) (l : list nat) : result nat :=
  if length l <? k then Raise IndexError else Ok (nth (length l - k) l 0).

Definition map2 {A B C : Type} (f : A -> B -> C) (l1 : list A) (l2 : list B)
  : list C :=
  map (fun p => f (fst p) (snd p)) (combine l1 l2).

(** [[l[i] for i in idxs]] on positions known to be in range. *)
Definition gather (l idxs : list nat) : list nat :=
  map (fun i => nth i l 0) idxs.

Fixpoint nodupb (l : list nat) : bool :=
  match l with
  | [] => true
  | x :: l' => negb (existsb (Nat.eqb x) l') && nodupb l'
  end.

(** ** numpy arrays *)

Module Np.

(** A C-contiguous array: [data] lists the elements in row-major order. *)
Record ndarray : Type := mk_ndarray { shape : list nat; data : list R }.

(** A strided window onto a buffer (strides counted in elements). *)
Record view : Type := mk_view {
  vshape : list nat;
  vstrides : list nat;
  voffset : nat;
  vbase : list R
}.

(** [np.prod(shape)] *)
Definition size (sh : list nat) : nat := fold_right Nat.mul 1 sh.

(** Row-major strides of a contiguous array of shape [sh]. *)
Fixpoint strides (sh : list nat) : list nat :=
  match sh with
  | [] => []
  | _ :: s => size s :: strides s
  end.

Fixpoint offset (idx st : list nat) : nat :=
  match idx, st with
  | i :: idx', s :: st' => i * s + offset idx' st'
  | _, _ => 0
  end.

(** All multi-indices of shape [sh], in row-major order ([np.ndindex]). *)
Fixpoint indices (sh : list nat) : list (list nat) :=
  match sh with
  | [] => [[]]
  | d :: s => flat_map (fun i => map (cons i) (indices s)) (seq 0 d)
  end.

Definition as_view (a : ndarray) : view :=
  mk_view (shape a) (strides (shape a)) 0 (data a).

Definition item (v : view) (idx : list nat) : R :=
  nth (voffset v + offset idx (vstrides v)) (vbase v) 0%R.

(** The elements of a window, in row-major order of its own shape. *)
Definition materialize (v : view) : list R :=
  map (item v) (indices (vshape v)).

Definition zeros (sh : list nat) : ndarray :=
  mk_ndarray sh (repeat 0%R (size sh)).

Definition ones (sh : list nat) : ndarray :=
  mk_ndarray sh (repeat 1%R (size sh)).

(** *** Broadcasting *)

(** Strides of a window of shape [vsh] stretched to the equally long shape
    [tsh]: a dimension of extent 1 is repeated with stride 0. *)
Fixpoint bcast_strides (vsh vst tsh : list nat) : option (list nat) :=
  match vsh, vst, tsh with
  | [], [], [] => Some []
  | d :: vsh', s :: vst', t :: tsh' =>
      match bcast_strides vsh' vst' tsh' with
      | Some r =>
          if d =? t then Some (s :: r)
          else if d =? 1 then Some (0 :: r)
          else None
      | None => None
      end
  | _, _, _ => None
  end.

(** [np.broadcast_to(v, tsh)]: shapes are aligned at their last axis. *)
Definition broadcast_to (v : view) (tsh : list nat) : result view :=
  let n := length tsh in
  let m := length (vshape v) in
  if n <? m then Raise ValueError
  else match bcast_strides (vshape v) (vstrides v) (skipn (n - m) tsh) with
       | Some st => Ok (mk_view tsh (repeat 0 (n - m) ++ st) (voffset v) (vbase v))
       | None => Raise ValueError
       end.

(** The common shape of two operands, computed from the last axis. *)
Fixpoint bcast_shape_rev (ra rb : list nat) : option (list nat) :=
  match ra, rb with
  | [], _ => Some rb
  | _, [] => Some ra
  | a :: ra', b :: rb' =>
      match bcast_shape_rev ra' rb' with
      | Some r =>
          if a =? b then Some (a :: r)
          else if a =? 1 then Some (b :: r)
          else if b =? 1 then Some (a :: r)
          else None
      | None => None
      end
  end.

Definition bcast_shape (sa sb : list nat) : option (list nat) :=
  option_map (@rev nat) (bcast_shape_rev (rev sa) (rev sb)).

(** Whether an array of shape [src] can be broadcast to shape [dst]. *)
Definition broadcastable (src dst : list nat) : bool :=
  match broadcast_to (mk_view src (strides src) 0 []) dst with
  | Ok _ => true
  | Raise _ => false
  end.

(** *** Elementwise operations *)

(** [a (op) b] into a fresh array. *)
Definition binop (f : R -> R -> R) (a b : view) : result ndarray :=
  match bcast_shape (vshape a) (vshape b) with
  | None => Raise ValueError
  | Some sh =>
      a' <- broadcast_to a sh ;;
      b' <- broadcast_to b sh ;;
      Ok (mk_ndarray sh (map2 f (materialize a') (materialize b')))
  end.

(** [a (op)= b] for an array [b]: [b] is broadcast to the shape of [a]. *)
Definition iop (f : R -> R -> R) (a : ndarray) (b : view) : result ndarray :=
  b' <- broadcast_to b (shape a) ;;
  Ok (mk_ndarray (shape a) (map2 f (data a) (materialize b'))).

(** [a (op)= r] and [a (op) r] for a scalar [r]. *)
Definition sop (f : R -> R -> R) (a : ndarray) (r : R) : ndarray :=
  mk_ndarray (shape a) (map (fun x => f x r) (data a)).

(** Array assignment drops unit dimensions from the left of a source that
    has more dimensions than the destination ([k] counts the surplus). *)
Fixpoint strip_ones (k : nat) (sh st : list nat) : list nat * list nat :=
  match k, sh, st with
  | S k', 1 :: sh', _ :: st' => strip_ones k' sh' st'
  | _, _, _ => (sh, st)
  end.

(** [np.copyto(dst, src)] for a destination buffer of shape [dsh]:
    the new contents of the destination. *)
Definition copyto (dsh : list nat) (src : view) : result ndarray :=
  let (sh, st) := strip_ones (length (vshape src) - length dsh)
                             (vshape src) (vstrides src) in
  v <- broadcast_to (mk_view sh st (voffset src) (vbase src)) dsh ;;
  Ok (mk_ndarray dsh (materialize v)).

(** [f(a)] for an elementwise function such as [np.sqrt]. *)
Definition umap (f : R -> R) (a : ndarray) : ndarray :=
  mk_ndarray (shape a) (map f (data a)).

(** *** Indexing *)

(** [v[..., j]] *)
Definition ell1 (v : view) (j : nat) : result view :=
  let n := length (vshape v) in
  if n <? 1 then Raise IndexError
  else if j <? nth (n - 1) (vshape v) 0
  then Ok (mk_view (firstn (n - 1) (vshape v)) (firstn (n - 1) (vstrides v))
                   (voffset v + j * nth (n - 1) (vstrides v) 0) (vbase v))
  else Raise IndexError.

(** [v[..., i, j]] *)
Definition ell2 (v : view) (i j : nat) : result view :=
  let n := length (vshape v) in
  if n <? 2 then Raise IndexError
  else if (i <? nth (n - 2) (vshape v) 0) && (j <? nth (n - 1) (vshape v) 0)
  then Ok (mk_view (firstn (n - 2) (vshape v)) (firstn (n - 2) (vstrides v))
                   (voffset v + i * nth (n - 2) (vstrides v) 0
                              + j * nth (n - 1) (vstrides v) 0) (vbase v))
  else Raise IndexError.

(** [w (op)= t] for a window [w] onto the buffer of the contiguous array
    [a]: every element of the window is read, combined and written back. *)
Definition iop_window (f : R -> R -> R) (a : ndarray) (w : view) (t : view)
  : result ndarray :=
  t' <- broadcast_to t (vshape w) ;;
  let targets := map (fun idx => voffset w + offset idx (vstrides w))
                     (indices (vshape w)) in
  Ok (mk_ndarray (shape a)
        (fold_left (fun d kx => upd d (fst kx) (f (nth (fst kx) d 0%R) (snd kx)))
                   (combine targets (materialize t')) (data a))).

(** *** [np.transpose] *)

Definition is_perm (axes : list nat) (n : nat) : bool :=
  (length axes =? n) && forallb (fun a => a <? n) axes && nodupb axes.

(** [np.transpose(v, axes)]: the same buffer with permuted shape and
    strides; [ValueError] unless [axes] permutes the axes of [v]. *)
Definition transpose (v : view) (axes : list nat) : result view :=
  if is_perm axes (length (vshape v))
  then Ok (mk_view (gather (vshape v) axes) (gather (vstrides v) axes)
                   (voffset v) (vbase v))
  else Raise ValueError.

(** *** Reductions *)

(** [np.sum(a)], accumulated from 0 in storage order. *)
Definition sum (l : list R) : R := fold_left Rplus l 0%R.

(** [np.amax(a)]; numpy refuses an empty array. *)
Definition amax (l : list R) : result R :=
  match l with
  | [] => Raise ValueError
  | x :: l' => Ok (fold_left Rmax l' x)
  end.

(** The inner product [<a, b> = np.sum(a * b)]. *)
Definition inner (a b : ndarray) : result R :=
  p <- binop Rmult (as_view a) (as_view b) ;;
  Ok (sum (data p)).

(** A well-formed contiguous array holds [size shape] elements. *)
Definition wf (a : ndarray) : Prop := length (data a) = size (shape a).

End Np.

(** ** [LinOp]: the base class of the operator nodes *)

Module LinOp.

Record t : Type := mk {
  input_shapes : list (list nat);   (* the input nodes, by their shapes *)
  shape : list nat
}.

(** Modelled from the spec: [LinOp.__init__(input_nodes, shape)] of
    [lin_op.py], which is not among the sources.  An operator node has an
    "immutable shape" and an "ordered list of exactly-one-or-more input
    nodes", frozen at construction; the base constructor is handed nothing
    but these two, so it records them. *)
Definition init (input_nodes : list (list nat)) (shape : list nat) : t :=
  mk input_nodes shape.

End LinOp.

(** ** [transpose]: axis permutation *)

Module Transpose.

Record node : Type := mk_node {
  axes : list nat;
  inverse : list nat;
  base : LinOp.t
}.

Definition shape (t : node) : list nat := LinOp.shape (base t).

(** The shape of the single input node. *)
Definition arg_shape (t : node) : list nat :=
  hd [] (LinOp.input_shapes (base t)).

(** [transpose.__init__(arg, axes)], [arg] given by its shape. *)
Definition init (arg_shape axes : list nat) : result node :=
  inv <- for_each (fun inv p => setitem inv (snd p) (fst p))
                  (enumerate axes) (seq 0 (length axes)) ;;
  sh <- map_result (getitem arg_shape) axes ;;
  Ok (mk_node axes inv (LinOp.init [arg_shape] sh)).

(** [forward(inputs, outputs)]: the new contents of [outputs[0]], the
    buffer of this node (of the node's shape). *)
Definition forward (t : node) (x : Np.ndarray) : result Np.ndarray :=
  shaped_input <- Np.transpose (Np.as_view x) (axes t) ;;
  Np.copyto (shape t) shaped_input.

(** [adjoint(inputs, outputs)]: the new contents of [outputs[0]], the
    buffer of the input node (of the input node's shape). *)
Definition adjoint (t : node) (y : Np.ndarray) : result Np.ndarray :=
  shaped_input <- Np.transpose (Np.as_view y) (inverse t) ;;
  Np.copyto (arg_shape t) shaped_input.

(** [norm_bound(input_mags)] *)
Definition norm_bound (t : node) (input_mags : list R) : result R :=
  match input_mags with
  | m :: _ => Ok m
  | [] => Raise IndexError
  end.

End Transpose.

(** ** [pxwise_matrixmult]: one small matrix per pixel *)

Module Pxwise.

Record node : Type := mk_node {
  A : Np.ndarray;
  normbound : option R;
  base : LinOp.t
}.

Definition shape (t : node) : list nat := LinOp.shape (base t).

Definition arg_shape (t : node) : list nat :=
  hd [] (LinOp.input_shapes (base t)).

(** [np.all(np.array(s1) == np.array(s2))] for two tuples of integers.
    [==] compares elementwise; a one-element operand is broadcast against
    the other.  For operands whose lengths differ otherwise the numpy of
    the sources answers [False] (later releases raise [ValueError]
    instead); either way the [assert] below does not pass. *)
Definition all_equal (s1 s2 : list nat) : bool :=
  if length s1 =? length s2
  then forallb (fun p => fst p =? snd p) (combine s1 s2)
  else if length s1 =? 1 then forallb (fun b => hd 0 s1 =? b) s2
  else if length s2 =? 1 then forallb (fun a => a =? hd 0 s2) s1
  else false.

(** [pxwise_matrixmult.__init__(A, arg, normbound)], [arg] given by its
    shape. *)
Definition init (A : Np.ndarray) (arg_shape : list nat) (normbound : option R)
  : result node :=
  if all_equal (drop_last 2 (Np.shape A)) (drop_last 1 arg_shape)
  then Ok (mk_node A normbound
                   (LinOp.init [arg_shape] (drop_last 1 (Np.shape A))))
  else Raise AssertionError.

(** [res[..., i] += a[..., k1, k2] * b] *)
Definition accumulate (res : Np.ndarray) (i : nat) (a b : Np.view)
  : result Np.ndarray :=
  p <- Np.binop Rmult a b ;;
  w <- Np.ell1 (Np.as_view res) i ;;
  Np.iop_window Rplus res w (Np.as_view p).

(** [forward(inputs, outputs)]: the new contents of [outputs[0]], the
    buffer of this node. *)
Definition forward (t : node) (arg : Np.ndarray) : result Np.ndarray :=
  let sh := Np.shape (A t) in
  let res0 := Np.zeros (drop_last 1 sh) in
  N <- from_end 2 sh ;;
  res <- for_each (fun res i =>
           M <- from_end 1 sh ;;
           for_each (fun res j =>
             a <- Np.ell2 (Np.as_view (A t)) i j ;;
             x <- Np.ell1 (Np.as_view arg) j ;;
             accumulate res i a x)
           (seq 0 M) res)
         (seq 0 N) res0 ;;
  Np.copyto (shape t) (Np.as_view res).

(** [adjoint(outputs, inputs)]: the new contents of [inputs[0]], the
    buffer of the input node. *)
Definition adjoint (t : node) (arg : Np.ndarray) : result Np.ndarray :=
  let sh := Np.shape (A t) in
  M <- from_end 1 sh ;;
  let res0 := Np.zeros (drop_last 2 sh ++ [M]) in
  res <- for_each (fun res i =>
           N <- from_end 2 sh ;;
           for_each (fun res j =>
             a <- Np.ell2 (Np.as_view (A t)) j i ;;
             y <- Np.ell1 (Np.as_view arg) j ;;
             accumulate res i a y)
           (seq 0 N) res)
         (seq 0 M) res0 ;;
  Np.copyto (arg_shape t) (Np.as_view res).

(** [ATA[..., i, j] += A[..., k, i] * A[..., k, j]] *)
Definition accumulate2 (ATA : Np.ndarray) (i j : nat) (a b : Np.view)
  : result Np.ndarray :=
  p <- Np.binop Rmult a b ;;
  w <- Np.ell2 (Np.as_view ATA) i j ;;
  Np.iop_window Rplus ATA w (Np.as_view p).

(** The builtin [max(x, y)]: the first argument unless the second is
    greater. *)
Definition py_max (x y : R) : R := if Rlt_dec x y then y else x.

(** The branch of [norm_bound] taken when no override was given. *)
Definition computed_bound (t : node) : result R :=
  let sh := Np.shape (A t) in
  M <- from_end 1 sh ;;
  let ATA0 := Np.zeros (drop_last 2 sh ++ [M; M]) in
  ATA <- for_each (fun ATA i =>
           M1 <- from_end 1 sh ;;
           for_each (fun ATA j =>
             N <- from_end 2 sh ;;
             for_each (fun ATA k =>
               a <- Np.ell2 (Np.as_view (A t)) k i ;;
               b <- Np.ell2 (Np.as_view (A t)) k j ;;
               accumulate2 ATA i j a b)
             (seq 0 N) ATA)
           (seq 0 M1) ATA)
         (seq 0 M) ATA0 ;;
  let nb := 0%R in
  N <- from_end 2 sh ;;
  if N =? 2 then
    a <- Np.ell2 (Np.as_view ATA) 0 0 ;;
    b <- Np.ell2 (Np.as_view ATA) 0 1 ;;
    c <- Np.ell2 (Np.as_view ATA) 1 0 ;;
    d <- Np.ell2 (Np.as_view ATA) 1 1 ;;
    (* gapA = np.sqrt(np.maximum(0, (a+d)**2 - 4*(a*d-b*c))) *)
    apd <- Np.binop Rplus a d ;;
    let apd2 := Np.umap (fun x => x ^ 2)%R apd in
    ad <- Np.binop Rmult a d ;;
    bc <- Np.binop Rmult b c ;;
    det <- Np.binop Rminus (Np.as_view ad) (Np.as_view bc) ;;
    let det4 := Np.umap (fun x => 4 * x)%R det in
    disc <- Np.binop Rminus (Np.as_view apd2) (Np.as_view det4) ;;
    let gapA := Np.umap sqrt (Np.umap (Rmax 0) disc) in
    (* l1 = ((a+d) + gapA)*0.5 *)
    apd' <- Np.binop Rplus a d ;;
    s1 <- Np.binop Rplus (Np.as_view apd') (Np.as_view gapA) ;;
    let l1 := Np.sop Rmult s1 (/ 2)%R in
    (* l2 = ((a+d) - gapA)*0.5 *)
    apd'' <- Np.binop Rplus a d ;;
    s2 <- Np.binop Rminus (Np.as_view apd'') (Np.as_view gapA) ;;
    let l2 := Np.sop Rmult s2 (/ 2)%R in
    (* l = np.maximum(np.amax(l1), np.amax(l2)) *)
    m1 <- Np.amax (Np.data l1) ;;
    m2 <- Np.amax (Np.data l2) ;;
    let l := Rmax m1 m2 in
    Ok (py_max l nb)
  else
    (* [raise NotImplemented]: [NotImplemented] is not an exception, so
       the statement itself fails with [TypeError] *)
    Raise TypeError.

(** [norm_bound(input_mags)] *)
Definition norm_bound (t : node) (input_mags : list R) : result R :=
  nb <- match normbound t with
        | Some nb => Ok nb
        | None => computed_bound t
        end ;;
  m0 <- match input_mags with
        | m :: _ => Ok m
        | [] => Raise IndexError
        end ;;
  Ok (nb * m0)%R.

End Pxwise.

(** ** [ProxFn]: [alpha*f(beta*x - b) + <c,x> + gamma*<x,x> + d] *)

Module ProxFn.

(** *** Values and the store *)

(** An argument of the constructor: a Python scalar or a numpy array. *)
Inductive pyval : Type :=
| PyScalar (r : R)
| PyArray (a : Np.ndarray).

(** [np.isscalar(v)] *)
Definition isscalar (v : pyval) : bool :=
  match v with
  | PyScalar _ => true
  | PyArray _ => false
  end.

(** Arrays handed to [prox] are mutable objects: a reference is a location
    of the store, and two references may name the same array. *)
Definition loc : Type := nat.
Definition heap : Type := loc -> Np.ndarray.

Definition store (h : heap) (l : loc) (a : Np.ndarray) : heap :=
  fun l' => if l' =? l then a else h l'.

(** [x / y] on Python floats. *)
Definition py_div (x y : R) : result R :=
  if Req_dec_T y 0 then Raise ZeroDivisionError else Ok (x / y)%R.

Definition Reqb (x y : R) : bool := if Req_dec_T x y then true else false.

(** [np.all(a == 0)] *)
Definition all_zero (a : Np.ndarray) : bool :=
  forallb (fun x => Reqb x 0) (Np.data a).

Definition shape_eqb (s1 s2 : list nat) : bool :=
  if list_eq_dec Nat.eq_dec s1 s2 then true else false.

(** *** The object *)

(** A compiled kernel with its launch configuration. *)
Record kernel : Type := mk_kernel {
  k_source : string;
  k_grid : nat;
  k_block : nat;
  k_const_vals : list Np.ndarray
}.

(** The attributes of a [ProxFn] instance.  [b] and [c] are owned by the
    instance and never written after construction; [argnames] is an
    attribute that no method of the class assigns. *)
Record t : Type := mk {
  lin_op_shape : list nat;          (* self.lin_op, by its shape *)
  alpha : R;
  beta : R;
  b : Np.ndarray;
  c : Np.ndarray;
  gamma : R;
  d : R;
  implem_key : option string;
  implementation : string;
  kernel_cuda_prox : option kernel;
  cuda_args : option (list (string * Np.ndarray));
  cuda_code : option string;
  argnames : option (list string)
}.

(** What the class takes from [proximal.utils], [proximal.utils.codegen]
    and [pycuda], none of which is among the sources. *)
Class Env : Type := {
  Impl : list (string * string);
  sub2ind : list string -> list nat -> string;
  ind2sub : string -> list nat -> list string;
  indent : string -> nat -> string;
  fmt_8e : R -> string;                        (* "%.8e" % x *)
  SourceModule : string -> result unit;        (* compiles or raises *)
  MAX_THREADS_PER_BLOCK : nat
}.

(** The methods a concrete proximal operator supplies. *)
Class Atom : Type := {
  _prox : t -> R -> loc -> heap -> result (loc * heap);
  _prox_cuda : option (t -> string -> (list string -> result string)
                         -> list string -> string -> string -> result string)
}.

Definition lookup (k : string) (dict : list (string * string)) : option string :=
  option_map snd (find (fun kv => String.eqb (fst kv) k) dict).

(** *** [__init__] *)

Section Init.
Context {env : Env}.

(** [set_implementation(im)] *)
Definition set_implementation (im : string) : result string :=
  if existsb (fun kv => String.eqb (snd kv) im) Impl then Ok im
  else match lookup im Impl with
       | Some v => Ok v
       | None => Raise (PyException "Invalid implementation.")
       end.

Definition check_dims (shape : list nat) (u : unit) (p : pyval * string)
  : result unit :=
  let (elem, name) := p in
  if isscalar elem
     || match elem with
        | PyArray a => shape_eqb (Np.shape a) shape
        | PyScalar _ => false
        end
  then Ok tt
  else Raise (PyException ("Invalid dimensions of " ++ name ++ ".")).

Definition check_nonneg (u : unit) (p : pyval * string) : result unit :=
  let (elem, name) := p in
  match elem with
  | PyScalar r =>
      if Rlt_dec r 0
      then Raise (PyException (name ++ " must be a nonnegative scalar."))
      else Ok tt
  | PyArray _ => Raise (PyException (name ++ " must be a nonnegative scalar."))
  end.

Definition check_scalar (u : unit) (p : pyval * string) : result unit :=
  let (elem, name) := p in
  if isscalar elem then Ok tt
  else Raise (PyException (name ++ " must be a scalar.")).

(** [float(v)] after the checks; an array of one element converts too. *)
Definition float (v : pyval) : result R :=
  match v with
  | PyScalar r => Ok r
  | PyArray a =>
      match Np.data a with
      | [x] => Ok x
      | _ => Raise TypeError
      end
  end.

(** [v] if it is an array, [v * np.ones(shape)] if it is a scalar. *)
Definition materialized (shape : list nat) (v : pyval) : Np.ndarray :=
  match v with
  | PyScalar r => Np.sop (fun x r => (r * x)%R) (Np.ones shape) r
  | PyArray a => a
  end.

(** [ProxFn.__init__(lin_op, alpha, beta, b, c, gamma, d, implem)] *)
Definition init (lin_op_shape : list nat) (alpha beta b c gamma d : pyval)
           (implem : option string) : result t :=
  _ <- for_each (check_dims lin_op_shape)
                (combine [b; c] ["b"; "c"]%string) tt ;;
  _ <- for_each check_nonneg
                (combine [alpha; gamma; d] ["alpha"; "gamma"]%string) tt ;;
  _ <- for_each check_scalar
                (combine [beta; d] ["beta"; "d"]%string) tt ;;
  numpy <- match lookup "numpy" Impl with
           | Some v => Ok v
           | None => Raise KeyError
           end ;;
  implementation <- match implem with
                    | Some im => set_implementation im
                    | None => Ok numpy
                    end ;;
  alpha' <- float alpha ;;
  beta' <- float beta ;;
  gamma' <- float gamma ;;
  d' <- float d ;;
  Ok (mk lin_op_shape alpha' beta'
         (materialized lin_op_shape b) (materialized lin_op_shape c)
         gamma' d' implem implementation None None None None).

End Init.

(** *** [prox] *)

Section Prox.
Context {atom : Atom}.

(** [prox(rho, v)]: the reference returned and the store afterwards. *)
Definition prox (self : t) (rho : R) (v : loc) (h : heap)
  : result (loc * heap) :=
  rho_hat <- py_div (rho + 2 * gamma self) (alpha self * beta self ^ 2) ;;
  (* v *= rho *)
  let h := store h v (Np.sop Rmult (h v) rho) in
  (* v -= self.c *)
  v' <- Np.iop Rminus (h v) (Np.as_view (c self)) ;;
  let h := store h v v' in
  (* v *= self.beta / (rho + 2 * self.gamma) *)
  s <- py_div (beta self) (rho + 2 * gamma self) ;;
  let h := store h v (Np.sop Rmult (h v) s) in
  (* v -= self.b *)
  v' <- Np.iop Rminus (h v) (Np.as_view (b self)) ;;
  let h := store h v v' in
  r <- _prox self rho_hat v h ;;
  let (xhat, h) := r in
  (* xhat += self.b *)
  x' <- Np.iop Rplus (h xhat) (Np.as_view (b self)) ;;
  let h := store h xhat x' in
  (* xhat /= self.beta *)
  let h := store h xhat (Np.sop Rdiv (h xhat) (beta self)) in
  Ok (xhat, h).

End Prox.

(** *** The compiled kernel *)

(** [cuda_additional_buffers()] *)
Definition cuda_additional_buffers (self : t) : list (string * Np.ndarray) :=
  let res := [] in
  let res := if negb (all_zero (c self)) then res ++ [("c"%string, c self)] else res in
  let res := if negb (all_zero (b self)) then res ++ [("b"%string, b self)] else res in
  res.

Definition nl : string := String (ascii_of_nat 10) EmptyString.

(** ["%d" % n] *)
Definition fmt_d (n : nat) : string := NilEmpty.string_of_uint (Nat.to_uint n).

(** [str(l)] for a list of plain strings: [['a', 'b']]. *)
Definition py_str_list (l : list string) : string :=
  ("[" ++ String.concat ", " (map (fun s => "'" ++ s ++ "'") l) ++ "]")%string.

Section Codegen.
Context {env : Env} {atom : Atom}.

(** The body of the registration loop, for one buffer. *)
Definition register_buffer (self : t) (buf : string * Np.ndarray) : result t :=
  let (aname, aval) := buf in
  (* self.argnames.append(aname) *)
  match argnames self with
  | None => Raise AttributeError
  | Some l =>
      (* aval = gpuarray.to_gpu(aval.astype(np.float32)) *)
      (* self.cuda_args.append(aname, aval): append takes one argument *)
      Raise TypeError
  end.

(** The strings that depend on the wrapper's scalars. *)
Definition plus_2gamma (self : t) : string :=
  if Req_dec_T (gamma self) 0 then EmptyString
  else (" + " ++ fmt_8e (gamma self * 2) ++ "f")%string.

Definition div_alpha_beta_s (self : t) : string :=
  let alpha_beta_s := (alpha self * beta self ^ 2)%R in
  if Req_dec_T alpha_beta_s 1 then EmptyString
  else (" / " ++ fmt_8e alpha_beta_s ++ "f")%string.

Definition xhatc_div_beta (self : t) : string :=
  if Req_dec_T (beta self) 1 then EmptyString
  else ("xhatc /= " ++ fmt_8e (beta self) ++ "f;")%string.

Definition mul_beta (self : t) : string :=
  if Req_dec_T (beta self) 1 then EmptyString
  else (" * " ++ fmt_8e (beta self) ++ "f")%string.

(** The strings that depend on the local list [argnames]. *)
Definition mem (x : string) (l : list string) : bool :=
  existsb (String.eqb x) l.

Definition argstring (argnames : list string) : string :=
  String.concat EmptyString
    (map (fun arg => (", const float *" ++ arg)%string) argnames).

(** [ccode % locals()] inside the lambda, where [idx] is the lambda's
    argument, the list of index terms. *)
Definition ccode (argnames idx : list string) : string :=
  if mem "c" argnames then ("- c[" ++ py_str_list idx ++ "]")%string
  else EmptyString.

Definition bcode1 (argnames idx : list string) : string :=
  if mem "b" argnames then (" - b[" ++ py_str_list idx ++ "]")%string
  else EmptyString.

Definition bcode2 (argnames : list string) : string :=
  if mem "b" argnames then ("xhatc += b[vidx];" ++ nl)%string
  else EmptyString.

(** The lambda [gen_v]. *)
Definition gen_v (self : t) (argnames : list string) (idx : list string)
  : result string :=
  i <- (if 1 <? length idx then Ok (sub2ind idx (lin_op_shape self))
        else match idx with
             | i0 :: _ => Ok i0
             | [] => Raise IndexError
             end) ;;
  Ok ("(((v[" ++ i ++ "] * rho)" ++ ccode argnames idx ++ ")"
        ++ mul_beta self ++ ") / (rho" ++ plus_2gamma self
        ++ bcode1 argnames idx ++ ")")%string.

(** The kernel source, around the code [cucode] of the concrete
    operator. *)
Definition kernel_source (self : t) (argnames : list string)
           (dimv : nat) (cucode : string) : string :=
  (nl
   ++ "__global__ void prox(const float *v, float *xhat, float rho"
   ++ argstring argnames ++ ")" ++ nl
   ++ "{" ++ nl
   ++ "    float rho_hat = (rho" ++ plus_2gamma self ++ ")"
   ++ div_alpha_beta_s self ++ ";" ++ nl
   ++ "    " ++ nl
   ++ "    int index = blockIdx.x * blockDim.x + threadIdx.x; " ++ nl
   ++ "    int stride = blockDim.x * gridDim.x;" ++ nl
   ++ "    for( int vidx = index; vidx < " ++ fmt_d dimv
   ++ "; vidx += stride )" ++ nl
   ++ "    {" ++ nl
   ++ "        " ++ cucode ++ nl
   ++ "        " ++ bcode2 argnames ++ nl
   ++ "        " ++ xhatc_div_beta self ++ nl
   ++ nl
   ++ "        xhat[vidx] = xhatc;" ++ nl
   ++ "    }" ++ nl
   ++ "}" ++ nl)%string.

(** [gen_cuda_code()]: the instance afterwards. *)
Definition gen_cuda_code (self : t) : result t :=
  let shape := lin_op_shape self in
  let dimv := Np.size shape in
  let self := mk (lin_op_shape self) (alpha self) (beta self) (b self)
                 (c self) (gamma self) (d self) (implem_key self)
                 (implementation self) (kernel_cuda_prox self)
                 (Some []) (cuda_code self) (argnames self) in
  (* the local list [argnames], which the loop never extends *)
  let argnames' : list string := [] in
  self <- for_each register_buffer (cuda_additional_buffers self) self ;;
  prox_cuda <- match _prox_cuda with
               | Some f => Ok f
               | None => Raise AttributeError
               end ;;
  cucode <- prox_cuda self "rho_hat"%string (gen_v self argnames')
                      (ind2sub "vidx" shape) "vidx"%string "xhatc"%string ;;
  let cucode := indent cucode 8 in
  let code := kernel_source self argnames' dimv cucode in
  _ <- SourceModule code ;;
  let block := Nat.min dimv MAX_THREADS_PER_BLOCK in
  grid <- (if block =? 0 then Raise ZeroDivisionError
           else Ok (dimv / block)) ;;
  let const_vals := map snd (match cuda_args self with
                             | Some l => l
                             | None => []
                             end) in
  Ok (mk (lin_op_shape self) (alpha self) (beta self) (b self)
         (c self) (gamma self) (d self) (implem_key self)
         (implementation self)
         (Some (mk_kernel code grid block const_vals))
         (cuda_args self) (Some code) (argnames self)).

End Codegen.

End ProxFn.

(** ** Notions used in the statements *)

(** Closed forms of what the array code computes. *)
Module Closed.
Import Np.

(** The contiguous copy of [np.transpose(x, p)]. *)
Definition permuted (x : ndarray) (p : list nat) : ndarray :=
  mk_ndarray (gather (shape x) p)
    (map (fun idx => nth (offset idx (gather (strides (shape x)) p)) (data x) 0%R)
         (indices (gather (shape x) p))).

(** One write of [iop_window]. *)
Definition step (f : R -> R -> R) (d : list R) (kx : nat * R) : list R :=
  upd d (fst kx) (f (nth (fst kx) d 0%R) (snd kx)).

(** What a window of shape [lead] shows at its [q]-th position. *)
Definition shows (lead : list nat) (v : result view) (g : nat -> R) : Prop :=
  exists a, v = Ok a /\ vshape a = lead /\ length (vstrides a) = length lead
            /\ forall q, q < size lead -> nth q (materialize a) 0%R = g q.

(** The entry [A[q, i, j]] and the component [x[q, j]] of pixel [q]. *)
Definition Aget (Ad : list R) (N M q i j : nat) : R :=
  nth (i * M + j + q * (N * M)) Ad 0%R.

Definition xget (xd : list R) (M q j : nat) : R := nth (j + q * M) xd 0%R.

(** [f 0 + f 1 + ... + f (n-1)], accumulated from 0. *)
Fixpoint rsum (f : nat -> R) (n : nat) : R :=
  match n with
  | O => 0%R
  | S n' => (rsum f n' + f n')%R
  end.

(** What [norm_bound] computes from the four inspected entries
    [[p, q], [r, s]] of [ATA] when there is a single pixel. *)
Definition closed_2x2 (p q r s : R) : R :=
  let gapA := sqrt (Rmax 0 ((p + s) ^ 2 - 4 * (p * s - q * r))) in
  Pxwise.py_max (Rmax ((p + s + gapA) * / 2) ((p + s - gapA) * / 2)) 0.

(** A single [N x M] matrix, without pixel dimensions. *)
Definition one_pixel (N M : nat) (d : list R) : Np.ndarray :=
  Np.mk_ndarray [N; M] d.

End Closed.

(** The affine reduction of [ProxFn] in formulas, and the conditions of its
    constructor. *)
Module Affine.
Import Np ProxFn.

(** [rho_hat = (rho + 2*gamma) / (alpha*beta^2)] *)
Definition rho_hat (self : t) (rho : R) : R :=
  ((rho + 2 * gamma self) / (alpha self * beta self ^ 2))%R.

(** [v_hat = ((v*rho) - c) * (beta/(rho + 2*gamma)) - b], entry by entry. *)
Definition v_hat (self : t) (rho : R) (vd : list R) : list R :=
  map (fun k => ((nth k vd 0 * rho - nth k (data (c self)) 0)
                 * (beta self / (rho + 2 * gamma self))
                 - nth k (data (b self)) 0)%R)
      (seq 0 (length vd)).

(** [x = (x_hat + b) / beta], entry by entry. *)
Definition x_out (self : t) (xd : list R) : list R :=
  map (fun k => ((nth k xd 0 + nth k (data (b self)) 0) / beta self)%R)
      (seq 0 (length xd)).

(** What the second loop of [__init__] rejects. *)
Definition bad_nonneg (v : pyval) : Prop :=
  match v with
  | PyScalar r => (r < 0)%R
  | PyArray _ => True
  end.

(** What the first loop of [__init__] accepts. *)
Definition dims_ok (shape : list nat) (v : pyval) : Prop :=
  match v with
  | PyScalar _ => True
  | PyArray a => Np.shape a = shape
  end.

(** The exception of the first registration in [gen_cuda_code]. *)
Definition registration_error (self : t) : exn :=
  match argnames self with
  | None => AttributeError
  | Some _ => TypeError
  end.

End Affine.

(** ** Example instances *)

Module Examples.
Import ProxFn.

(** A core operator that returns a fresh copy of its argument. *)
Definition copy_atom : Atom :=
  {| _prox := fun _ _ v h => Ok (S v, store h (S v) (h v));
     _prox_cuda := None |}.

(** A core operator that works in place and returns its argument. *)
Definition inplace_atom : Atom :=
  {| _prox := fun _ _ v h => Ok (v, h);
     _prox_cuda := Some (fun _ _ gen_v idx _ xhatc =>
                           e <- gen_v idx ;;
                           Ok ("float " ++ xhatc ++ " = " ++ e ++ ";")%string) |}.

Definition env : Env :=
  {| Impl := [("numpy", "numpy"); ("halide", "halide")]%string;
     sub2ind := fun idx _ => String.concat "," idx;
     ind2sub := fun i _ => [i];
     indent := fun code _ => code;
     fmt_8e := fun _ => "1.00000000e+00"%string;
     SourceModule := fun _ => Ok tt;
     MAX_THREADS_PER_BLOCK := 1024 |}.

(** [f(2*x)] on vectors of length 2. *)
Definition doubled : t :=
  mk [2] 1 2 (Np.zeros [2]) (Np.zeros [2]) 0 0 None "numpy" None None None None.

(** [f(x - b)] with [b = (1, 1)]. *)
Definition shifted : t :=
  mk [2] 1 1 (Np.mk_ndarray [2] [1; 1]%R) (Np.zeros [2]) 0 0 None "numpy"
     None None None None.

Definition heap0 : heap := fun _ => Np.mk_ndarray [2] [1; 2]%R.

End Examples.

(** ** [transpose] with axes as Python integers *)

(** The module [Transpose] takes the axes as natural numbers.  Python
    also admits negative axes, which count from the end; this module is
    the class on integer axes, and it agrees with [Transpose] on the
    naturals. *)
Module TransposeInt.

(** An index that a sequence of length [n] admits. *)
Definition valid_index (n : nat) (i : Z) : Prop :=
  (- Z.of_nat n <= i < Z.of_nat n)%Z.

(** The position that an admitted index denotes. *)
Definition position (n : nat) (i : Z) : nat :=
  Z.to_nat (if (i <? 0)%Z then i + Z.of_nat n else i).

(** [l[i]] and [l[i] = x] look up the position of the Python integer [i],
    raising [IndexError] out of range. *)
Definition py_index (n : nat) (i : Z) : result nat :=
  if ((- Z.of_nat n <=? i) && (i <? Z.of_nat n))%Z
  then Ok (position n i)
  else Raise IndexError.

Record node : Type := mk_node {
  axes : list Z;
  inverse : list nat;
  base : LinOp.t
}.

Definition shape (t : node) : list nat := LinOp.shape (base t).

Definition arg_shape (t : node) : list nat :=
  hd [] (LinOp.input_shapes (base t)).

(** [transpose.__init__(arg, axes)], [arg] given by its shape. *)
Definition init (arg_shape : list nat) (axes : list Z) : result node :=
  inv <- for_each (fun inv p =>
                     k <- py_index (length inv) (snd p) ;;
                     Ok (upd inv k (fst p)))
                  (enumerate axes) (seq 0 (length axes)) ;;
  sh <- map_result (fun i =>
                      k <- py_index (length arg_shape) i ;;
                      Ok (nth k arg_shape 0))
                   axes ;;
  Ok (mk_node axes inv (LinOp.init [arg_shape] sh)).

(** [np.transpose(v, axes)] for integer axes: every axis is normalised
    and the result must permute the axes of [v].  An axis out of range
    raises [numpy.AxisError], which is a [ValueError]. *)
Definition np_transpose (v : Np.view) (axes : list Z) : result Np.view :=
  axes' <- map_result (fun a =>
                         match py_index (length (Np.vshape v)) a with
                         | Ok k => Ok k
                         | Raise _ => Raise ValueError
                         end)
                      axes ;;
  Np.transpose v axes'.

(** [forward(inputs, outputs)]: the new contents of [outputs[0]]. *)
Definition forward (t : node) (x : Np.ndarray) : result Np.ndarray :=
  shaped_input <- np_transpose (Np.as_view x) (axes t) ;;
  Np.copyto (shape t) shaped_input.

(** [adjoint(inputs, outputs)]: the new contents of [outputs[0]]. *)
Definition adjoint (t : node) (y : Np.ndarray) : result Np.ndarray :=
  shaped_input <- Np.transpose (Np.as_view y) (inverse t) ;;
  Np.copyto (arg_shape t) shaped_input.

(** A node of [Transpose], read as a node on integer axes. *)
Definition of_nat_node (t : Transpose.node) : node :=
  mk_node (map Z.of_nat (Transpose.axes t)) (Transpose.inverse t)
          (Transpose.base t).

End TransposeInt.

(** ** Kernel emission of the operator nodes *)

Module Cuda.

(** What [forward_cuda] and [adjoint_cuda] return: the code, the variable
    that holds the value, and the counter of temporaries. *)
Definition emission : Type := (string * string * nat)%type.

(** [forward_cuda(cg, num_tmp_vars, absidx, parent)] or [adjoint_cuda] of a
    neighbouring node, whose class is not fixed by the caller: a function
    of the counter and of the list of index terms. *)
Definition emitter (T : Type) : Type := nat -> list T -> result emission.

(** [l[k]] on a list of any element type. *)
Definition item {T : Type} (l : list T) (k : nat) : result T :=
  match nth_error l k with
  | Some x => Ok x
  | None => Raise IndexError
  end.

(** [[absidx[i] for i in perm]] *)
Definition remap {T : Type} (absidx : list T) (perm : list nat)
  : result (list T) :=
  map_result (item absidx) perm.

(** [l[-1]] *)
Definition last_item {T : Type} (l : list T) : result T :=
  if length l <? 1 then Raise IndexError else item l (length l - 1).

(** [l[-1] = x] on a copy of [l] *)
Definition set_last {T : Type} (l : list T) (x : T) : result (list T) :=
  if length l <? 1 then Raise IndexError else Ok (upd l (length l - 1) x).

(** An emitter that never hands back a smaller counter. *)
Definition monotone {T : Type} (e : emitter T) : Prop :=
  forall n idx code var n', e n idx = Ok (code, var, n') -> n <= n'.

End Cuda.

(** *** [transpose] *)

Module TransposeCuda.
Import Cuda.

(** [forward_cuda(cg, num_tmp_vars, absidx, parent)]; [innode] is
    [cg.input_nodes(self)[0]]. *)
Definition forward_cuda {T : Type} (t : Transpose.node) (innode : emitter T)
           (num_tmp_vars : nat) (absidx : list T) : result emission :=
  new_idx <- remap absidx (Transpose.inverse t) ;;
  innode num_tmp_vars new_idx.

(** [adjoint_cuda(cg, num_tmp_vars, absidx, parent)]; [outnode] is
    [cg.output_nodes(self)[0]]. *)
Definition adjoint_cuda {T : Type} (t : Transpose.node) (outnode : emitter T)
           (num_tmp_vars : nat) (absidx : list T) : result emission :=
  new_idx <- remap absidx (Transpose.axes t) ;;
  outnode num_tmp_vars new_idx.

End TransposeCuda.

(** *** [pxwise_matrixmult] *)

Module PxwiseCuda.
Import Cuda.

(** An index term: the text of a C expression, or a Python integer. *)
Inductive term : Type :=
| Text (s : string)
| Int (n : nat).

(** [sub2ind] of [proximal.utils.codegen], which is not among the
    sources: it returns the text of the linear index or raises. *)
Class Codegen : Type := {
  sub2ind : list term -> list nat -> result string
}.

(** [cuda_additional_buffers()]; [linop_id] is the attribute that [LinOp]
    assigns. *)
Definition cuda_additional_buffers (t : Pxwise.node) (linop_id : nat)
  : list (string * Np.ndarray) :=
  [(("pxwise_matmul_" ++ ProxFn.fmt_d linop_id)%string, Pxwise.A t)].

(** The code that declares the accumulator and the base index into [A]. *)
Definition header (var aidx linaidx : string) : string :=
  ("/*pxwise_matrixmult*/" ++ ProxFn.nl
   ++ "float " ++ var ++ " = 0.0f;" ++ ProxFn.nl
   ++ "int " ++ aidx ++ " = " ++ linaidx ++ ";" ++ ProxFn.nl)%string.

(** The code of one term of the sum. *)
Definition term_code (icode var ivar A aidx : string) (off : nat) : string :=
  (ProxFn.nl ++ icode ++ ProxFn.nl
   ++ var ++ " += " ++ ivar ++ " * " ++ A ++ "[" ++ aidx ++ " + "
   ++ ProxFn.fmt_d off ++ "];" ++ ProxFn.nl)%string.

Section Emit.
Context {cg : Codegen}.

(** [forward_cuda(cg, num_tmp_vars, absidx, parent)]; [innode] is
    [cg.input_nodes(self)[0]]. *)
Definition forward_cuda (t : Pxwise.node) (linop_id : nat)
           (innode : emitter term) (num_tmp_vars : nat) (absidx : list term)
  : result emission :=
  bufname <- item (cuda_additional_buffers t linop_id) 0 ;;
  let A := fst bufname in
  let var := ("var_" ++ ProxFn.fmt_d num_tmp_vars)%string in
  let aidx := ("idx_" ++ ProxFn.fmt_d (num_tmp_vars + 1))%string in
  linaidx <- sub2ind (absidx ++ [Int 0]) (Np.shape (Pxwise.A t)) ;;
  let num_tmp_vars := num_tmp_vars + 2 in
  let code := header var aidx linaidx in
  M <- from_end 1 (Np.shape (Pxwise.A t)) ;;
  s <- for_each (fun (s : string * nat) i =>
         newidx <- set_last absidx (Text (ProxFn.fmt_d i)) ;;
         r <- innode (snd s) newidx ;;
         let '(icode, ivar, num_tmp_vars) := r in
         Ok ((fst s ++ term_code icode var ivar A aidx i)%string,
             num_tmp_vars))
       (seq 0 M) (code, num_tmp_vars) ;;
  Ok (fst s, var, snd s).

(** [adjoint_cuda(cg, num_tmp_vars, absidx, parent)]; [outnode] is
    [cg.output_nodes(self)[0]]. *)
Definition adjoint_cuda (t : Pxwise.node) (linop_id : nat)
           (outnode : emitter term) (num_tmp_vars : nat) (absidx : list term)
  : result emission :=
  bufname <- item (cuda_additional_buffers t linop_id) 0 ;;
  let A := fst bufname in
  let var := ("var_" ++ ProxFn.fmt_d num_tmp_vars)%string in
  let aidx := ("idx_" ++ ProxFn.fmt_d (num_tmp_vars + 1))%string in
  (* the argument [absidx[:-1] + [0, absidx[-1]]] is built first *)
  last <- last_item absidx ;;
  linaidx <- sub2ind (drop_last 1 absidx ++ [Int 0; last])
                     (Np.shape (Pxwise.A t)) ;;
  let num_tmp_vars := num_tmp_vars + 2 in
  let code := header var aidx linaidx in
  N <- from_end 2 (Np.shape (Pxwise.A t)) ;;
  s <- for_each (fun (s : string * nat) i =>
         newidx <- set_last absidx (Text (ProxFn.fmt_d i)) ;;
         r <- outnode (snd s) newidx ;;
         let '(icode, ivar, num_tmp_vars) := r in
         M <- from_end 1 (Np.shape (Pxwise.A t)) ;;
         let aoff := i * M in
         Ok ((fst s ++ term_code icode var ivar A aidx aoff)%string,
             num_tmp_vars))
       (seq 0 N) (code, num_tmp_vars) ;;
  Ok (fst s, var, snd s).

End Emit.

End PxwiseCuda.

(** ** [ProxFn]: copies, scaling and evaluation *)

Module ProxFnOps.
Import ProxFn.

(** The keyword arguments of [copy]: [None] for a key that was not
    passed. *)
Record kwargs : Type := mk_kwargs {
  kw_alpha : option pyval;
  kw_beta : option pyval;
  kw_gamma : option pyval;
  kw_c : option pyval;
  kw_b : option pyval;
  kw_d : option pyval;
  kw_implem : option (option string)
}.

Definition no_kwargs : kwargs :=
  mk_kwargs None None None None None None None.

(** [kwargs[key]] once the loop of [copy] has filled in the current value
    for a key that was not passed. *)
Definition filled {X : Type} (given : option X) (current : X) : X :=
  match given with
  | Some x => x
  | None => current
  end.

(** The abstract method [_eval]. *)
Class Evaluator : Type := {
  _eval : t -> Np.ndarray -> result R
}.

Section Ops.
Context {env : Env}.

(** [get_data()] *)
Definition get_data (self : t) : list pyval := [].

(** [copy(lin_op, **kwargs)] for an instance of the class itself:
    [type(self)(lin_op, *data, **kwargs)] with the empty [data] of
    [get_data] runs [__init__] again. *)
Definition copy (self : t) (lin_op : option (list nat)) (kw : kwargs)
  : result t :=
  let lin_op := match lin_op with
                | Some s => s
                | None => lin_op_shape self
                end in
  match get_data self with
  | [] =>
      init lin_op
           (filled (kw_alpha kw) (PyScalar (alpha self)))
           (filled (kw_beta kw) (PyScalar (beta self)))
           (filled (kw_b kw) (PyArray (b self)))
           (filled (kw_c kw) (PyArray (c self)))
           (filled (kw_gamma kw) (PyScalar (gamma self)))
           (filled (kw_d kw) (PyScalar (d self)))
           (filled (kw_implem kw) (implem_key self))
  | _ :: _ =>
      (* a positional argument would collide with the keyword [alpha] *)
      Raise TypeError
  end.

(** [self * other] *)
Definition __mul__ (self : t) (other : pyval) : result t :=
  match other with
  | PyScalar r =>
      if Rlt_dec 0 r
      then copy self None
                (mk_kwargs (Some (PyScalar (alpha self * r))) None None None
                           None None None)
      else Raise TypeError
  | PyArray _ => Raise TypeError
  end.

(** [self.__rmul__(other)], the method that the interpreter calls for
    [other * self] when [other] is a Python number (whose own [__mul__]
    does not apply to a [ProxFn]).  An array on the left is multiplied by
    numpy itself, element by element, and is not meant here. *)
Definition __rmul__ (self : t) (other : pyval) : result t :=
  __mul__ self other.

(** [self / other] for a Python number [other]: [(1. / other) * self],
    where the product is the reflected one. *)
Definition __div__ (self : t) (other : R) : result t :=
  q <- py_div 1 other ;;
  __rmul__ self (PyScalar q).

Definition __truediv__ (self : t) (other : R) : result t :=
  __div__ self other.

End Ops.

Section Eval.
Context {ev : Evaluator}.

(** [eval(v)] *)
Definition eval (self : t) (v : Np.ndarray) : result R :=
  (* self.beta * v - self.b *)
  u <- Np.binop Rminus
         (Np.as_view (Np.sop (fun x r => (r * x)%R) v (beta self)))
         (Np.as_view (b self)) ;;
  e <- _eval self u ;;
  (* np.sum(self.c * v) *)
  cv <- Np.binop Rmult (Np.as_view (c self)) (Np.as_view v) ;;
  (* np.square(v).sum() *)
  let sq := Np.umap (fun x => (x * x)%R) v in
  Ok (alpha self * e + Np.sum (Np.data cv)
      + gamma self * Np.sum (Np.data sq) + d self)%R.

End Eval.

End ProxFnOps.

(** ** [ProxFn]: sums *)

Module ProxFnSum.
Import ProxFn.

(** An operand of [+]: a [ProxFn], a list of them, or a number. *)
Inductive operand : Type :=
| Fn (f : t)
| Fns (l : list t)
| Num (r : R).

(** [self.__add__(other)]; [None] stands for [NotImplemented]. *)
Definition __add__ (self : t) (other : operand) : option operand :=
  match other with
  | Fn g => Some (Fns [self; g])
  | Fns l => Some (Fns ([self] ++ l))
  | Num _ => None
  end.

(** [self.__radd__(other)] *)
Definition __radd__ (self : t) (other : operand) : option operand :=
  match other with
  | Fns l => Some (Fns (l ++ [self]))
  | _ => None
  end.

(** [x + y] as the interpreter evaluates it: the method of the left
    operand first, the reflected method of the right operand when the left
    one does not apply, and [TypeError] when neither does.  Lists are
    concatenated and numbers added by their own types. *)
Definition add (x y : operand) : result operand :=
  match x, y with
  | Fn f, _ =>
      match __add__ f y with
      | Some r => Ok r
      | None => Raise TypeError   (* a number has no method for a [ProxFn] *)
      end
  | Fns l, Fns l' => Ok (Fns (l ++ l'))
  | Num r, Num r' => Ok (Num (r + r'))
  | _, Fn g =>
      match __radd__ g x with
      | Some r => Ok r
      | None => Raise TypeError
      end
  | Fns _, Num _ => Raise TypeError
  | Num _, Fns _ => Raise TypeError
  end.

(** [((f + g1) + g2) + ...], summed from the left. *)
Definition sum_left (f : t) (rest : list t) : result operand :=
  for_each (fun acc g => add acc (Fn g)) rest (Fn f).

(** [f + (g1 + (g2 + ...))], summed from the right. *)
Fixpoint sum_right (f : t) (rest : list t) : result operand :=
  match rest with
  | [] => Ok (Fn f)
  | g :: rest' => s <- sum_right g rest' ;; add (Fn f) s
  end.

End ProxFnSum.

(** The value of [eval] in formulas. *)
Module EvalForm.
Import Np ProxFn.

(** [beta*v - b], entry by entry. *)
Definition arg (self : t) (v : ndarray) : ndarray :=
  mk_ndarray (lin_op_shape self)
    (map (fun k => (beta self * nth k (data v) 0 - nth k (data (b self)) 0)%R)
         (seq 0 (length (data v)))).

(** [<c,v> + gamma*<v,v> + d], the sums accumulated from 0. *)
Definition affine_part (self : t) (v : ndarray) : R :=
  (Closed.rsum (fun k => nth k (data (c self)) 0 * nth k (data v) 0)
               (length (data v))
   + gamma self * Closed.rsum (fun k => nth k (data v) 0 * nth k (data v) 0)
                              (length (data v))
   + d self)%R.

End EvalForm.

(** Further example instances. *)
Module MoreExamples.

(** The vector (3, 4). *)
Definition v34 : Np.ndarray := Np.mk_ndarray [2] [3; 4]%R.

(** An atom [f(u) = sum(u)]. *)
Definition sum_eval : ProxFnOps.Evaluator :=
  {| ProxFnOps._eval := fun _ u => Ok (Np.sum (Np.data u)) |}.

(** The text of an index term. *)
Definition term_text (x : PxwiseCuda.term) : string :=
  match x with
  | PxwiseCuda.Text s => s
  | PxwiseCuda.Int n => ProxFn.fmt_d n
  end.

(** A [sub2ind] that joins the terms with commas, and refuses an index
    list that has not as many terms as the shape has axes. *)
Definition comma_codegen : PxwiseCuda.Codegen :=
  {| PxwiseCuda.sub2ind := fun idx shape =>
       if length idx =? length shape
       then Ok (String.concat "," (map term_text idx))
       else Raise ValueError |}.

(** A [sub2ind] that joins the terms with commas and accepts every
    index list. *)
Definition join_codegen : PxwiseCuda.Codegen :=
  {| PxwiseCuda.sub2ind := fun idx shape =>
       Ok (String.concat "," (map term_text idx)) |}.

(** A leaf emitter: it declares one temporary. *)
Definition leaf : Cuda.emitter PxwiseCuda.term :=
  fun n idx =>
    Ok (("float var_" ++ ProxFn.fmt_d n ++ " = x["
         ++ String.concat "," (map term_text idx) ++ "];")%string,
        ("var_" ++ ProxFn.fmt_d n)%string, n + 1).

(** A single 2 x 3 matrix. *)
Definition wide : Pxwise.node :=
  Pxwise.mk_node (Np.mk_ndarray ([] ++ [2; 3]) [1; 2; 3; 4; 5; 6]%R) None
                 (LinOp.init [[3]] [2]).

End MoreExamples.

(* ================================================================== *)
(** * Part II: properties *)
(* ================================================================== *)

Example indices_2_3 :
  Np.indices [2; 3] = [[0;0]; [0;1]; [0;2]; [1;0]; [1;1]; [1;2]].
Proof. reflexivity. Qed.

(** The host example of the specification: one pixel, [A = [[2,0],[0,3]]],
    [x = [1,1]] gives [[2,3]], and so does the adjoint on [y = [1,1]]. *)
Example pxwise_diag_ex :
  let t := Pxwise.mk_node (Np.mk_ndarray [1; 2; 2] [2; 0; 0; 3]%R) None
                          (LinOp.init [[1; 2]] [1; 2]) in
  exists fx ay,
    Pxwise.forward t (Np.mk_ndarray [1; 2] [1; 1]%R)
    = Ok (Np.mk_ndarray [1; 2] fx)
    /\ Pxwise.adjoint t (Np.mk_ndarray [1; 2] [1; 1]%R)
       = Ok (Np.mk_ndarray [1; 2] ay)
    /\ (nth 0 fx 0 = 2 /\ nth 1 fx 0 = 3)%R
    /\ (nth 0 ay 0 = 2 /\ nth 1 ay 0 = 3)%R.
Proof.
  cbv -[Rplus Rmult IZR]. eexists. eexists.
  split; [reflexivity|]. split; [reflexivity|].
  repeat split; lra.
Qed.

Example transpose_forward_ex :
  Transpose.forward
    (Transpose.mk_node [1; 0] [1; 0] (LinOp.init [[2; 3]] [3; 2]))
    (Np.mk_ndarray [2; 3] [1; 2; 3; 4; 5; 6]%R)
  = Ok (Np.mk_ndarray [3; 2] [1; 4; 2; 5; 3; 6]%R).
Proof. cbv -[IZR]. reflexivity. Qed.

Example transpose_init_ex :
  Transpose.init [2; 3; 4] [2; 0; 1]
  = Ok (Transpose.mk_node [2; 0; 1] [1; 2; 0]
          (LinOp.init [[2; 3; 4]] [4; 2; 3])).
Proof. reflexivity. Qed.

(** ** Lists *)

Lemma map_flat_map_comm {A B C : Type} (f : B -> C) (g : A -> list B) (l : list A) :
  map f (flat_map g l) = flat_map (fun x => map f (g x)) l.
Proof.
  induction l as [|x l IH]; simpl; [reflexivity|].
  now rewrite map_app, IH.
Qed.

Lemma flat_map_seq_blocks (c d a : nat) :
  flat_map (fun i => seq (i * c) c) (seq a d) = seq (a * c) (d * c).
Proof.
  revert a; induction d as [|d IH]; intros a; simpl; [reflexivity|].
  rewrite IH, seq_app. f_equal. f_equal. lia.
Qed.

Lemma map_add_seq_from (a b c : nat) :
  map (fun o => a + o) (seq b c) = seq (a + b) c.
Proof.
  revert b; induction c as [|c IH]; intros b; simpl; [reflexivity|].
  rewrite IH. do 2 f_equal. lia.
Qed.

Lemma map_add_seq (a c : nat) :
  map (fun o => a + o) (seq 0 c) = seq a c.
Proof. rewrite map_add_seq_from. f_equal. lia. Qed.

Lemma map_nth_seq {A : Type} (d : A) (l : list A) :
  map (fun k => nth k l d) (seq 0 (length l)) = l.
Proof.
  induction l as [|x l IH]; simpl; [reflexivity|].
  f_equal. rewrite <- seq_shift, map_map. exact IH.
Qed.

Lemma upd_length {A : Type} (l : list A) k x : length (upd l k x) = length l.
Proof.
  revert k; induction l as [|h t IH]; intros [|k]; simpl; auto.
Qed.

Lemma nth_upd_eq {A : Type} (l : list A) k x d :
  k < length l -> nth k (upd l k x) d = x.
Proof.
  revert k; induction l as [|h t IH]; intros [|k] H; simpl in *; try lia; auto.
  apply IH; lia.
Qed.

Lemma nth_upd_ne {A : Type} (l : list A) k j x d :
  j <> k -> nth j (upd l k x) d = nth j l d.
Proof.
  revert k j; induction l as [|h t IH]; intros [|k] [|j] H; simpl; auto; try lia.
Qed.

(** ** Shapes, strides and multi-indices *)

Module NpFacts.
Import Np.

Lemma size_app (s1 s2 : list nat) : size (s1 ++ s2) = size s1 * size s2.
Proof.
  induction s1 as [|d s1 IH]; simpl; [lia|]. rewrite IH; lia.
Qed.

Lemma strides_length (sh : list nat) : length (strides sh) = length sh.
Proof. induction sh; simpl; auto. Qed.

Lemma indices_length (sh : list nat) : length (indices sh) = size sh.
Proof.
  induction sh as [|d s IH]; simpl; [reflexivity|].
  generalize 0 as a. induction d as [|d IHd]; intros a; simpl; [reflexivity|].
  now rewrite length_app, length_map, IH, IHd.
Qed.

(** Row-major enumeration and row-major strides agree: the [k]-th
    multi-index sits at offset [k]. *)
Lemma indices_offset (sh : list nat) :
  map (fun idx => offset idx (strides sh)) (indices sh) = seq 0 (size sh).
Proof.
  induction sh as [|d s IH]; simpl; [reflexivity|].
  rewrite map_flat_map_comm.
  rewrite (flat_map_ext _ (fun i => seq (i * size s) (size s))).
  - now rewrite flat_map_seq_blocks.
  - intros i. rewrite map_map. simpl.
    rewrite <- (map_map (fun idx => offset idx (strides s)) (fun o => i * size s + o)).
    now rewrite IH, map_add_seq.
Qed.

Lemma In_indices (sh idx : list nat) :
  In idx (indices sh) <-> Forall2 lt idx sh.
Proof.
  revert idx; induction sh as [|d s IH]; intros idx; simpl.
  - split.
    + intros [<-|[]]; constructor.
    + intros H; inversion H; now left.
  - rewrite in_flat_map. split.
    + intros (i & Hi & Hin). apply in_map_iff in Hin as (idx' & <- & Hin).
      apply in_seq in Hi. constructor; [lia|]. now apply IH.
    + intros H; inversion H as [|i d' idx' s' Hlt Hrest]; subst.
      exists i. split; [apply in_seq; lia|].
      apply in_map. now apply IH.
Qed.

Lemma nth_indices_offset (sh idx : list nat) :
  Forall2 lt idx sh ->
  nth (offset idx (strides sh)) (indices sh) [] = idx.
Proof.
  intros Hv. apply In_indices in Hv.
  destruct (In_nth _ _ [] Hv) as (q & Hq & Hnth).
  assert (Hoff : offset idx (strides sh) = q).
  { rewrite <- Hnth.
    rewrite <- (map_nth (fun idx => offset idx (strides sh))).
    rewrite indices_offset. rewrite indices_length in Hq.
    rewrite (nth_indep _ _ 0) by now rewrite length_seq.
    now rewrite seq_nth. }
  now rewrite Hoff.
Qed.

Lemma offset_lt (sh idx : list nat) :
  Forall2 lt idx sh -> offset idx (strides sh) < size sh.
Proof.
  intros Hv. apply In_indices in Hv.
  apply (in_map (fun idx => offset idx (strides sh))) in Hv.
  rewrite indices_offset in Hv. apply in_seq in Hv. lia.
Qed.

(** A contiguous array read through its own window is its data. *)
Lemma materialize_as_view (a : ndarray) :
  wf a -> materialize (as_view a) = data a.
Proof.
  unfold wf, materialize, as_view, item; simpl. intros Hwf.
  rewrite <- (map_map (fun idx => offset idx (strides (shape a)))
                      (fun k => nth k (data a) 0%R)).
  rewrite indices_offset, <- Hwf. apply map_nth_seq.
Qed.

Lemma bcast_strides_same (vsh vst : list nat) :
  length vst = length vsh -> bcast_strides vsh vst vsh = Some vst.
Proof.
  revert vst; induction vsh as [|d vsh IH]; intros [|s vst] H;
    simpl in *; try discriminate; [reflexivity|].
  rewrite IH by lia. now rewrite Nat.eqb_refl.
Qed.

Lemma broadcast_to_same (sh st : list nat) (o : nat) (b : list R) :
  length st = length sh ->
  broadcast_to (mk_view sh st o b) sh = Ok (mk_view sh st o b).
Proof.
  intros H. unfold broadcast_to; simpl.
  rewrite Nat.ltb_irrefl, Nat.sub_diag. simpl.
  now rewrite bcast_strides_same.
Qed.

End NpFacts.

(** ** Sums over permuted positions *)

Lemma list_sum_perm (l l' : list nat) :
  Permutation l l' -> list_sum l = list_sum l'.
Proof.
  induction 1; simpl; lia.
Qed.

Lemma map_via_nth {A B : Type} (g : A -> B) (d : A) (l : list A) :
  map g l = map (fun m => g (nth m l d)) (seq 0 (length l)).
Proof.
  rewrite <- (map_map (fun m => nth m l d) g). now rewrite map_nth_seq.
Qed.

Lemma nth_map_in {A B : Type} (f : A -> B) (l : list A) (k : nat) (d : A) (d' : B) :
  k < length l -> nth k (map f l) d' = f (nth k l d).
Proof.
  intros H. rewrite (nth_indep _ d' (f d)) by now rewrite length_map.
  apply map_nth.
Qed.

Lemma gather_length (l idxs : list nat) : length (gather l idxs) = length idxs.
Proof. apply length_map. Qed.

Lemma gather_seq (l : list nat) : gather l (seq 0 (length l)) = l.
Proof. apply map_nth_seq. Qed.

Lemma nth_gather (l idxs : list nat) (k : nat) :
  k < length idxs -> nth k (gather l idxs) 0 = nth (nth k idxs 0) l 0.
Proof. intros H. unfold gather. now rewrite (nth_map_in _ _ _ 0). Qed.

Lemma offset_gather (u v l : list nat) :
  Np.offset (gather u l) (gather v l)
  = list_sum (map (fun m => nth m u 0 * nth m v 0) l).
Proof.
  induction l as [|m l IH]; simpl; [reflexivity|]. now rewrite IH.
Qed.

Lemma offset_as_sum (u v : list nat) :
  length u = length v ->
  Np.offset u v = list_sum (map (fun m => nth m u 0 * nth m v 0) (seq 0 (length u))).
Proof.
  intros H. rewrite <- offset_gather, gather_seq, H, gather_seq. reflexivity.
Qed.

(** Permuting index and strides alike leaves the offset unchanged. *)
Lemma offset_gather_perm (u v a : list nat) :
  length u = length v ->
  Permutation a (seq 0 (length u)) ->
  Np.offset (gather u a) (gather v a) = Np.offset u v.
Proof.
  intros Hl Hp. rewrite offset_gather, offset_as_sum by assumption.
  apply list_sum_perm. now apply Permutation_map.
Qed.

Lemma Forall2_lt_nth (idx sh : list nat) (m : nat) :
  Forall2 lt idx sh -> m < length sh -> nth m idx 0 < nth m sh 0.
Proof.
  intros H; revert m; induction H as [|i d idx sh Hlt H IH]; intros [|m] Hm;
    simpl in *; try lia. apply IH; lia.
Qed.

Lemma Forall2_lt_gather (idx sh a : list nat) :
  Forall2 lt idx sh -> Forall (fun m => m < length sh) a ->
  Forall2 lt (gather idx a) (gather sh a).
Proof.
  intros Hv Ha. induction Ha as [|m a Hm Ha IH]; simpl; constructor; auto.
  now apply Forall2_lt_nth.
Qed.

Lemma nodupb_NoDup (l : list nat) : nodupb l = true <-> NoDup l.
Proof.
  induction l as [|x l IH]; simpl.
  - split; [constructor|reflexivity].
  - rewrite andb_true_iff, negb_true_iff, IH. split.
    + intros [Hx Hl]. constructor; auto. intros Hin.
      assert (existsb (Nat.eqb x) l = true).
      { apply existsb_exists. exists x. split; auto. apply Nat.eqb_refl. }
      congruence.
    + intros H; inversion H as [|? ? Hx Hl]; subst. split; auto.
      destruct (existsb (Nat.eqb x) l) eqn:E; auto.
      apply existsb_exists in E as (y & Hy & Hxy).
      apply Nat.eqb_eq in Hxy; subst. contradiction.
Qed.

Lemma is_perm_of_Permutation (a : list nat) (n : nat) :
  Permutation a (seq 0 n) -> Np.is_perm a n = true.
Proof.
  intros Hp. unfold Np.is_perm. rewrite !andb_true_iff. repeat split.
  - apply Nat.eqb_eq. rewrite (Permutation_length Hp). apply length_seq.
  - apply forallb_forall. intros x Hx. apply Nat.ltb_lt.
    apply (Permutation_in _ Hp), in_seq in Hx. lia.
  - apply nodupb_NoDup. apply (Permutation_NoDup (Permutation_sym Hp)).
    apply seq_NoDup.
Qed.

Lemma Permutation_of_is_perm (a : list nat) (n : nat) :
  Np.is_perm a n = true -> Permutation a (seq 0 n).
Proof.
  unfold Np.is_perm. rewrite !andb_true_iff. intros [[Hl Hf] Hn].
  apply Nat.eqb_eq in Hl. apply nodupb_NoDup in Hn.
  apply NoDup_Permutation_bis; auto.
  - rewrite length_seq. lia.
  - intros x Hx. rewrite forallb_forall in Hf. apply Hf, Nat.ltb_lt in Hx.
    apply in_seq. lia.
Qed.

(** ** [transpose]: the inverse permutation *)

Module TransposeFacts.
Import Transpose.

(** The loop of [__init__] over a duplicate-free tail [l] of [axes] whose
    entries are in range: every visited slot receives its position and the
    other slots are left alone. *)
Lemma inverse_loop (n : nat) (l : list nat) :
  forall (k : nat) (inv0 : list nat),
    length inv0 = n -> NoDup l -> Forall (fun a => a < n) l ->
    exists inv,
      for_each (fun inv p => setitem inv (snd p) (fst p))
               (combine (seq k (length l)) l) inv0 = Ok inv
      /\ length inv = n
      /\ (forall j, j < length l -> nth (nth j l 0) inv 0 = k + j)
      /\ (forall m, ~ In m l -> nth m inv 0 = nth m inv0 0).
Proof.
  induction l as [|a l IH]; intros k inv0 Hlen Hnd Hrange; simpl.
  - exists inv0. repeat split; auto. intros j Hj; lia.
  - inversion Hnd as [|? ? Hnotin Hnd']; subst.
    inversion Hrange as [|? ? Ha Hrange']; subst.
    unfold setitem at 1. simpl.
    assert (Hlt : (a <? length inv0) = true) by now apply Nat.ltb_lt.
    rewrite Hlt. simpl.
    destruct (IH (S k) (upd inv0 a k)) as (inv & Hrun & Hl & Hvis & Hrest); auto.
    { now rewrite upd_length. }
    exists inv. repeat split; auto.
    + intros [|j] Hj.
      * rewrite Hrest by assumption. rewrite nth_upd_eq by lia. lia.
      * rewrite Hvis by lia. lia.
    + intros m Hm. rewrite Hrest by tauto.
      apply nth_upd_ne. intros ->. tauto.
Qed.

Lemma map_result_getitem (sh a : list nat) :
  Forall (fun m => m < length sh) a ->
  map_result (getitem sh) a = Ok (gather sh a).
Proof.
  induction 1 as [|m a Hm Ha IH]; simpl; [reflexivity|].
  unfold getitem at 1. apply Nat.ltb_lt in Hm. rewrite Hm. simpl.
  now rewrite IH.
Qed.

Lemma perm_range (a : list nat) (n : nat) :
  Permutation a (seq 0 n) -> Forall (fun m => m < n) a.
Proof.
  intros Hp. apply Forall_forall. intros x Hx.
  apply (Permutation_in _ Hp), in_seq in Hx. lia.
Qed.

(** What [__init__] builds from a permutation of [range(rank)]. *)
Lemma init_perm (sh a : list nat) :
  Permutation a (seq 0 (length sh)) ->
  exists inv,
    init sh a = Ok (mk_node a inv (LinOp.init [sh] (gather sh a)))
    /\ length inv = length sh
    /\ (forall i, i < length sh -> nth (nth i a 0) inv 0 = i)
    /\ (forall m, m < length sh -> nth (nth m inv 0) a 0 = m)
    /\ Permutation inv (seq 0 (length sh)).
Proof.
  intros Hp.
  assert (Hla : length a = length sh).
  { rewrite (Permutation_length Hp). apply length_seq. }
  assert (Hnd : NoDup a).
  { apply (Permutation_NoDup (Permutation_sym Hp)), seq_NoDup. }
  pose proof (perm_range _ _ Hp) as Hr.
  destruct (inverse_loop (length sh) a 0 (seq 0 (length a)))
    as (inv & Hrun & Hl & Hvis & _); auto.
  { rewrite length_seq. exact Hla. }
  assert (Hleft : forall i, i < length sh -> nth (nth i a 0) inv 0 = i).
  { intros i Hi. rewrite Hvis by lia. reflexivity. }
  assert (Hright : forall m, m < length sh -> nth (nth m inv 0) a 0 = m).
  { intros m Hm.
    assert (Hin : In m a).
    { apply (Permutation_in _ (Permutation_sym Hp)), in_seq. lia. }
    destruct (In_nth _ _ 0 Hin) as (i & Hi & <-).
    rewrite Hleft by lia. reflexivity. }
  exists inv. repeat split; auto.
  - unfold init, enumerate. rewrite Hrun. simpl.
    rewrite map_result_getitem by assumption. reflexivity.
  - apply NoDup_Permutation_bis.
    + apply NoDup_nth with (d := 0). intros i j Hi Hj Heq.
      rewrite <- (Hright i), <- (Hright j) by lia. now rewrite Heq.
    + rewrite length_seq. lia.
    + intros x Hx. destruct (In_nth _ _ 0 Hx) as (m & Hm & <-).
      apply in_seq. split; [lia|]. simpl.
      assert (Hin : In m a).
      { apply (Permutation_in _ (Permutation_sym Hp)), in_seq. lia. }
      destruct (In_nth _ _ 0 Hin) as (i & Hi & <-).
      rewrite Hleft by lia. lia.
Qed.

End TransposeFacts.

(** ** [transpose]: forward and adjoint *)

Module PermuteFacts.
Import Np NpFacts Closed.

Lemma transpose_copy (x : ndarray) (p : list nat) :
  Permutation p (seq 0 (length (shape x))) ->
  (v <- transpose (as_view x) p ;; copyto (gather (shape x) p) v)
  = Ok (permuted x p).
Proof.
  intros Hp. unfold transpose, as_view; simpl.
  rewrite (is_perm_of_Permutation _ _ Hp). simpl.
  unfold copyto. cbn [vshape vstrides voffset vbase].
  rewrite gather_length, Nat.sub_diag. cbn [strip_ones].
  rewrite broadcast_to_same by now rewrite !gather_length.
  reflexivity.
Qed.

Lemma permuted_wf (x : ndarray) (p : list nat) : wf (permuted x p).
Proof. unfold wf, permuted; simpl. now rewrite length_map, indices_length. Qed.

(** Undoing a permutation of the axes with its inverse. *)
Lemma gather_gather_inv (l a inv : list nat) :
  length a = length l -> length inv = length l ->
  (forall m, m < length l -> nth (nth m inv 0) a 0 = m) ->
  (forall m, m < length l -> nth m inv 0 < length l) ->
  gather (gather l a) inv = l.
Proof.
  intros Ha Hi Hinv Hr. unfold gather at 1.
  rewrite (map_via_nth _ 0 inv), Hi.
  rewrite <- (map_nth_seq 0 l) at 2.
  apply map_ext_in. intros m Hm. apply in_seq in Hm.
  rewrite nth_gather by (rewrite Ha; apply Hr; lia).
  rewrite Hinv by lia. reflexivity.
Qed.

(** Index arithmetic of a transposed copy.  Reading the copy of shape
    [gather sh a] through the strides permuted by [inv] at [idx] reaches the
    position of the permuted index [gather idx a], which in turn was
    filled from position [idx] of the original. *)
Lemma perm_index (sh a inv idx : list nat) :
  Permutation a (seq 0 (length sh)) ->
  length inv = length sh ->
  (forall i, i < length sh -> nth (nth i a 0) inv 0 = i) ->
  Forall2 lt idx sh ->
  offset idx (gather (strides (gather sh a)) inv)
  = offset (gather idx a) (strides (gather sh a))
  /\ Forall2 lt (gather idx a) (gather sh a)
  /\ offset (gather idx a) (gather (strides sh) a) = offset idx (strides sh).
Proof.
  intros Hpa Hli Hleft Hidx.
  assert (Hla : length a = length sh).
  { rewrite (Permutation_length Hpa). apply length_seq. }
  assert (Hra : Forall (fun m => m < length sh) a).
  { apply Forall_forall. intros m Hm.
    apply (Permutation_in _ Hpa), in_seq in Hm. lia. }
  assert (Hlidx : length idx = length sh) by exact (Forall2_length Hidx).
  set (sy := gather sh a).
  set (w := gather (strides sy) inv).
  assert (Hls : length (strides sy) = length sh).
  { unfold sy. now rewrite strides_length, gather_length. }
  assert (Hlw : length w = length sh).
  { unfold w. now rewrite gather_length. }
  assert (Hwa : gather w a = strides sy).
  { unfold w. apply gather_gather_inv; rewrite Hls; auto.
    intros m Hm.
    assert (Hin : In (nth m a 0) a) by (apply nth_In; lia).
    rewrite Forall_forall in Hra. now apply Hra in Hin. }
  repeat split.
  - rewrite <- Hwa. symmetry. apply offset_gather_perm; [lia|].
    now rewrite Hlidx.
  - unfold sy. now apply Forall2_lt_gather.
  - apply offset_gather_perm.
    + now rewrite strides_length.
    + now rewrite Hlidx.
Qed.

(** The element of the transposed copy found at a permuted index. *)
Lemma permuted_at (x : ndarray) (a idx' : list nat) :
  Forall2 lt idx' (gather (shape x) a) ->
  nth (offset idx' (strides (gather (shape x) a))) (data (permuted x a)) 0%R
  = nth (offset idx' (gather (strides (shape x)) a)) (data x) 0%R.
Proof.
  intros Hv. unfold permuted. simpl.
  rewrite (nth_map_in _ _ _ []) by (rewrite indices_length; now apply offset_lt).
  now rewrite nth_indices_offset.
Qed.

Lemma permuted_permuted (x : ndarray) (a inv : list nat) :
  wf x ->
  Permutation a (seq 0 (length (shape x))) ->
  Permutation inv (seq 0 (length (shape x))) ->
  (forall i, i < length (shape x) -> nth (nth i a 0) inv 0 = i) ->
  (forall m, m < length (shape x) -> nth (nth m inv 0) a 0 = m) ->
  permuted (permuted x a) inv = x.
Proof.
  intros Hwf Hpa Hpi Hleft Hright.
  assert (Hla : length a = length (shape x)).
  { rewrite (Permutation_length Hpa). apply length_seq. }
  assert (Hli : length inv = length (shape x)).
  { rewrite (Permutation_length Hpi). apply length_seq. }
  assert (Hri : forall m, m < length (shape x) -> nth m inv 0 < length (shape x)).
  { intros m Hm.
    assert (Hin : In (nth m inv 0) inv) by (apply nth_In; lia).
    apply (Permutation_in _ Hpi), in_seq in Hin. lia. }
  assert (Hshape : gather (gather (shape x) a) inv = shape x).
  { apply gather_gather_inv; auto. }
  unfold permuted at 1.
  replace (shape (permuted x a)) with (gather (shape x) a) by reflexivity.
  rewrite Hshape.
  destruct x as [shx dx]. simpl in *. f_equal.
  transitivity (materialize (as_view (mk_ndarray shx dx)));
    [|exact (materialize_as_view _ Hwf)].
  unfold materialize, as_view, item; simpl.
  apply map_ext_in. intros idx Hidx. apply In_indices in Hidx.
  destruct (perm_index shx a inv idx Hpa Hli Hleft Hidx) as (HA & HB & HC).
  rewrite HA.
  pose proof (permuted_at (mk_ndarray shx dx) a (gather idx a) HB) as Hat.
  simpl in Hat. rewrite Hat. now rewrite HC.
Qed.

End PermuteFacts.

Module TransposeSpec.
Import Transpose TransposeFacts PermuteFacts Closed.

Lemma forward_perm (sh a inv : list nat) (x : Np.ndarray) :
  Permutation a (seq 0 (length sh)) -> Np.shape x = sh ->
  forward (mk_node a inv (LinOp.init [sh] (gather sh a))) x = Ok (permuted x a).
Proof.
  intros Hp <-. unfold forward; simpl. now apply transpose_copy.
Qed.

Lemma adjoint_perm (sh a inv : list nat) (y : Np.ndarray) :
  Permutation inv (seq 0 (length sh)) ->
  Np.shape y = gather sh a -> length a = length sh ->
  gather (gather sh a) inv = sh ->
  adjoint (mk_node a inv (LinOp.init [sh] (gather sh a))) y = Ok (permuted y inv).
Proof.
  intros Hp Hy Hla Hsh. unfold adjoint; simpl.
  pose proof (transpose_copy y inv) as Hcopy.
  rewrite Hy, Hsh in Hcopy. apply Hcopy.
  now rewrite gather_length, Hla.
Qed.

End TransposeSpec.

(** C5. A [transpose] node built from a permutation [axes] of [range(rank)]
    stores an inverse with [inverse[axes[i]] == i] for every [i], and for
    every input array [x] of the input shape [adjoint(forward(x))] is [x]
    itself. *)
Theorem transpose_roundtrip (arg_shape axes : list nat) (x : Np.ndarray) :
  Permutation axes (seq 0 (length arg_shape)) ->
  Np.shape x = arg_shape -> Np.wf x ->
  exists t,
    Transpose.init arg_shape axes = Ok t
    /\ (forall i, i < length axes ->
                  nth (nth i axes 0) (Transpose.inverse t) 0 = i)
    /\ exists y, Transpose.forward t x = Ok y /\ Transpose.adjoint t y = Ok x.
Proof.
  intros Hp Hsh Hwf.
  destruct (TransposeFacts.init_perm arg_shape axes Hp)
    as (inv & Hinit & Hli & Hleft & Hright & Hpi).
  assert (Hla : length axes = length arg_shape).
  { rewrite (Permutation_length Hp). apply length_seq. }
  exists (Transpose.mk_node axes inv (LinOp.init [arg_shape] (gather arg_shape axes))).
  split; [exact Hinit|]. split.
  { intros i Hi. simpl. apply Hleft. lia. }
  exists (Closed.permuted x axes). split.
  - now apply TransposeSpec.forward_perm.
  - rewrite TransposeSpec.adjoint_perm; auto.
    + f_equal. subst arg_shape. now apply PermuteFacts.permuted_permuted.
    + simpl. now rewrite Hsh.
    + apply PermuteFacts.gather_gather_inv; auto.
      intros m Hm.
      assert (Hin : In (nth m inv 0) inv) by (apply nth_In; lia).
      apply (Permutation_in _ Hpi), in_seq in Hin. lia.
Qed.

Lemma transpose_roundtrip_witness :
  exists t,
    Transpose.init [2; 3] [1; 0] = Ok t
    /\ (forall i, i < 2 -> nth (nth i [1; 0] 0) (Transpose.inverse t) 0 = i)
    /\ exists y,
         Transpose.forward t (Np.mk_ndarray [2; 3] [1; 2; 3; 4; 5; 6]%R) = Ok y
         /\ Transpose.adjoint t y = Ok (Np.mk_ndarray [2; 3] [1; 2; 3; 4; 5; 6]%R).
Proof.
  apply (transpose_roundtrip [2; 3] [1; 0]
           (Np.mk_ndarray [2; 3] [1; 2; 3; 4; 5; 6]%R)).
  - simpl. apply perm_swap.
  - reflexivity.
  - reflexivity.
Defined.

(** ** Windows onto the trailing axes *)

Module WindowFacts.
Import Np NpFacts.

Lemma strides_app (s1 s2 : list nat) :
  strides (s1 ++ s2) = map (fun s => s * size s2) (strides s1) ++ strides s2.
Proof.
  induction s1 as [|d s1 IH]; simpl; [reflexivity|].
  now rewrite IH, size_app.
Qed.

Lemma firstn_strides_app (lead tl : list nat) :
  firstn (length lead) (strides (lead ++ tl))
  = map (fun s => s * size tl) (strides lead).
Proof.
  rewrite strides_app.
  rewrite <- (strides_length lead) at 1.
  rewrite <- (length_map (fun s => s * size tl) (strides lead)) at 1.
  now rewrite firstn_app, Nat.sub_diag, firstn_all, app_nil_r.
Qed.

Lemma nth_strides_app (lead tl : list nat) (k : nat) :
  nth (length lead + k) (strides (lead ++ tl)) 0 = nth k (strides tl) 0.
Proof.
  rewrite strides_app, app_nth2; rewrite length_map, strides_length; [|lia].
  f_equal. lia.
Qed.

Lemma offset_scale (idx st : list nat) (c : nat) :
  offset idx (map (fun s => s * c) st) = offset idx st * c.
Proof.
  revert st; induction idx as [|i idx IH]; intros [|s st]; simpl; auto.
  rewrite IH. lia.
Qed.

(** A window whose strides are the row-major strides of [lead] scaled by
    [c] visits the buffer positions [o], [o + c], [o + 2c], ... *)
Lemma materialize_scaled (lead : list nat) (c o : nat) (buf : list R) :
  materialize (mk_view lead (map (fun s => s * c) (strides lead)) o buf)
  = map (fun p => nth (o + p * c) buf 0%R) (seq 0 (size lead)).
Proof.
  unfold materialize, item; simpl.
  rewrite <- indices_offset, map_map.
  apply map_ext. intros idx. now rewrite offset_scale.
Qed.

Lemma targets_scaled (lead : list nat) (c o : nat) :
  map (fun idx => o + offset idx (map (fun s => s * c) (strides lead)))
      (indices lead)
  = map (fun p => o + p * c) (seq 0 (size lead)).
Proof.
  rewrite <- indices_offset, map_map.
  apply map_ext. intros idx. now rewrite offset_scale.
Qed.

(** [a[..., i, j]] for a contiguous array of shape [lead ++ [N; M]]. *)
Lemma ell2_tail (lead : list nat) (N M i j : nat) (buf : list R) :
  i < N -> j < M ->
  ell2 (as_view (mk_ndarray (lead ++ [N; M]) buf)) i j
  = Ok (mk_view lead (map (fun s => s * (N * M)) (strides lead)) (i * M + j) buf).
Proof.
  intros Hi Hj. unfold ell2, as_view; simpl.
  rewrite length_app; simpl.
  replace (length lead + 2 - 2) with (length lead) by lia.
  replace (length lead + 2 - 1) with (length lead + 1) by lia.
  destruct (length lead + 2 <? 2) eqn:E; [apply Nat.ltb_lt in E; lia|].
  rewrite <- (Nat.add_0_r (length lead)) at 1.
  rewrite !app_nth2_plus. simpl.
  apply Nat.ltb_lt in Hi, Hj. rewrite Hi, Hj. simpl.
  rewrite firstn_app, Nat.sub_diag, firstn_all, app_nil_r.
  rewrite firstn_strides_app.
  pose proof (nth_strides_app lead [N; M] 0) as H0.
  pose proof (nth_strides_app lead [N; M] 1) as H1.
  rewrite Nat.add_0_r in H0. rewrite H0, H1. simpl.
  f_equal. f_equal; [|lia].
  apply map_ext. intros s. lia.
Qed.

(** [a[..., j]] for a contiguous array of shape [lead ++ [M]]. *)
Lemma ell1_tail (lead : list nat) (M j : nat) (buf : list R) :
  j < M ->
  ell1 (as_view (mk_ndarray (lead ++ [M]) buf)) j
  = Ok (mk_view lead (map (fun s => s * M) (strides lead)) j buf).
Proof.
  intros Hj. unfold ell1, as_view; simpl.
  rewrite length_app; simpl.
  replace (length lead + 1 - 1) with (length lead) by lia.
  destruct (length lead + 1 <? 1) eqn:E; [apply Nat.ltb_lt in E; lia|].
  rewrite <- (Nat.add_0_r (length lead)) at 1.
  rewrite !app_nth2_plus. simpl.
  apply Nat.ltb_lt in Hj. rewrite Hj.
  rewrite firstn_app, Nat.sub_diag, firstn_all, app_nil_r.
  rewrite firstn_strides_app.
  pose proof (nth_strides_app lead [M] 0) as H0.
  rewrite Nat.add_0_r in H0. rewrite H0. simpl.
  f_equal. f_equal; [|lia].
  apply map_ext. intros s. lia.
Qed.

Lemma bcast_shape_rev_same (r : list nat) : bcast_shape_rev r r = Some r.
Proof.
  induction r as [|a r IH]; simpl; [reflexivity|].
  now rewrite IH, Nat.eqb_refl.
Qed.

Lemma bcast_shape_same (sh : list nat) : bcast_shape sh sh = Some sh.
Proof.
  unfold bcast_shape. rewrite bcast_shape_rev_same. simpl.
  now rewrite rev_involutive.
Qed.

(** Operands of one shape are combined position by position. *)
Lemma binop_same (f : R -> R -> R) (sh sa sb : list nat) (oa ob : nat)
      (ba bb : list R) :
  length sa = length sh -> length sb = length sh ->
  binop f (mk_view sh sa oa ba) (mk_view sh sb ob bb)
  = Ok (mk_ndarray sh (map2 f (materialize (mk_view sh sa oa ba))
                              (materialize (mk_view sh sb ob bb)))).
Proof.
  intros Ha Hb. unfold binop; simpl. rewrite bcast_shape_same.
  now rewrite !broadcast_to_same.
Qed.

Lemma map2_map {A B C D : Type} (f : B -> C -> D) (u : A -> B) (v : A -> C)
      (l : list A) :
  map2 f (map u l) (map v l) = map (fun k => f (u k) (v k)) l.
Proof.
  unfold map2. induction l as [|x l IH]; simpl; [reflexivity|].
  now rewrite IH.
Qed.

Lemma map2_length {A B C : Type} (f : A -> B -> C) (l1 : list A) (l2 : list B) :
  length l1 = length l2 -> length (map2 f l1 l2) = length l1.
Proof.
  intros H. unfold map2. rewrite length_map, length_combine. lia.
Qed.

Lemma map2_nth (f : R -> R -> R) (l1 l2 : list R) :
  length l1 = length l2 ->
  map2 f l1 l2
  = map (fun k => f (nth k l1 0%R) (nth k l2 0%R)) (seq 0 (length l1)).
Proof.
  intros H.
  rewrite <- (map_nth_seq 0%R l1) at 1.
  rewrite <- (map_nth_seq 0%R l2) at 1.
  rewrite <- H. apply map2_map.
Qed.

End WindowFacts.

(** ** In-place accumulation into a window *)

Module AccumulateFacts.
Import Np NpFacts WindowFacts Closed.

(** Writing through distinct, in-range positions: each position receives
    its own update and all others keep their contents. *)
Lemma fold_step (f : R -> R -> R) (kvs : list (nat * R)) :
  forall d,
    NoDup (map fst kvs) ->
    (forall k, In k (map fst kvs) -> k < length d) ->
    length (fold_left (step f) kvs d) = length d
    /\ (forall k x, In (k, x) kvs ->
                    nth k (fold_left (step f) kvs d) 0%R = f (nth k d 0%R) x)
    /\ (forall k, ~ In k (map fst kvs) ->
                  nth k (fold_left (step f) kvs d) 0%R = nth k d 0%R).
Proof.
  induction kvs as [|[k0 x0] kvs IH]; intros d Hnd Hr; simpl.
  - repeat split; auto. intros k x [].
  - simpl in Hnd. inversion Hnd as [|? ? Hnotin Hnd']; subst.
    destruct (IH (step f d (k0, x0)) Hnd') as (Hlen & Hin & Hout).
    { intros k Hk. unfold step; simpl. rewrite upd_length.
      apply Hr. simpl. now right. }
    unfold step in *; simpl in *. rewrite upd_length in Hlen.
    repeat split; auto.
    + intros k x [Heq|Hk].
      * inversion Heq; subst. rewrite Hout by assumption.
        apply nth_upd_eq. apply Hr. now left.
      * rewrite (Hin k x Hk). f_equal. apply nth_upd_ne.
        intros ->. apply Hnotin. apply (in_map fst) in Hk. exact Hk.
    + intros k Hk. rewrite Hout by tauto.
      apply nth_upd_ne. intros ->. tauto.
Qed.

Lemma NoDup_map_inj_in {A B : Type} (f : A -> B) (l : list A) :
  (forall x y, In x l -> In y l -> f x = f y -> x = y) ->
  NoDup l -> NoDup (map f l).
Proof.
  intros Hinj Hnd. induction Hnd as [|x l Hx Hnd IH]; simpl; constructor.
  - intros Hin. apply in_map_iff in Hin as (y & Hy & Hin).
    assert (y = x) by (apply Hinj; simpl; auto). now subst.
  - apply IH. intros a b Ha Hb. apply Hinj; simpl; auto.
Qed.

Lemma slot_unique (N q q' i i' : nat) :
  i < N -> i' < N -> q * N + i = q' * N + i' -> q = q' /\ i = i'.
Proof.
  intros Hi Hi' H.
  assert (q = q').
  { destruct (Nat.lt_trichotomy q q') as [Hlt|[Heq|Hgt]]; auto; nia. }
  subst. split; [reflexivity|lia].
Qed.

(** [res[..., i] += a * b] on a contiguous [res] of shape [lead ++ [N]],
    for windows [a] and [b] of shape [lead]. *)
Lemma accumulate_spec (lead : list nat) (N i : nat) (d : list R) (a b : view) :
  i < N -> length d = size lead * N ->
  vshape a = lead -> length (vstrides a) = length lead ->
  vshape b = lead -> length (vstrides b) = length lead ->
  exists d',
    Pxwise.accumulate (mk_ndarray (lead ++ [N]) d) i a b
    = Ok (mk_ndarray (lead ++ [N]) d')
    /\ length d' = size lead * N
    /\ forall q i', q < size lead -> i' < N ->
         nth (q * N + i') d' 0%R
         = if i' =? i
           then (nth (q * N + i) d 0 + nth q (materialize a) 0 * nth q (materialize b) 0)%R
           else nth (q * N + i') d 0%R.
Proof.
  intros Hi Hd Hsa Hla Hsb Hlb.
  destruct a as [sa sta oa ba], b as [sb stb ob bb]. simpl in *. subst sa sb.
  unfold Pxwise.accumulate.
  rewrite binop_same by assumption. simpl.
  rewrite ell1_tail by assumption. simpl.
  unfold iop_window, as_view. simpl.
  rewrite broadcast_to_same by apply strides_length. simpl.
  set (ma := materialize (mk_view lead sta oa ba)).
  set (mb := materialize (mk_view lead stb ob bb)).
  assert (Hma : length ma = size lead).
  { unfold ma, materialize. simpl. now rewrite length_map, indices_length. }
  assert (Hmb : length mb = size lead).
  { unfold mb, materialize. simpl. now rewrite length_map, indices_length. }
  assert (Hp : materialize (as_view (mk_ndarray lead (map2 Rmult ma mb)))
               = map (fun q => (nth q ma 0 * nth q mb 0)%R) (seq 0 (size lead))).
  { rewrite materialize_as_view.
    - simpl. rewrite map2_nth by lia. now rewrite Hma.
    - unfold wf. simpl. rewrite map2_length by lia. exact Hma. }
  unfold as_view in Hp. simpl in Hp. rewrite Hp.
  rewrite targets_scaled.
  set (kvs := combine (map (fun p => i + p * N) (seq 0 (size lead)))
                      (map (fun q => (nth q ma 0 * nth q mb 0)%R) (seq 0 (size lead)))).
  assert (Hkeys : map fst kvs = map (fun p => i + p * N) (seq 0 (size lead))).
  { unfold kvs. clear. generalize (seq 0 (size lead)) as l.
    induction l as [|x l IH]; simpl; [reflexivity|]. now rewrite IH. }
  assert (Hkvs : forall q, q < size lead ->
                 In (i + q * N, (nth q ma 0 * nth q mb 0)%R) kvs).
  { intros q Hq. unfold kvs.
    assert (Hin : In q (seq 0 (size lead))) by (apply in_seq; lia).
    revert Hin. clear. generalize (seq 0 (size lead)) as l.
    induction l as [|x l IH]; simpl; [tauto|].
    intros [->|Hin]; [now left|right; auto]. }
  destruct (fold_step Rplus kvs d) as (Hlen & Hin & Hout).
  { rewrite Hkeys. apply NoDup_map_inj_in.
    - intros x y Hx Hy Hxy. apply in_seq in Hx, Hy. nia.
    - apply seq_NoDup. }
  { intros k Hk. rewrite Hkeys in Hk. apply in_map_iff in Hk as (q & <- & Hq).
    apply in_seq in Hq. rewrite Hd. nia. }
  exists (fold_left (step Rplus) kvs d). split; [reflexivity|].
  split; [now rewrite Hlen|].
  intros q i' Hq Hi'. destruct (Nat.eqb_spec i' i) as [->|Hne].
  - replace (q * N + i) with (i + q * N) by lia.
    now rewrite (Hin _ _ (Hkvs q Hq)).
  - apply Hout. rewrite Hkeys. intros Hk.
    apply in_map_iff in Hk as (q' & Heq & Hq').
    assert (q' * N + i = q * N + i') by lia.
    apply slot_unique in H; auto. lia.
Qed.

End AccumulateFacts.

(** ** [pxwise_matrixmult]: the loops of [forward] and [adjoint] *)

Module PxwiseLoops.
Import Np NpFacts WindowFacts AccumulateFacts Closed.

Lemma shows_scaled (lead : list nat) (c o : nat) (buf : list R) :
  shows lead (Ok (mk_view lead (map (fun s => s * c) (strides lead)) o buf))
        (fun q => nth (o + q * c) buf 0%R).
Proof.
  eexists. split; [reflexivity|]. simpl. repeat split.
  - now rewrite length_map, strides_length.
  - intros q Hq. rewrite materialize_scaled.
    rewrite (nth_map_in _ _ _ 0) by now rewrite length_seq.
    now rewrite seq_nth.
Qed.

Section Loops.
Variable lead : list nat.
Variable N : nat.

Let arr (d : list R) : ndarray := mk_ndarray (lead ++ [N]) d.

(** [for j in js: res[..., i] += va(j) * vb(j)] *)
Lemma inner_loop (i : nat) (va vb : nat -> result view)
      (ga gb : nat -> nat -> R) (js : list nat) :
  i < N ->
  (forall j, In j js -> shows lead (va j) (fun q => ga q j)) ->
  (forall j, In j js -> shows lead (vb j) (fun q => gb q j)) ->
  forall d, length d = size lead * N ->
  exists d',
    for_each (fun res j => a <- va j ;; b <- vb j ;; Pxwise.accumulate res i a b)
             js (arr d) = Ok (arr d')
    /\ length d' = size lead * N
    /\ forall q i', q < size lead -> i' < N ->
         nth (q * N + i') d' 0%R
         = if i' =? i
           then fold_left (fun acc j => (acc + ga q j * gb q j)%R) js
                          (nth (q * N + i) d 0%R)
           else nth (q * N + i') d 0%R.
Proof.
  intros Hi. induction js as [|j js IH]; intros Ha Hb d Hd; simpl.
  - exists d. repeat split; auto.
    intros q i' _ _. destruct (Nat.eqb_spec i' i); subst; reflexivity.
  - destruct (Ha j (or_introl eq_refl)) as (a & Hva & Hsa & Hla & Hga).
    destruct (Hb j (or_introl eq_refl)) as (b & Hvb & Hsb & Hlb & Hgb).
    rewrite Hva, Hvb. simpl.
    destruct (accumulate_spec lead N i d a b Hi Hd Hsa Hla Hsb Hlb)
      as (d1 & Hacc & Hd1 & Hnth1).
    unfold arr in *. rewrite Hacc. simpl.
    destruct (IH (fun j' H => Ha j' (or_intror H))
                 (fun j' H => Hb j' (or_intror H)) d1 Hd1)
      as (d' & Hrun & Hd' & Hnth').
    exists d'. repeat split; auto.
    intros q i' Hq Hi'. rewrite (Hnth' q i' Hq Hi').
    destruct (Nat.eqb_spec i' i) as [->|Hne].
    + rewrite (Hnth1 q i Hq Hi), Nat.eqb_refl, Hga, Hgb by assumption.
      reflexivity.
    + rewrite (Hnth1 q i' Hq Hi').
      destruct (Nat.eqb_spec i' i); [contradiction|reflexivity].
Qed.

(** [for i in range(i0, i0 + k): body(res, i)] where [body] rewrites the
    slots [res[..., i]] only. *)
Lemma outer_loop (body : ndarray -> nat -> result ndarray)
      (F : nat -> nat -> R -> R) :
  (forall i d, i < N -> length d = size lead * N ->
     exists d', body (arr d) i = Ok (arr d')
       /\ length d' = size lead * N
       /\ forall q i', q < size lead -> i' < N ->
            nth (q * N + i') d' 0%R
            = if i' =? i then F q i (nth (q * N + i) d 0%R)
              else nth (q * N + i') d 0%R) ->
  forall k i0 d, i0 + k <= N -> length d = size lead * N ->
  exists d',
    for_each body (seq i0 k) (arr d) = Ok (arr d')
    /\ length d' = size lead * N
    /\ forall q i', q < size lead -> i' < N ->
         nth (q * N + i') d' 0%R
         = if (i0 <=? i') && (i' <? i0 + k)
           then F q i' (nth (q * N + i') d 0%R)
           else nth (q * N + i') d 0%R.
Proof.
  intros Hbody. induction k as [|k IH]; intros i0 d Hk Hd; simpl.
  - exists d. repeat split; auto. intros q i' _ _.
    destruct (Nat.leb_spec i0 i'), (Nat.ltb_spec i' (i0 + 0));
      try reflexivity; lia.
  - destruct (Hbody i0 d) as (d1 & Hrun1 & Hd1 & Hnth1); [lia|assumption|].
    rewrite Hrun1. simpl.
    destruct (IH (S i0) d1) as (d' & Hrun & Hd' & Hnth'); [lia|assumption|].
    exists d'. repeat split; auto.
    intros q i' Hq Hi'. rewrite (Hnth' q i' Hq Hi'), (Hnth1 q i' Hq Hi').
    destruct (Nat.eqb_spec i' i0) as [->|Hne].
    + replace (S i0 <=? i0) with false by (symmetry; apply Nat.leb_gt; lia).
      rewrite Nat.leb_refl. simpl.
      replace (i0 <? i0 + S k) with true by (symmetry; apply Nat.ltb_lt; lia).
      reflexivity.
    + replace ((S i0 <=? i') && (i' <? S i0 + k))
        with ((i0 <=? i') && (i' <? i0 + S k)); [reflexivity|].
      destruct (Nat.leb_spec (S i0) i'), (Nat.ltb_spec i' (S i0 + k)),
               (Nat.leb_spec i0 i'), (Nat.ltb_spec i' (i0 + S k));
        try reflexivity; lia.
Qed.

End Loops.

Lemma from_end_1 (lead : list nat) (M : nat) : from_end 1 (lead ++ [M]) = Ok M.
Proof.
  unfold from_end. rewrite length_app; simpl.
  destruct (length lead + 1 <? 1) eqn:E; [apply Nat.ltb_lt in E; lia|].
  replace (length lead + 1 - 1) with (length lead + 0) by lia.
  now rewrite app_nth2_plus.
Qed.

Lemma from_end_2 (lead : list nat) (N M : nat) :
  from_end 2 (lead ++ [N; M]) = Ok N.
Proof.
  unfold from_end. rewrite length_app; simpl.
  destruct (length lead + 2 <? 2) eqn:E; [apply Nat.ltb_lt in E; lia|].
  replace (length lead + 2 - 2) with (length lead + 0) by lia.
  now rewrite app_nth2_plus.
Qed.

Lemma from_end_1_2 (lead : list nat) (N M : nat) :
  from_end 1 (lead ++ [N; M]) = Ok M.
Proof.
  replace (lead ++ [N; M]) with ((lead ++ [N]) ++ [M])
    by now rewrite <- app_assoc.
  apply from_end_1.
Qed.

Lemma drop_last_1 {X : Type} (lead : list X) (a : X) :
  drop_last 1 (lead ++ [a]) = lead.
Proof.
  unfold drop_last. rewrite length_app; simpl.
  replace (length lead + 1 - 1) with (length lead) by lia.
  now rewrite firstn_app, Nat.sub_diag, firstn_all, app_nil_r.
Qed.

Lemma drop_last_1_2 {X : Type} (lead : list X) (a b : X) :
  drop_last 1 (lead ++ [a; b]) = lead ++ [a].
Proof.
  replace (lead ++ [a; b]) with ((lead ++ [a]) ++ [b])
    by now rewrite <- app_assoc.
  apply drop_last_1.
Qed.

Lemma drop_last_2 {X : Type} (lead : list X) (a b : X) :
  drop_last 2 (lead ++ [a; b]) = lead.
Proof.
  unfold drop_last. rewrite length_app; simpl.
  replace (length lead + 2 - 2) with (length lead) by lia.
  now rewrite firstn_app, Nat.sub_diag, firstn_all, app_nil_r.
Qed.

Lemma nth_repeat_0 (k n : nat) : nth k (repeat 0%R n) 0%R = 0%R.
Proof.
  revert k; induction n as [|n IH]; intros [|k]; simpl; auto.
Qed.

Lemma copyto_same (sh : list nat) (d : list R) :
  length d = size sh ->
  copyto sh (as_view (mk_ndarray sh d)) = Ok (mk_ndarray sh d).
Proof.
  intros H. unfold copyto, as_view. cbn [vshape vstrides voffset vbase shape data].
  rewrite Nat.sub_diag. cbn [strip_ones].
  rewrite broadcast_to_same by apply strides_length. simpl.
  f_equal. f_equal. apply (materialize_as_view (mk_ndarray sh d)). exact H.
Qed.

Section Node.
Variables (lead : list nat) (N M : nat) (Ad : list R) (nb : option R).
Variable (ash : list nat).

Let t : Pxwise.node :=
  Pxwise.mk_node (mk_ndarray (lead ++ [N; M]) Ad) nb
                 (LinOp.init [ash] (drop_last 1 (lead ++ [N; M]))).

(** [forward] on an input of shape [lead ++ [M]]: every output component
    accumulates its row of products from 0, in the order of [j]. *)
Lemma forward_spec (xd : list R) :
  exists F,
    Pxwise.forward t (mk_ndarray (lead ++ [M]) xd)
    = Ok (mk_ndarray (lead ++ [N]) F)
    /\ length F = size lead * N
    /\ forall q i, q < size lead -> i < N ->
         nth (q * N + i) F 0%R
         = fold_left (fun acc j => (acc + Aget Ad N M q i j * xget xd M q j)%R)
                     (seq 0 M) 0%R.
Proof.
  unfold Pxwise.forward, t. simpl.
  rewrite from_end_2, drop_last_1_2. simpl.
  destruct (outer_loop lead N
    (fun res i =>
       M0 <- from_end 1 (lead ++ [N; M]) ;;
       for_each (fun res j =>
         a <- ell2 (as_view (mk_ndarray (lead ++ [N; M]) Ad)) i j ;;
         x <- ell1 (as_view (mk_ndarray (lead ++ [M]) xd)) j ;;
         Pxwise.accumulate res i a x) (seq 0 M0) res)
    (fun q i r0 =>
       fold_left (fun acc j => (acc + Aget Ad N M q i j * xget xd M q j)%R)
                 (seq 0 M) r0))
    with N 0 (repeat 0%R (size (lead ++ [N]))) as (F & Hrun & HF & Hnth).
  - intros i d Hi Hd. rewrite from_end_1_2. simpl.
    apply (inner_loop lead N i
             (fun j => ell2 (as_view (mk_ndarray (lead ++ [N; M]) Ad)) i j)
             (fun j => ell1 (as_view (mk_ndarray (lead ++ [M]) xd)) j)
             (fun q j => Aget Ad N M q i j) (fun q j => xget xd M q j));
      auto.
    + intros j Hj. apply in_seq in Hj.
      rewrite ell2_tail by lia. apply shows_scaled.
    + intros j Hj. apply in_seq in Hj.
      rewrite ell1_tail by lia. apply shows_scaled.
  - lia.
  - rewrite repeat_length, size_app. simpl. lia.
  - unfold zeros. simpl in Hrun. rewrite Hrun. simpl.
    unfold Pxwise.shape. simpl.
    rewrite copyto_same by (rewrite size_app; simpl; lia).
    exists F. repeat split; auto.
    intros q i Hq Hi. rewrite (Hnth q i Hq Hi).
    replace (0 <=? i) with true by (symmetry; now apply Nat.leb_le; lia).
    replace (i <? 0 + N) with true by (symmetry; apply Nat.ltb_lt; lia).
    simpl. now rewrite nth_repeat_0.
Qed.

(** [adjoint] on a value of shape [lead ++ [N]], written to an input
    buffer of shape [lead ++ [M]]. *)
Lemma adjoint_spec (yd : list R) :
  ash = lead ++ [M] ->
  exists G,
    Pxwise.adjoint t (mk_ndarray (lead ++ [N]) yd)
    = Ok (mk_ndarray (lead ++ [M]) G)
    /\ length G = size lead * M
    /\ forall q i, q < size lead -> i < M ->
         nth (q * M + i) G 0%R
         = fold_left (fun acc j => (acc + Aget Ad N M q j i * xget yd N q j)%R)
                     (seq 0 N) 0%R.
Proof.
  intros Hash. unfold Pxwise.adjoint, t. simpl.
  rewrite from_end_1_2, drop_last_2. simpl.
  destruct (outer_loop lead M
    (fun res i =>
       N0 <- from_end 2 (lead ++ [N; M]) ;;
       for_each (fun res j =>
         a <- ell2 (as_view (mk_ndarray (lead ++ [N; M]) Ad)) j i ;;
         y <- ell1 (as_view (mk_ndarray (lead ++ [N]) yd)) j ;;
         Pxwise.accumulate res i a y) (seq 0 N0) res)
    (fun q i r0 =>
       fold_left (fun acc j => (acc + Aget Ad N M q j i * xget yd N q j)%R)
                 (seq 0 N) r0))
    with M 0 (repeat 0%R (size (lead ++ [M]))) as (G & Hrun & HG & Hnth).
  - intros i d Hi Hd. rewrite from_end_2. simpl.
    apply (inner_loop lead M i
             (fun j => ell2 (as_view (mk_ndarray (lead ++ [N; M]) Ad)) j i)
             (fun j => ell1 (as_view (mk_ndarray (lead ++ [N]) yd)) j)
             (fun q j => Aget Ad N M q j i) (fun q j => xget yd N q j));
      auto.
    + intros j Hj. apply in_seq in Hj.
      rewrite ell2_tail by lia. apply shows_scaled.
    + intros j Hj. apply in_seq in Hj.
      rewrite ell1_tail by lia. apply shows_scaled.
  - lia.
  - rewrite repeat_length, size_app. simpl. lia.
  - unfold zeros. simpl in Hrun. rewrite Hrun. simpl.
    unfold Pxwise.arg_shape. simpl. rewrite Hash.
    rewrite copyto_same by (rewrite size_app; simpl; lia).
    exists G. repeat split; auto.
    intros q i Hq Hi. rewrite (Hnth q i Hq Hi).
    replace (0 <=? i) with true by (symmetry; now apply Nat.leb_le; lia).
    replace (i <? 0 + M) with true by (symmetry; apply Nat.ltb_lt; lia).
    simpl. now rewrite nth_repeat_0.
Qed.

End Node.

End PxwiseLoops.

(** ** Finite sums of reals *)

Module RSum.
Import Closed.

Lemma fold_acc (g : nat -> R) (n : nat) (a : R) :
  fold_left (fun acc j => (acc + g j)%R) (seq 0 n) a = (a + rsum g n)%R.
Proof.
  induction n as [|n IH]; [simpl; lra|].
  rewrite seq_S, fold_left_app, IH. simpl. lra.
Qed.

Lemma fold_map (f : nat -> R) (l : list nat) (a : R) :
  fold_left Rplus (map f l) a = fold_left (fun acc j => (acc + f j)%R) l a.
Proof.
  revert a; induction l as [|x l IH]; intros a; simpl; auto.
Qed.

Lemma sum_map_seq (f : nat -> R) (n : nat) :
  Np.sum (map f (seq 0 n)) = rsum f n.
Proof.
  unfold Np.sum. rewrite fold_map, fold_acc. lra.
Qed.

Lemma rsum_ext (f g : nat -> R) (n : nat) :
  (forall k, k < n -> f k = g k) -> rsum f n = rsum g n.
Proof.
  induction n as [|n IH]; intros H; simpl; [reflexivity|].
  rewrite IH, H; auto.
Qed.

Lemma rsum_mult_r (f : nat -> R) (c : R) (n : nat) :
  (rsum f n * c)%R = rsum (fun k => (f k * c)%R) n.
Proof.
  induction n as [|n IH]; simpl; [lra|]. rewrite <- IH. lra.
Qed.

Lemma rsum_mult_l (f : nat -> R) (c : R) (n : nat) :
  (c * rsum f n)%R = rsum (fun k => (c * f k)%R) n.
Proof.
  induction n as [|n IH]; simpl; [lra|]. rewrite <- IH. lra.
Qed.

Lemma rsum_plus (f g : nat -> R) (n : nat) :
  rsum (fun k => (f k + g k)%R) n = (rsum f n + rsum g n)%R.
Proof.
  induction n as [|n IH]; simpl; [lra|]. rewrite IH. lra.
Qed.

Lemma rsum_swap (f : nat -> nat -> R) (n m : nat) :
  rsum (fun i => rsum (fun j => f i j) m) n
  = rsum (fun j => rsum (fun i => f i j) n) m.
Proof.
  induction n as [|n IH]; simpl.
  - induction m as [|m IHm]; simpl; [reflexivity|]. rewrite <- IHm. lra.
  - rewrite IH. now rewrite <- rsum_plus.
Qed.

Lemma rsum_shift (f : nat -> R) (a n : nat) :
  rsum f (a + n) = (rsum f a + rsum (fun i => f (a + i)%nat) n)%R.
Proof.
  induction n as [|n IH]; simpl.
  - rewrite Nat.add_0_r. lra.
  - rewrite Nat.add_succ_r. simpl. rewrite IH. lra.
Qed.

(** A sum over [P] blocks of [N] consecutive positions. *)
Lemma rsum_block (f : nat -> R) (P N : nat) :
  rsum f (P * N) = rsum (fun p => rsum (fun i => f (p * N + i)) N) P.
Proof.
  induction P as [|P IH]; simpl; [reflexivity|].
  rewrite <- IH. rewrite Nat.add_comm. apply rsum_shift.
Qed.

Lemma sum_perm (l l' : list R) : Permutation l l' -> Np.sum l = Np.sum l'.
Proof.
  unfold Np.sum.
  assert (H : forall l a, fold_left Rplus l a = (a + fold_right Rplus 0 l)%R).
  { clear. induction l as [|x l IH]; intros a; simpl; [lra|].
    rewrite IH. lra. }
  intros Hp. rewrite !H. f_equal.
  induction Hp; simpl; lra.
Qed.

End RSum.

(** ** Inner products *)

Module InnerFacts.
Import Np NpFacts WindowFacts RSum Closed.

Lemma inner_same (sh : list nat) (da db : list R) :
  length da = size sh -> length db = size sh ->
  inner (mk_ndarray sh da) (mk_ndarray sh db)
  = Ok (rsum (fun k => (nth k da 0 * nth k db 0)%R) (size sh)).
Proof.
  intros Ha Hb. unfold inner, as_view. simpl.
  rewrite binop_same by apply strides_length. simpl.
  pose proof (materialize_as_view (mk_ndarray sh da) Ha) as Hma.
  pose proof (materialize_as_view (mk_ndarray sh db) Hb) as Hmb.
  unfold as_view in Hma, Hmb. simpl in Hma, Hmb. rewrite Hma, Hmb.
  rewrite map2_nth by lia. rewrite Ha.
  now rewrite sum_map_seq.
Qed.

End InnerFacts.

(** ** The adjoint identity *)

Module AdjointFacts.
Import Np NpFacts WindowFacts RSum InnerFacts PxwiseLoops PermuteFacts Closed.

Lemma all_equal_refl (s : list nat) : Pxwise.all_equal s s = true.
Proof.
  unfold Pxwise.all_equal. rewrite Nat.eqb_refl.
  induction s as [|a s IH]; simpl; [reflexivity|].
  now rewrite Nat.eqb_refl, IH.
Qed.

Lemma init_matching (lead : list nat) (N M M' : nat) (Ad : list R)
      (nb : option R) :
  Pxwise.init (mk_ndarray (lead ++ [N; M]) Ad) (lead ++ [M']) nb
  = Ok (Pxwise.mk_node (mk_ndarray (lead ++ [N; M]) Ad) nb
          (LinOp.init [lead ++ [M']] (lead ++ [N]))).
Proof.
  unfold Pxwise.init. simpl.
  now rewrite drop_last_2, drop_last_1, drop_last_1_2, all_equal_refl.
Qed.

(** One pixel: [(A x) . y = x . (A^T y)], with every sum accumulated from
    0 as the loops do. *)
Lemma pixel_identity (a : nat -> nat -> R) (x y : nat -> R) (N M : nat) :
  rsum (fun i => ((0 + rsum (fun j => a i j * x j) M) * y i)%R) N
  = rsum (fun j => (x j * (0 + rsum (fun i => a i j * y i) N))%R) M.
Proof.
  rewrite (rsum_ext _ (fun i => rsum (fun j => (a i j * x j * y i)%R) M)).
  2:{ intros i _. rewrite Rplus_0_l. apply rsum_mult_r. }
  rewrite (rsum_ext (fun j => (x j * (0 + rsum (fun i => a i j * y i) N))%R)
                    (fun j => rsum (fun i => (a i j * x j * y i)%R) N)).
  2:{ intros j _. rewrite Rplus_0_l, rsum_mult_l.
      apply rsum_ext. intros i _. lra. }
  apply rsum_swap.
Qed.

Lemma pxwise_identity (lead : list nat) (N M : nat) (Ad : list R)
      (nb : option R) (xd yd : list R) :
  length xd = size lead * M -> length yd = size lead * N ->
  exists t fx ay r,
    Pxwise.init (mk_ndarray (lead ++ [N; M]) Ad) (lead ++ [M]) nb = Ok t
    /\ Pxwise.forward t (mk_ndarray (lead ++ [M]) xd) = Ok fx
    /\ Pxwise.adjoint t (mk_ndarray (lead ++ [N]) yd) = Ok ay
    /\ (forall q i, q < size lead -> i < N ->
          nth (q * N + i) (data fx) 0%R
          = rsum (fun j => (Aget Ad N M q i j * xget xd M q j)%R) M)
    /\ (forall q i, q < size lead -> i < M ->
          nth (q * M + i) (data ay) 0%R
          = rsum (fun j => (Aget Ad N M q j i * xget yd N q j)%R) N)
    /\ inner fx (mk_ndarray (lead ++ [N]) yd) = Ok r
    /\ inner (mk_ndarray (lead ++ [M]) xd) ay = Ok r.
Proof.
  intros Hx Hy.
  destruct (forward_spec lead N M Ad nb (lead ++ [M]) xd) as (F & Hf & HF & HFn).
  destruct (adjoint_spec lead N M Ad nb (lead ++ [M]) yd eq_refl)
    as (G & Hg & HG & HGn).
  rewrite drop_last_1_2 in Hf, Hg.
  assert (HsN : size (lead ++ [N]) = size lead * N).
  { rewrite size_app. simpl. lia. }
  assert (HsM : size (lead ++ [M]) = size lead * M).
  { rewrite size_app. simpl. lia. }
  assert (HFr : forall q i, q < size lead -> i < N ->
            nth (q * N + i) F 0%R
            = rsum (fun j => (Aget Ad N M q i j * xget xd M q j)%R) M).
  { intros q i Hq Hi. rewrite (HFn q i Hq Hi), fold_acc. lra. }
  assert (HGr : forall q i, q < size lead -> i < M ->
            nth (q * M + i) G 0%R
            = rsum (fun j => (Aget Ad N M q j i * xget yd N q j)%R) N).
  { intros q i Hq Hi. rewrite (HGn q i Hq Hi), fold_acc. lra. }
  eexists. exists (mk_ndarray (lead ++ [N]) F), (mk_ndarray (lead ++ [M]) G).
  eexists. split; [apply init_matching|].
  split; [exact Hf|]. split; [exact Hg|].
  split; [exact HFr|]. split; [exact HGr|].
  split.
  - rewrite inner_same by lia. reflexivity.
  - rewrite inner_same by lia. f_equal.
    rewrite HsN, HsM, !rsum_block.
    apply rsum_ext. intros q Hq.
    rewrite (rsum_ext _ (fun j => (xget xd M q j
               * (0 + rsum (fun i => Aget Ad N M q i j * xget yd N q i) N))%R)).
    2:{ intros j Hj. rewrite (HGr q j Hq Hj), Rplus_0_l.
        unfold xget. f_equal. f_equal. lia. }
    rewrite <- pixel_identity.
    apply rsum_ext. intros i Hi.
    rewrite (HFr q i Hq Hi), Rplus_0_l. unfold xget. f_equal. f_equal. lia.
Qed.

Lemma size_perm (l l' : list nat) : Permutation l l' -> size l = size l'.
Proof. induction 1; simpl; lia. Qed.

Lemma gather_perm (sh a : list nat) :
  Permutation a (seq 0 (length sh)) -> Permutation (gather sh a) sh.
Proof.
  intros Hp. rewrite <- (gather_seq sh) at 2.
  unfold gather. now apply Permutation_map.
Qed.

Lemma transpose_identity (sh a : list nat) (x y : ndarray) :
  Permutation a (seq 0 (length sh)) ->
  shape x = sh -> wf x -> shape y = gather sh a -> wf y ->
  exists t fx ay r,
    Transpose.init sh a = Ok t
    /\ Transpose.forward t x = Ok fx
    /\ Transpose.adjoint t y = Ok ay
    /\ inner fx y = Ok r
    /\ inner x ay = Ok r.
Proof.
  intros Hpa Hsx Hwx Hsy Hwy.
  destruct (TransposeFacts.init_perm sh a Hpa)
    as (inv & Hinit & Hli & Hleft & Hright & Hpi).
  assert (Hla : length a = length sh).
  { rewrite (Permutation_length Hpa). apply length_seq. }
  assert (Hshape : gather (gather sh a) inv = sh).
  { apply gather_gather_inv; auto. intros m Hm.
    assert (Hin : In (nth m inv 0) inv) by (apply nth_In; lia).
    apply (Permutation_in _ Hpi), in_seq in Hin. lia. }
  assert (Hsize : size (gather sh a) = size sh).
  { apply size_perm. now apply gather_perm. }
  destruct x as [shx xd], y as [shy yd]. unfold wf in *. simpl in *. subst shx shy.
  set (x := mk_ndarray sh xd). set (y := mk_ndarray (gather sh a) yd).
  exists (Transpose.mk_node a inv (LinOp.init [sh] (gather sh a))).
  exists (permuted x a), (permuted y inv).
  eexists. split; [exact Hinit|].
  split; [now apply TransposeSpec.forward_perm|].
  split; [now apply TransposeSpec.adjoint_perm|].
  (* positions: [tau p] is where output position [p] of the adjoint reads *)
  set (tau := fun p => offset (nth p (indices sh) [])
                              (gather (strides (gather sh a)) inv)).
  set (g := fun k => (nth k (data (permuted x a)) 0 * nth k yd 0)%R).
  assert (Hidx : forall p, p < size sh ->
            Forall2 lt (nth p (indices sh) []) sh
            /\ offset (nth p (indices sh) []) (strides sh) = p).
  { intros p Hp. split.
    - apply In_indices, nth_In. now rewrite indices_length.
    - rewrite <- (nth_map_in (fun idx => offset idx (strides sh)) _ _ [] 0)
        by now rewrite indices_length.
      rewrite indices_offset. now apply seq_nth. }
  assert (Htau : forall p, p < size sh ->
            tau p < size sh
            /\ nth (tau p) (data (permuted x a)) 0%R = nth p xd 0%R).
  { intros p Hp. destruct (Hidx p Hp) as (Hv & Hoff).
    destruct (perm_index sh a inv _ Hpa Hli Hleft Hv) as (HA & HB & HC).
    unfold tau. rewrite HA. split.
    - rewrite <- Hsize. now apply offset_lt.
    - pose proof (permuted_at x a _ HB) as Hat.
      change (shape x) with sh in Hat. change (data x) with xd in Hat.
      rewrite Hat, HC, Hoff. reflexivity. }
  assert (Hperm : Permutation (map tau (seq 0 (size sh))) (seq 0 (size sh))).
  { apply NoDup_Permutation_bis.
    - apply AccumulateFacts.NoDup_map_inj_in; [|apply seq_NoDup].
      intros p p' Hp Hp' Heq. apply in_seq in Hp, Hp'.
      destruct (Hidx p) as (Hv & Hoff); [lia|].
      destruct (Hidx p') as (Hv' & Hoff'); [lia|].
      destruct (perm_index sh a inv _ Hpa Hli Hleft Hv) as (HA & HB & HC).
      destruct (perm_index sh a inv _ Hpa Hli Hleft Hv') as (HA' & HB' & HC').
      unfold tau in Heq. rewrite HA, HA' in Heq.
      assert (Hg : gather (nth p (indices sh) []) a
                   = gather (nth p' (indices sh) []) a).
      { rewrite <- (nth_indices_offset _ _ HB), <- (nth_indices_offset _ _ HB').
        now rewrite Heq. }
      rewrite <- Hoff, <- Hoff', <- HC, <- HC', Hg. reflexivity.
    - now rewrite length_map.
    - intros k Hk. apply in_map_iff in Hk as (p & <- & Hp).
      apply in_seq in Hp. apply in_seq. destruct (Htau p) as [Hlt _]; lia. }
  split.
  - unfold y. replace (permuted x a)
      with (mk_ndarray (gather sh a) (data (permuted x a))) by reflexivity.
    rewrite inner_same; [reflexivity| |assumption].
    unfold permuted. simpl. now rewrite length_map, indices_length.
  - unfold x. replace (permuted y inv)
      with (mk_ndarray sh (data (permuted y inv)))
      by (unfold permuted; simpl; now rewrite Hshape).
    rewrite inner_same; [|assumption|].
    2:{ unfold permuted. simpl. now rewrite length_map, Hshape, indices_length. }
    f_equal. rewrite Hsize.
    rewrite (rsum_ext _ (fun p => g (tau p))).
    + rewrite <- !sum_map_seq.
      rewrite <- (map_map tau g). apply sum_perm.
      apply Permutation_map. now apply Permutation_sym.
    + intros p Hp. destruct (Htau p Hp) as [Hlt Hval].
      unfold g. rewrite Hval. f_equal.
      unfold permuted. simpl. rewrite Hshape.
      rewrite (nth_map_in _ _ _ []) by now rewrite indices_length.
      reflexivity.
Qed.

End AdjointFacts.

(** C4. For every [pxwise_matrixmult] node whose input has the shape
    [K1 x ... x Kn x M], [forward] computes
    [y[pixel,i] = sum_j A[pixel,i,j]*x[pixel,j]], [adjoint] computes
    [x[pixel,i] = sum_j A[pixel,j,i]*y[pixel,j]], and
    [<forward(x), y> == <x, adjoint(y)>] for [x] of the input shape and [y]
    of the output shape; the same identity holds for every [transpose]
    node.  Sums and products are those of the reals. *)
Theorem adjoint_identity :
  (forall (lead : list nat) (N M : nat) (Ad : list R) (nb : option R)
          (xd yd : list R),
      length xd = Np.size lead * M -> length yd = Np.size lead * N ->
      exists t fx ay r,
        Pxwise.init (Np.mk_ndarray (lead ++ [N; M]) Ad) (lead ++ [M]) nb = Ok t
        /\ Pxwise.forward t (Np.mk_ndarray (lead ++ [M]) xd) = Ok fx
        /\ Pxwise.adjoint t (Np.mk_ndarray (lead ++ [N]) yd) = Ok ay
        /\ (forall q i, q < Np.size lead -> i < N ->
              nth (q * N + i) (Np.data fx) 0%R
              = Closed.rsum (fun j => (Closed.Aget Ad N M q i j
                                       * Closed.xget xd M q j)%R) M)
        /\ (forall q i, q < Np.size lead -> i < M ->
              nth (q * M + i) (Np.data ay) 0%R
              = Closed.rsum (fun j => (Closed.Aget Ad N M q j i
                                       * Closed.xget yd N q j)%R) N)
        /\ Np.inner fx (Np.mk_ndarray (lead ++ [N]) yd) = Ok r
        /\ Np.inner (Np.mk_ndarray (lead ++ [M]) xd) ay = Ok r)
  /\
  (forall (sh axes : list nat) (x y : Np.ndarray),
      Permutation axes (seq 0 (length sh)) ->
      Np.shape x = sh -> Np.wf x -> Np.shape y = gather sh axes -> Np.wf y ->
      exists t fx ay r,
        Transpose.init sh axes = Ok t
        /\ Transpose.forward t x = Ok fx
        /\ Transpose.adjoint t y = Ok ay
        /\ Np.inner fx y = Ok r
        /\ Np.inner x ay = Ok r).
Proof.
  split.
  - exact AdjointFacts.pxwise_identity.
  - exact AdjointFacts.transpose_identity.
Qed.

Lemma adjoint_identity_witness :
  (exists t fx ay r,
      Pxwise.init (Np.mk_ndarray ([1] ++ [2; 2]) [2; 0; 0; 3]%R) ([1] ++ [2]) None
      = Ok t
      /\ Pxwise.forward t (Np.mk_ndarray ([1] ++ [2]) [1; 1]%R) = Ok fx
      /\ Pxwise.adjoint t (Np.mk_ndarray ([1] ++ [2]) [1; 1]%R) = Ok ay
      /\ (forall q i, q < Np.size [1] -> i < 2 ->
            nth (q * 2 + i) (Np.data fx) 0%R
            = Closed.rsum (fun j => (Closed.Aget [2; 0; 0; 3] 2 2 q i j
                                     * Closed.xget [1; 1] 2 q j)%R) 2)
      /\ (forall q i, q < Np.size [1] -> i < 2 ->
            nth (q * 2 + i) (Np.data ay) 0%R
            = Closed.rsum (fun j => (Closed.Aget [2; 0; 0; 3] 2 2 q j i
                                     * Closed.xget [1; 1] 2 q j)%R) 2)
      /\ Np.inner fx (Np.mk_ndarray ([1] ++ [2]) [1; 1]%R) = Ok r
      /\ Np.inner (Np.mk_ndarray ([1] ++ [2]) [1; 1]%R) ay = Ok r)
  /\
  (exists t fx ay r,
      Transpose.init [2; 3] [1; 0] = Ok t
      /\ Transpose.forward t (Np.mk_ndarray [2; 3] [1; 2; 3; 4; 5; 6]%R) = Ok fx
      /\ Transpose.adjoint t (Np.mk_ndarray [3; 2] [6; 5; 4; 3; 2; 1]%R) = Ok ay
      /\ Np.inner fx (Np.mk_ndarray [3; 2] [6; 5; 4; 3; 2; 1]%R) = Ok r
      /\ Np.inner (Np.mk_ndarray [2; 3] [1; 2; 3; 4; 5; 6]%R) ay = Ok r).
Proof.
  split.
  - apply (proj1 adjoint_identity [1] 2 2 [2; 0; 0; 3]%R None [1; 1]%R [1; 1]%R);
      reflexivity.
  - apply (proj2 adjoint_identity [2; 3] [1; 0]
             (Np.mk_ndarray [2; 3] [1; 2; 3; 4; 5; 6]%R)
             (Np.mk_ndarray [3; 2] [6; 5; 4; 3; 2; 1]%R)).
    + simpl. apply perm_swap.
    + reflexivity.
    + reflexivity.
    + reflexivity.
    + reflexivity.
Defined.

(** ** [pxwise_matrixmult.__init__] *)

Module PxwiseInitFacts.

Lemma all_equal_differ (s1 s2 : list nat) :
  length s1 = length s2 -> s1 <> s2 -> Pxwise.all_equal s1 s2 = false.
Proof.
  intros Hl Hne. unfold Pxwise.all_equal.
  apply Nat.eqb_eq in Hl as Hl'. rewrite Hl'. clear Hl'.
  revert s2 Hl Hne. induction s1 as [|a s1 IH]; intros [|b s2] Hl Hne;
    simpl in *; try discriminate; [congruence|].
  destruct (Nat.eqb_spec a b) as [->|Hab]; simpl; [|reflexivity].
  apply IH; [lia|]. intros ->. now apply Hne.
Qed.

End PxwiseInitFacts.

(** C7 as stated fails: an input whose trailing dimension differs from [M]
    is accepted.  Here [A] is a single 2 x 2 matrix ([K] empty, [M = 2]) and
    the input has shape [(3,)]. *)
Lemma pxwise_init_accepts_wrong_M :
  [3] <> drop_last 2 [2; 2] ++ [2]
  /\ exists t,
       Pxwise.init (Np.mk_ndarray [2; 2] [1; 0; 0; 1]%R) [3] None = Ok t.
Proof.
  split; [discriminate|]. eexists. reflexivity.
Qed.

(** C7, amended.  [__init__] compares the leading dimensions only: it fails
    with an assertion error when the input has as many leading dimensions as
    [A] and they differ from [K1 x ... x Kn]; it succeeds whenever they are
    equal, whatever the trailing dimension of the input, and the node's shape
    is then [K1 x ... x Kn x N]. *)
Theorem pxwise_init_checks_leading (lead : list nat) (N M : nat) (Ad : list R)
        (nb : option R) (arg_shape : list nat) :
  (length (drop_last 1 arg_shape) = length lead ->
   drop_last 1 arg_shape <> lead ->
   Pxwise.init (Np.mk_ndarray (lead ++ [N; M]) Ad) arg_shape nb
   = Raise AssertionError)
  /\
  (drop_last 1 arg_shape = lead ->
   exists t,
     Pxwise.init (Np.mk_ndarray (lead ++ [N; M]) Ad) arg_shape nb = Ok t
     /\ Pxwise.shape t = lead ++ [N]
     /\ Pxwise.arg_shape t = arg_shape).
Proof.
  unfold Pxwise.init. simpl. rewrite PxwiseLoops.drop_last_2. split.
  - intros Hl Hne.
    rewrite PxwiseInitFacts.all_equal_differ; auto.
  - intros ->. rewrite AdjointFacts.all_equal_refl.
    eexists. split; [reflexivity|]. split; [|reflexivity].
    unfold Pxwise.shape. simpl. apply PxwiseLoops.drop_last_1_2.
Qed.

Lemma pxwise_init_checks_leading_witness :
  Pxwise.init (Np.mk_ndarray ([4; 5] ++ [2; 3]) []) [4; 6; 3] None
  = Raise AssertionError
  /\ exists t,
       Pxwise.init (Np.mk_ndarray ([4; 5] ++ [2; 3]) []) [4; 5; 7] None = Ok t
       /\ Pxwise.shape t = [4; 5] ++ [2]
       /\ Pxwise.arg_shape t = [4; 5; 7].
Proof.
  split.
  - apply (proj1 (pxwise_init_checks_leading [4; 5] 2 3 [] None [4; 6; 3])).
    + reflexivity.
    + discriminate.
  - apply (proj2 (pxwise_init_checks_leading [4; 5] 2 3 [] None [4; 5; 7])).
    reflexivity.
Defined.

(** ** [pxwise_matrixmult.norm_bound] *)

Module NormBoundFacts.
Import Closed.
Local Open Scope R_scope.

Lemma closed_2x2_scalar (p q r s : R) :
  s = p -> q = 0 -> r = 0 -> 0 <= p -> closed_2x2 p q r s = p.
Proof.
  intros -> -> -> Hp. unfold closed_2x2.
  replace ((p + p) ^ 2 - 4 * (p * p - 0 * 0)) with 0 by ring.
  rewrite (Rmax_left 0 0) by lra. rewrite sqrt_0.
  replace ((p + p + 0) * / 2) with p by lra.
  replace ((p + p - 0) * / 2) with p by lra.
  rewrite (Rmax_left p p) by lra.
  unfold Pxwise.py_max. destruct (Rlt_dec p 0); [lra|reflexivity].
Qed.

(** The identity matrix: [ATA = I]. *)
Lemma bound_identity (base : LinOp.t) :
  Pxwise.computed_bound (Pxwise.mk_node (one_pixel 2 2 [1; 0; 0; 1]) None base)
  = Ok 1.
Proof.
  change (Ok (closed_2x2 (0 + 1 * 1 + 0 * 0) (0 + 1 * 0 + 0 * 1)
                         (0 + 0 * 1 + 1 * 0) (0 + 0 * 0 + 1 * 1)) = Ok 1).
  f_equal. rewrite closed_2x2_scalar; lra.
Qed.

(** Half the identity: [ATA = I/4]. *)
Lemma bound_half_identity (base : LinOp.t) :
  Pxwise.computed_bound
    (Pxwise.mk_node (one_pixel 2 2 [/ 2; 0; 0; / 2]) None base)
  = Ok (/ 4).
Proof.
  change (Ok (closed_2x2 (0 + / 2 * / 2 + 0 * 0) (0 + / 2 * 0 + 0 * / 2)
                         (0 + 0 * / 2 + / 2 * 0) (0 + 0 * 0 + / 2 * / 2))
          = Ok (/ 4)).
  f_equal. rewrite closed_2x2_scalar; lra.
Qed.

(** Two rows, three columns, only the third column occupied: the four
    inspected entries of the 3 x 3 matrix [ATA] are all 0. *)
Lemma bound_wide (base : LinOp.t) :
  Pxwise.computed_bound
    (Pxwise.mk_node (one_pixel 2 3 [0; 0; 1; 0; 0; 1]) None base)
  = Ok 0.
Proof.
  change (Ok (closed_2x2 (0 + 0 * 0 + 0 * 0) (0 + 0 * 0 + 0 * 0)
                         (0 + 0 * 0 + 0 * 0) (0 + 0 * 0 + 0 * 0)) = Ok 0).
  f_equal. rewrite closed_2x2_scalar; lra.
Qed.

(** Three rows, two columns: [ATA] is 2 x 2, yet the branch is refused. *)
Lemma bound_tall (base : LinOp.t) :
  Pxwise.computed_bound
    (Pxwise.mk_node (one_pixel 3 2 [1; 0; 0; 1; 0; 0]) None base)
  = Raise TypeError.
Proof. reflexivity. Qed.

Lemma sqrt_quarter : sqrt (/ 4) = / 2.
Proof.
  replace (/ 4) with (Rsqr (/ 2)) by (unfold Rsqr; lra).
  apply sqrt_Rsqr. lra.
Qed.

End NormBoundFacts.

(** C3 (the code departs from the claim).  For a single 2 x 2 matrix
    [norm_bound] returns the largest eigenvalue of [ATA] times
    [input_mags[0]], without a square root: [A = I/2] gives [1/4], not
    [sqrt(1/4) = 1/2], although [forward] maps the unit vector [(1, 0)] to
    [(1/2, 0)].  The example of the claim, [A = I], gives 1 because
    [sqrt 1 = 1].  The closed form is selected by the number of rows [N] of
    [A], not by the inner input dimension [M]: a 3 x 2 matrix ([M = 2]) is
    refused. *)
Theorem norm_bound_largest_eigenvalue :
  (t <- Pxwise.init (Np.mk_ndarray [2; 2] [/ 2; 0; 0; / 2]%R) [2] None ;;
   Pxwise.norm_bound t [1%R]) = Ok (/ 4 * 1)%R
  /\ (/ 4 * 1 <> sqrt (/ 4) * 1)%R
  /\ (exists y0 y1,
        (t <- Pxwise.init (Np.mk_ndarray [2; 2] [/ 2; 0; 0; / 2]%R) [2] None ;;
         Pxwise.forward t (Np.mk_ndarray [2] [1; 0]%R))
        = Ok (Np.mk_ndarray [2] [y0; y1])
        /\ (y0 = / 2 /\ y1 = 0 /\ / 4 * 1 < y0)%R)
  /\ (t <- Pxwise.init (Np.mk_ndarray [2; 2] [1; 0; 0; 1]%R) [2] None ;;
      Pxwise.norm_bound t [1%R]) = Ok (1 * 1)%R
  /\ (t <- Pxwise.init (Np.mk_ndarray [3; 2] [1; 0; 0; 1; 0; 0]%R) [2] None ;;
      Pxwise.norm_bound t [1%R]) = Raise TypeError.
Proof.
  split; [|split; [|split; [|split]]].
  - change (Pxwise.init (Np.mk_ndarray [2; 2] [/ 2; 0; 0; / 2]%R) [2] None)
      with (Ok (Pxwise.mk_node (Closed.one_pixel 2 2 [/ 2; 0; 0; / 2]%R)
                               None (LinOp.init [[2]] [2]))).
    unfold bind at 1. unfold Pxwise.norm_bound.
    cbn [Pxwise.normbound]. now rewrite NormBoundFacts.bound_half_identity.
  - rewrite NormBoundFacts.sqrt_quarter. lra.
  - cbv -[Rplus Rmult Rinv Rlt IZR]. eexists. eexists.
    split; [reflexivity|]. lra.
  - change (Pxwise.init (Np.mk_ndarray [2; 2] [1; 0; 0; 1]%R) [2] None)
      with (Ok (Pxwise.mk_node (Closed.one_pixel 2 2 [1; 0; 0; 1]%R)
                               None (LinOp.init [[2]] [2]))).
    unfold bind at 1. unfold Pxwise.norm_bound.
    cbn [Pxwise.normbound]. now rewrite NormBoundFacts.bound_identity.
  - reflexivity.
Qed.

(** C6 (the code departs from the claim).  With [normbound=None] and
    [M = 3] the 2 x 3 matrix [[0,0,1],[0,0,1]] is not refused: [norm_bound]
    inspects the upper-left 2 x 2 block of the 3 x 3 matrix [ATA] and
    returns 0.  With an override, [norm_bound] returns
    [normbound * input_mags[0]] for every node. *)
Theorem norm_bound_gate :
  (t <- Pxwise.init (Np.mk_ndarray [2; 3] [0; 0; 1; 0; 0; 1]%R) [3] None ;;
   Pxwise.norm_bound t [1%R]) = Ok (0 * 1)%R
  /\ forall (A : Np.ndarray) (nb : R) (base : LinOp.t) (m : R) (ms : list R),
       Pxwise.norm_bound (Pxwise.mk_node A (Some nb) base) (m :: ms)
       = Ok (nb * m)%R.
Proof.
  split.
  - change (Pxwise.init (Np.mk_ndarray [2; 3] [0; 0; 1; 0; 0; 1]%R) [3] None)
      with (Ok (Pxwise.mk_node
                  (Closed.one_pixel 2 3 [0; 0; 1; 0; 0; 1]%R)
                  None (LinOp.init [[3]] [2]))).
    unfold bind at 1. unfold Pxwise.norm_bound.
    cbn [Pxwise.normbound]. now rewrite NormBoundFacts.bound_wide.
  - intros. reflexivity.
Qed.

(** ** [ProxFn.prox] *)

Module ProxFacts.
Import Np NpFacts WindowFacts ProxFn Affine.
Local Open Scope R_scope.

Lemma store_same (h : heap) (l : loc) (a : ndarray) : store h l a l = a.
Proof. unfold store. now rewrite Nat.eqb_refl. Qed.

Lemma store_other (h : heap) (l l' : loc) (a : ndarray) :
  l' <> l -> store h l a l' = h l'.
Proof.
  intros Hne. unfold store. now destruct (Nat.eqb_spec l' l).
Qed.

(** [a (op)= b] for [b] of the shape of [a]. *)
Lemma iop_same (f : R -> R -> R) (a b : ndarray) :
  shape b = shape a -> wf b ->
  iop f a (as_view b) = Ok (mk_ndarray (shape a) (map2 f (data a) (data b))).
Proof.
  intros Hs Hw. unfold iop.
  pose proof (materialize_as_view b Hw) as Hm.
  unfold as_view in *. rewrite Hs in *.
  rewrite broadcast_to_same by apply strides_length. simpl.
  now rewrite Hm.
Qed.

Lemma v_hat_steps (vd cd bd : list R) (rho s : R) :
  length cd = length vd -> length bd = length vd ->
  map2 Rminus (map (fun x => x * s) (map2 Rminus (map (fun x => x * rho) vd) cd)) bd
  = map (fun k => (nth k vd 0 * rho - nth k cd 0) * s - nth k bd 0)
        (seq 0 (length vd)).
Proof.
  intros Hc Hb.
  assert (H1 : length (map2 Rminus (map (fun x => x * rho) vd) cd) = length vd).
  { rewrite map2_length; rewrite length_map; lia. }
  rewrite map2_nth by (rewrite length_map; lia).
  rewrite length_map, H1.
  apply map_ext_in. intros k Hk. apply in_seq in Hk. f_equal.
  rewrite (nth_map_in _ _ _ 0) by lia. f_equal.
  rewrite map2_nth by (rewrite length_map; lia).
  rewrite length_map.
  rewrite (nth_map_in _ _ _ 0%nat) by (rewrite length_seq; lia).
  rewrite seq_nth by lia. simpl.
  now rewrite (nth_map_in _ _ _ 0) by lia.
Qed.

Lemma x_out_steps (xd bd : list R) (be : R) :
  length bd = length xd ->
  map (fun x => x / be) (map2 Rplus xd bd)
  = map (fun k => (nth k xd 0 + nth k bd 0) / be) (seq 0 (length xd)).
Proof.
  intros Hb. rewrite map2_nth by lia. now rewrite map_map.
Qed.

Section Divisions.
Context {atom : Atom}.
Variables (self : t) (rho : R) (v : loc) (h : heap).
Hypothesis Hden1 : alpha self * beta self ^ 2 <> 0.
Hypothesis Hden2 : rho + 2 * gamma self <> 0.
Hypothesis Hv : shape (h v) = lin_op_shape self.
Hypothesis Hvw : wf (h v).
Hypothesis Hb : shape (b self) = lin_op_shape self.
Hypothesis Hbw : wf (b self).
Hypothesis Hc : shape (c self) = lin_op_shape self.
Hypothesis Hcw : wf (c self).

(** One run of [prox] whose two divisions are defined: the store the core
    operator is called on, and the store it leaves behind. *)
Lemma prox_run_nz :
  exists h_hat,
    h_hat v = mk_ndarray (lin_op_shape self) (v_hat self rho (data (h v)))
    /\ (forall l, l <> v -> h_hat l = h l)
    /\ (forall e, _prox self (rho_hat self rho) v h_hat = Raise e ->
                  prox self rho v h = Raise e)
    /\ (forall xhat h',
           _prox self (rho_hat self rho) v h_hat = Ok (xhat, h') ->
           shape (h' xhat) = lin_op_shape self -> wf (h' xhat) ->
           exists h_out,
             prox self rho v h = Ok (xhat, h_out)
             /\ h_out xhat
                = mk_ndarray (lin_op_shape self) (x_out self (data (h' xhat)))
             /\ (forall l, l <> xhat -> h_out l = h' l)).
Proof.
  assert (Hlen : forall a, shape a = lin_op_shape self -> wf a ->
                           length (data a) = size (lin_op_shape self)).
  { intros a Hs Hw. unfold wf in Hw. now rewrite Hw, Hs. }
  unfold prox, py_div.
  destruct (Req_dec_T (alpha self * beta self ^ 2) 0) as [E|_]; [contradiction|].
  destruct (Req_dec_T (rho + 2 * gamma self) 0) as [E|_]; [contradiction|].
  cbn [bind]. rewrite !store_same.
  rewrite iop_same by (simpl; auto; congruence). cbn [bind shape data sop].
  rewrite !store_same. cbn [shape data sop].
  rewrite iop_same by (simpl; auto; congruence). cbn [bind shape data sop].
  rewrite v_hat_steps by (rewrite !Hlen; auto).
  fold (v_hat self rho (data (h v))). rewrite Hv.
  fold (rho_hat self rho).
  match goal with
  | |- context [_prox self (rho_hat self rho) v ?hh] => exists hh
  end.
  split; [apply store_same|].
  split; [intros l Hl; now rewrite !store_other by assumption|].
  split.
  - intros e He. now rewrite He.
  - intros xhat h' Hrun Hx Hxw. rewrite Hrun. cbn [bind].
    rewrite iop_same by (auto; congruence). cbn [bind shape data sop].
    rewrite !store_same.
    eexists. split; [reflexivity|]. split.
    + rewrite store_same. unfold sop. cbn [shape data].
      rewrite x_out_steps by (rewrite !Hlen; auto).
      now rewrite Hx.
    + intros l Hl. now rewrite !store_other by assumption.
Qed.

End Divisions.

Section Run.
Context {atom : Atom}.
Variables (self : t) (rho : R) (v : loc) (h : heap).
Hypothesis Halpha : 0 < alpha self.
Hypothesis Hbeta : beta self <> 0.
Hypothesis Hgamma : 0 <= gamma self.
Hypothesis Hrho : 0 < rho.
Hypothesis Hv : shape (h v) = lin_op_shape self.
Hypothesis Hvw : wf (h v).
Hypothesis Hb : shape (b self) = lin_op_shape self.
Hypothesis Hbw : wf (b self).
Hypothesis Hc : shape (c self) = lin_op_shape self.
Hypothesis Hcw : wf (c self).

(** One run of [prox]: the store the core operator is called on, and
    the store it leaves behind. *)
Lemma prox_run :
  exists h_hat,
    h_hat v = mk_ndarray (lin_op_shape self) (v_hat self rho (data (h v)))
    /\ (forall l, l <> v -> h_hat l = h l)
    /\ (forall e, _prox self (rho_hat self rho) v h_hat = Raise e ->
                  prox self rho v h = Raise e)
    /\ (forall xhat h',
           _prox self (rho_hat self rho) v h_hat = Ok (xhat, h') ->
           shape (h' xhat) = lin_op_shape self -> wf (h' xhat) ->
           exists h_out,
             prox self rho v h = Ok (xhat, h_out)
             /\ h_out xhat
                = mk_ndarray (lin_op_shape self) (x_out self (data (h' xhat)))
             /\ (forall l, l <> xhat -> h_out l = h' l)).
Proof.
  assert (Hden1 : alpha self * beta self ^ 2 <> 0).
  { assert (0 < beta self ^ 2) by (simpl; nra). nra. }
  assert (Hden2 : rho + 2 * gamma self <> 0) by lra.
  assert (Hlen : forall a, shape a = lin_op_shape self -> wf a ->
                           length (data a) = size (lin_op_shape self)).
  { intros a Hs Hw. unfold wf in Hw. now rewrite Hw, Hs. }
  unfold prox, py_div.
  destruct (Req_dec_T (alpha self * beta self ^ 2) 0) as [E|_]; [contradiction|].
  destruct (Req_dec_T (rho + 2 * gamma self) 0) as [E|_]; [contradiction|].
  cbn [bind]. rewrite !store_same.
  rewrite iop_same by (simpl; auto; congruence). cbn [bind shape data sop].
  rewrite !store_same. cbn [shape data sop].
  rewrite iop_same by (simpl; auto; congruence). cbn [bind shape data sop].
  rewrite v_hat_steps by (rewrite !Hlen; auto).
  fold (v_hat self rho (data (h v))). rewrite Hv.
  fold (rho_hat self rho).
  match goal with
  | |- context [_prox self (rho_hat self rho) v ?hh] => exists hh
  end.
  split; [apply store_same|].
  split; [intros l Hl; now rewrite !store_other by assumption|].
  split.
  - intros e He. now rewrite He.
  - intros xhat h' Hrun Hx Hxw. rewrite Hrun. cbn [bind].
    rewrite iop_same by (auto; congruence). cbn [bind shape data sop].
    rewrite !store_same.
    eexists. split; [reflexivity|]. split.
    + rewrite store_same. unfold sop. cbn [shape data].
      rewrite x_out_steps by (rewrite !Hlen; auto).
      now rewrite Hx.
    + intros l Hl. now rewrite !store_other by assumption.
Qed.

End Run.

End ProxFacts.

(** C1. For [alpha > 0], [beta <> 0], [gamma >= 0], [rho > 0] and [v] of
    the operator's shape, [prox(rho, v)] calls the core operator [_prox] on
    [rho_hat = (rho + 2*gamma)/(alpha*beta^2)] and on [v] holding
    [v_hat = ((v*rho) - c)*(beta/(rho + 2*gamma)) - b], and returns the
    array [x_hat] that [_prox] returned, holding [(x_hat + b)/beta]. *)
Theorem prox_affine_reduction {atom : ProxFn.Atom} (self : ProxFn.t) (rho : R)
        (v : ProxFn.loc) (h : ProxFn.heap) :
  (0 < ProxFn.alpha self)%R -> ProxFn.beta self <> 0%R ->
  (0 <= ProxFn.gamma self)%R -> (0 < rho)%R ->
  Np.shape (h v) = ProxFn.lin_op_shape self -> Np.wf (h v) ->
  Np.shape (ProxFn.b self) = ProxFn.lin_op_shape self -> Np.wf (ProxFn.b self) ->
  Np.shape (ProxFn.c self) = ProxFn.lin_op_shape self -> Np.wf (ProxFn.c self) ->
  exists h_hat,
    h_hat v = Np.mk_ndarray (ProxFn.lin_op_shape self)
                            (Affine.v_hat self rho (Np.data (h v)))
    /\ (forall l, l <> v -> h_hat l = h l)
    /\ forall xhat h',
         ProxFn._prox self (Affine.rho_hat self rho) v h_hat = Ok (xhat, h') ->
         Np.shape (h' xhat) = ProxFn.lin_op_shape self -> Np.wf (h' xhat) ->
         exists h_out,
           ProxFn.prox self rho v h = Ok (xhat, h_out)
           /\ h_out xhat
              = Np.mk_ndarray (ProxFn.lin_op_shape self)
                              (Affine.x_out self (Np.data (h' xhat))).
Proof.
  intros Ha Hbe Hg Hr Hv Hvw Hb Hbw Hc Hcw.
  destruct (ProxFacts.prox_run self rho v h Ha Hbe Hg Hr Hv Hvw Hb Hbw Hc Hcw)
    as (h_hat & Hhat & Hrest & _ & Hok).
  exists h_hat. split; [exact Hhat|]. split; [exact Hrest|].
  intros xhat h' Hrun Hx Hxw.
  destruct (Hok xhat h' Hrun Hx Hxw) as (h_out & Hp & Hout & _).
  exists h_out. split; assumption.
Qed.

Lemma prox_affine_reduction_witness :
  exists h_hat,
    h_hat 0 = Np.mk_ndarray [2] (Affine.v_hat Examples.doubled 3
                                   (Np.data (Examples.heap0 0)))
    /\ (forall l, l <> 0 -> h_hat l = Examples.heap0 l)
    /\ forall xhat h',
         ProxFn._prox (Atom := Examples.copy_atom) Examples.doubled
                      (Affine.rho_hat Examples.doubled 3) 0 h_hat
         = Ok (xhat, h') ->
         Np.shape (h' xhat) = [2] -> Np.wf (h' xhat) ->
         exists h_out,
           ProxFn.prox (atom := Examples.copy_atom) Examples.doubled 3 0
                       Examples.heap0 = Ok (xhat, h_out)
           /\ h_out xhat
              = Np.mk_ndarray [2] (Affine.x_out Examples.doubled
                                                   (Np.data (h' xhat))).
Proof.
  apply (prox_affine_reduction (atom := Examples.copy_atom)
           Examples.doubled 3 0 Examples.heap0); simpl;
    try reflexivity; lra.
Defined.

(** C9 as stated fails: after a completed call [v] may hold its original
    contents again.  For the wrapper [f(x - b)] with [b = (1, 1)], for
    [rho = 2] and a core operator that works in place and returns its
    argument, the array [v = (1, 2)] is overwritten with
    [v_hat = (0, 1)], handed to [_prox], returned, and holds
    [(x_hat + b)/beta = (1, 2)] when [prox] returns. *)
Lemma prox_restores_v :
  Examples.heap0 0 = Np.mk_ndarray [2] [1; 2]%R
  /\ nth 0 (Affine.v_hat Examples.shifted 2 (Np.data (Examples.heap0 0))) 0%R
     = 0%R
  /\ nth 1 (Affine.v_hat Examples.shifted 2 (Np.data (Examples.heap0 0))) 0%R
     = 1%R
  /\ exists h_out,
       ProxFn.prox (atom := Examples.inplace_atom) Examples.shifted 2 0
                   Examples.heap0 = Ok (0, h_out)
       /\ h_out 0 = Examples.heap0 0.
Proof.
  split; [reflexivity|].
  split; [simpl; field|]. split; [simpl; field|].
  assert (H1 : (ProxFn.alpha Examples.shifted
                * ProxFn.beta Examples.shifted ^ 2 <> 0)%R) by (simpl; lra).
  assert (H2 : (2 + 2 * ProxFn.gamma Examples.shifted <> 0)%R) by (simpl; lra).
  destruct (ProxFacts.prox_run_nz (atom := Examples.inplace_atom)
              Examples.shifted 2 0 Examples.heap0 H1 H2
              eq_refl eq_refl eq_refl eq_refl eq_refl eq_refl)
    as (h_hat & Hhat & _ & _ & Hok).
  destruct (Hok 0 h_hat eq_refl) as (h_out & Hp & Hout & _).
  { rewrite Hhat. reflexivity. }
  { rewrite Hhat. reflexivity. }
  exists h_out. split; [exact Hp|].
  rewrite Hout, Hhat. unfold Examples.heap0.
  cbv [Affine.x_out Affine.v_hat Np.data Examples.shifted ProxFn.b ProxFn.c
       ProxFn.beta ProxFn.gamma ProxFn.lin_op_shape Np.zeros Np.size
       fold_right Nat.mul Nat.add repeat length seq map nth].
  f_equal. f_equal; [field|]. f_equal. field.
Qed.

(** C9, amended.  When the two divisions of [prox(rho, v)] are defined
    ([alpha*beta^2 <> 0] and [rho + 2*gamma <> 0]), [v] has the operator's
    shape and [b] and [c] are stored at that shape, as the constructor
    leaves them, [prox] works on the caller's array: before the core
    operator is called only [v] has been written, the core operator
    receives [v] itself holding [v_hat], an exception of the core operator
    is passed on, and afterwards the store differs from the one [_prox]
    left only at the returned array.  So when [_prox] returns another array
    and leaves [v] alone, the caller finds [v_hat] in [v]; when [_prox]
    returns [v] itself, the caller finds [(x_hat + b)/beta] in [v].  That
    [prox] is not a pure function of its input buffer is shown by the
    instance given: [v] held (1, 2) before the call and holds (2, 4) after
    it. *)
Theorem prox_overwrites_v :
  (forall (atom : ProxFn.Atom) (self : ProxFn.t) (rho : R)
          (v : ProxFn.loc) (h : ProxFn.heap),
      (ProxFn.alpha self * ProxFn.beta self ^ 2 <> 0)%R ->
      (rho + 2 * ProxFn.gamma self <> 0)%R ->
      Np.shape (h v) = ProxFn.lin_op_shape self -> Np.wf (h v) ->
      Np.shape (ProxFn.b self) = ProxFn.lin_op_shape self ->
      Np.wf (ProxFn.b self) ->
      Np.shape (ProxFn.c self) = ProxFn.lin_op_shape self ->
      Np.wf (ProxFn.c self) ->
      exists h_hat,
        h_hat v = Np.mk_ndarray (ProxFn.lin_op_shape self)
                                (Affine.v_hat self rho (Np.data (h v)))
        /\ (forall l, l <> v -> h_hat l = h l)
        /\ (forall e,
              ProxFn._prox self (Affine.rho_hat self rho) v h_hat = Raise e ->
              ProxFn.prox self rho v h = Raise e)
        /\ forall xhat h',
             ProxFn._prox self (Affine.rho_hat self rho) v h_hat
             = Ok (xhat, h') ->
             Np.shape (h' xhat) = ProxFn.lin_op_shape self -> Np.wf (h' xhat) ->
             exists h_out,
               ProxFn.prox self rho v h = Ok (xhat, h_out)
               /\ (forall l, l <> xhat -> h_out l = h' l)
               /\ (xhat <> v -> h_out v = h' v)
               /\ (xhat <> v -> h' v = h_hat v ->
                   h_out v = Np.mk_ndarray (ProxFn.lin_op_shape self)
                               (Affine.v_hat self rho (Np.data (h v))))
               /\ (xhat = v ->
                   h_out v = Np.mk_ndarray (ProxFn.lin_op_shape self)
                               (Affine.x_out self (Np.data (h' v)))))
  /\
  (exists xhat h_out,
      ProxFn.prox (atom := Examples.copy_atom) Examples.doubled 3 0
                  Examples.heap0 = Ok (xhat, h_out)
      /\ Examples.heap0 0 = Np.mk_ndarray [2] [1; 2]%R
      /\ Np.shape (h_out 0) = [2]
      /\ nth 0 (Np.data (h_out 0)) 0%R = 2%R
      /\ nth 1 (Np.data (h_out 0)) 0%R = 4%R).
Proof.
  split.
  - intros atom self rho v h Hd1 Hd2 Hv Hvw Hb Hbw Hc Hcw.
    destruct (ProxFacts.prox_run_nz self rho v h Hd1 Hd2 Hv Hvw Hb Hbw Hc Hcw)
      as (h_hat & Hhat & Hrest & Herr & Hok).
    exists h_hat. split; [exact Hhat|]. split; [exact Hrest|].
    split; [exact Herr|].
    intros xhat h' Hrun Hx Hxw.
    destruct (Hok xhat h' Hrun Hx Hxw) as (h_out & Hp & Hout & Hframe).
    exists h_out. split; [exact Hp|]. split; [exact Hframe|]. repeat split.
    + intros Hne. apply Hframe. congruence.
    + intros Hne Hkeep. rewrite Hframe by congruence. now rewrite Hkeep.
    + intros ->. exact Hout.
  - assert (H3 : (0 < 3)%R) by lra.
    assert (H2 : ProxFn.beta Examples.doubled <> 0%R) by (simpl; lra).
    assert (H1 : (0 < ProxFn.alpha Examples.doubled)%R) by (simpl; lra).
    assert (H0 : (0 <= ProxFn.gamma Examples.doubled)%R) by (simpl; lra).
    destruct (ProxFacts.prox_run (atom := Examples.copy_atom)
                Examples.doubled 3 0 Examples.heap0 H1 H2 H0 H3
                eq_refl eq_refl eq_refl eq_refl eq_refl eq_refl)
      as (h_hat & Hhat & Hrest & _ & Hok).
    destruct (Hok 1 (ProxFn.store h_hat 1 (h_hat 0)) eq_refl)
      as (h_out & Hp & Hout & Hframe).
    { rewrite ProxFacts.store_same, Hhat. reflexivity. }
    { rewrite ProxFacts.store_same, Hhat. reflexivity. }
    exists 1, h_out. split; [exact Hp|]. split; [reflexivity|].
    rewrite Hframe by discriminate.
    rewrite ProxFacts.store_other by discriminate. rewrite Hhat.
    simpl. repeat split; lra.
Qed.

Lemma prox_overwrites_v_witness :
  exists h_hat,
    h_hat 0 = Np.mk_ndarray [2] (Affine.v_hat Examples.shifted 2
                                   (Np.data (Examples.heap0 0)))
    /\ (forall l, l <> 0 -> h_hat l = Examples.heap0 l)
    /\ (forall e,
          ProxFn._prox (Atom := Examples.inplace_atom) Examples.shifted
                       (Affine.rho_hat Examples.shifted 2) 0 h_hat = Raise e ->
          ProxFn.prox (atom := Examples.inplace_atom) Examples.shifted 2 0
                      Examples.heap0 = Raise e)
    /\ forall xhat h',
         ProxFn._prox (Atom := Examples.inplace_atom) Examples.shifted
                      (Affine.rho_hat Examples.shifted 2) 0 h_hat
         = Ok (xhat, h') ->
         Np.shape (h' xhat) = [2] -> Np.wf (h' xhat) ->
         exists h_out,
           ProxFn.prox (atom := Examples.inplace_atom) Examples.shifted 2 0
                       Examples.heap0 = Ok (xhat, h_out)
           /\ (forall l, l <> xhat -> h_out l = h' l)
           /\ (xhat <> 0 -> h_out 0 = h' 0)
           /\ (xhat <> 0 -> h' 0 = h_hat 0 ->
               h_out 0 = Np.mk_ndarray [2]
                           (Affine.v_hat Examples.shifted 2
                              (Np.data (Examples.heap0 0))))
           /\ (xhat = 0 ->
               h_out 0 = Np.mk_ndarray [2]
                           (Affine.x_out Examples.shifted (Np.data (h' 0)))).
Proof.
  apply (proj1 prox_overwrites_v Examples.inplace_atom
           Examples.shifted 2%R 0 Examples.heap0); simpl;
    try reflexivity; lra.
Defined.

(** ** [ProxFn.__init__] *)

Module InitFacts.
Import ProxFn Affine.
Local Open Scope R_scope.

Lemma bind_ok_inv {A B : Type} (m : result A) (k : A -> result B) (y : B) :
  bind m k = Ok y -> exists x, m = Ok x /\ k x = Ok y.
Proof. destruct m as [x|e]; simpl; [eauto|discriminate]. Qed.

Lemma bind_raises_l {A B : Type} (m : result A) (k : A -> result B) :
  (exists e, m = Raise e) -> exists e, bind m k = Raise e.
Proof. intros [e ->]. now exists e. Qed.

Lemma bind_raises_r {A B : Type} (m : result A) (k : A -> result B) :
  (forall x, exists e, k x = Raise e) -> exists e, bind m k = Raise e.
Proof. intros H. destruct m as [x|e]; simpl; [apply H|now exists e]. Qed.

Lemma check_dims_ok (shape : list nat) (v : pyval) (name : string) :
  dims_ok shape v -> check_dims shape tt (v, name) = Ok tt.
Proof.
  destruct v as [r|a]; simpl; [reflexivity|]. intros ->.
  unfold shape_eqb. now destruct (list_eq_dec Nat.eq_dec shape shape).
Qed.

Lemma check_dims_bad (shape : list nat) (v : pyval) (name : string) :
  ~ dims_ok shape v ->
  check_dims shape tt (v, name)
  = Raise (PyException ("Invalid dimensions of " ++ name ++ ".")).
Proof.
  destruct v as [r|a]; simpl; [tauto|]. intros Hne.
  unfold shape_eqb. now destruct (list_eq_dec Nat.eq_dec (Np.shape a) shape).
Qed.

Lemma dims_ok_dec (shape : list nat) (v : pyval) :
  dims_ok shape v \/ ~ dims_ok shape v.
Proof.
  destruct v as [r|a]; simpl; [now left|].
  destruct (list_eq_dec Nat.eq_dec (Np.shape a) shape); [now left|now right].
Qed.

Lemma check_nonneg_bad (v : pyval) (name : string) :
  bad_nonneg v -> exists e, check_nonneg tt (v, name) = Raise e.
Proof.
  destruct v as [r|a]; simpl; [|eauto]. intros Hr.
  destruct (Rlt_dec r 0); [eauto|contradiction].
Qed.

Lemma check_nonneg_ok (r : R) (name : string) :
  0 <= r -> check_nonneg tt (PyScalar r, name) = Ok tt.
Proof. intros Hr. simpl. destruct (Rlt_dec r 0); [lra|reflexivity]. Qed.

Lemma materialized_scalar (shape : list nat) (r : R) :
  materialized shape (PyScalar r)
  = Np.mk_ndarray shape (repeat r (Np.size shape)).
Proof.
  unfold materialized, Np.sop, Np.ones. simpl. f_equal.
  induction (Np.size shape) as [|n IH]; simpl; [reflexivity|].
  rewrite IH. f_equal. lra.
Qed.

Section WithEnv.
Context {env : Env}.
Variables (shape : list nat) (alpha beta b c gamma d : pyval).
Variable implem : option string.

Lemma init_raises_scalars :
  bad_nonneg alpha \/ bad_nonneg gamma
  \/ isscalar beta = false \/ isscalar d = false ->
  exists e, init shape alpha beta b c gamma d implem = Raise e.
Proof.
  intros Hbad. unfold init.
  apply bind_raises_r. intros _.
  destruct Hbad as [Ha|[Hg|Hbd]].
  - apply bind_raises_l. cbn [for_each combine].
    destruct (check_nonneg_bad alpha "alpha" Ha) as [e ->]. now exists e.
  - apply bind_raises_l. cbn [for_each combine].
    destruct (check_nonneg tt (alpha, "alpha"%string)) as [[]|e];
      cbn [bind]; [|now exists e].
    destruct (check_nonneg_bad gamma "gamma" Hg) as [e ->]. now exists e.
  - apply bind_raises_r. intros _. apply bind_raises_l.
    cbn [for_each combine]. unfold check_scalar.
    destruct Hbd as [Hb|Hd].
    + rewrite Hb. cbn [bind]. eauto.
    + destruct (isscalar beta); cbn [bind]; [|eauto]. rewrite Hd.
      cbn [bind]. eauto.
Qed.

Lemma init_raises_dims :
  ~ dims_ok shape b \/ ~ dims_ok shape c ->
  exists e, init shape alpha beta b c gamma d implem = Raise e.
Proof.
  intros Hbad. unfold init. apply bind_raises_l. cbn [for_each combine].
  destruct (dims_ok_dec shape b) as [Hb|Hb].
  - rewrite (check_dims_ok _ _ _ Hb). cbn [bind].
    destruct Hbad as [Hb'|Hc]; [contradiction|].
    rewrite (check_dims_bad _ _ _ Hc). cbn [bind]. eauto.
  - rewrite (check_dims_bad _ _ _ Hb). cbn [bind]. eauto.
Qed.

(** The first loop runs before every other check, so its message is the
    one raised. *)
Lemma init_raises_dims_b :
  ~ dims_ok shape b ->
  init shape alpha beta b c gamma d implem
  = Raise (PyException "Invalid dimensions of b.").
Proof.
  intros Hb. unfold init. cbn [for_each combine].
  rewrite (check_dims_bad _ _ _ Hb). reflexivity.
Qed.

Lemma init_raises_dims_c :
  dims_ok shape b -> ~ dims_ok shape c ->
  init shape alpha beta b c gamma d implem
  = Raise (PyException "Invalid dimensions of c.").
Proof.
  intros Hb Hc. unfold init. cbn [for_each combine].
  rewrite (check_dims_ok _ _ _ Hb). cbn [bind].
  rewrite (check_dims_bad _ _ _ Hc). reflexivity.
Qed.

Lemma init_ok_inv (self : t) :
  init shape alpha beta b c gamma d implem = Ok self ->
  dims_ok shape b /\ dims_ok shape c
  /\ ProxFn.b self = materialized shape b
  /\ ProxFn.c self = materialized shape c
  /\ lin_op_shape self = shape
  /\ argnames self = None /\ kernel_cuda_prox self = None.
Proof.
  intros H.
  destruct (dims_ok_dec shape b) as [Hb|Hb].
  2:{ destruct init_raises_dims as [e He]; [left; exact Hb|]. congruence. }
  destruct (dims_ok_dec shape c) as [Hc|Hc].
  2:{ destruct init_raises_dims as [e He]; [right; exact Hc|]. congruence. }
  split; [exact Hb|]. split; [exact Hc|].
  unfold init in H.
  repeat (apply bind_ok_inv in H; destruct H as (? & _ & H)).
  inversion H; subst; simpl. repeat split; reflexivity.
Qed.

Lemma init_ok (ra rb rg rd : R) (numpy : string) :
  alpha = PyScalar ra -> beta = PyScalar rb ->
  gamma = PyScalar rg -> d = PyScalar rd ->
  0 <= ra -> 0 <= rg -> dims_ok shape b -> dims_ok shape c ->
  implem = None -> lookup "numpy" Impl = Some numpy ->
  init shape alpha beta b c gamma d implem
  = Ok (mk shape ra rb (materialized shape b) (materialized shape c)
           rg rd None numpy None None None None).
Proof.
  intros -> -> -> -> Ha Hg Hb Hc -> Hn. unfold init.
  cbn [for_each combine].
  rewrite (check_dims_ok _ _ _ Hb). cbn [bind].
  rewrite (check_dims_ok _ _ _ Hc). cbn [bind].
  rewrite (check_nonneg_ok _ _ Ha). cbn [bind].
  rewrite (check_nonneg_ok _ _ Hg).
  cbn [bind check_scalar isscalar float]. rewrite Hn. reflexivity.
Qed.

End WithEnv.

End InitFacts.

(** C8 as stated fails: an array [b] of shape [(1,)] can be broadcast to the
    operator's shape [(3,)], and the constructor rejects it. *)
Lemma init_rejects_broadcastable_b :
  Np.broadcastable [1] [3] = true
  /\ ProxFn.init (env := Examples.env) [3]
       (ProxFn.PyScalar 1) (ProxFn.PyScalar 1)
       (ProxFn.PyArray (Np.mk_ndarray [1] [0%R])) (ProxFn.PyScalar 0)
       (ProxFn.PyScalar 0) (ProxFn.PyScalar 0) None
     = Raise (PyException "Invalid dimensions of b.").
Proof.
  split; reflexivity.
Qed.

(** C8, amended.  The constructor raises for a negative or non-scalar
    [alpha] or [gamma] and for a non-scalar [beta] or [d].  It accepts [b]
    and [c] only as a scalar or as an array whose shape is exactly the
    operator's shape: for any other array [b] it raises
    "Invalid dimensions of b.", and for an accepted [b] and any other array
    [c] it raises "Invalid dimensions of c.", whatever the other arguments
    are.  An accepted scalar is stored expanded to a full tensor of the
    operator's shape and an accepted array is stored as given. *)
Theorem init_validation {env : ProxFn.Env} (shape : list nat)
        (alpha beta b c gamma d : ProxFn.pyval) (implem : option string) :
  (Affine.bad_nonneg alpha \/ Affine.bad_nonneg gamma
   \/ ProxFn.isscalar beta = false \/ ProxFn.isscalar d = false ->
   exists e, ProxFn.init shape alpha beta b c gamma d implem = Raise e)
  /\ (~ Affine.dims_ok shape b ->
      ProxFn.init shape alpha beta b c gamma d implem
      = Raise (PyException "Invalid dimensions of b."))
  /\ (Affine.dims_ok shape b -> ~ Affine.dims_ok shape c ->
      ProxFn.init shape alpha beta b c gamma d implem
      = Raise (PyException "Invalid dimensions of c."))
  /\ (forall self,
        ProxFn.init shape alpha beta b c gamma d implem = Ok self ->
        Affine.dims_ok shape b /\ Affine.dims_ok shape c
        /\ Np.shape (ProxFn.b self) = shape /\ Np.shape (ProxFn.c self) = shape
        /\ (forall r, b = ProxFn.PyScalar r ->
                      ProxFn.b self
                      = Np.mk_ndarray shape (repeat r (Np.size shape)))
        /\ (forall a, b = ProxFn.PyArray a -> ProxFn.b self = a)
        /\ (forall r, c = ProxFn.PyScalar r ->
                      ProxFn.c self
                      = Np.mk_ndarray shape (repeat r (Np.size shape)))
        /\ (forall a, c = ProxFn.PyArray a -> ProxFn.c self = a))
  /\ (forall ra rb rg rd numpy,
        alpha = ProxFn.PyScalar ra -> beta = ProxFn.PyScalar rb ->
        gamma = ProxFn.PyScalar rg -> d = ProxFn.PyScalar rd ->
        (0 <= ra)%R -> (0 <= rg)%R ->
        Affine.dims_ok shape b -> Affine.dims_ok shape c ->
        implem = None -> ProxFn.lookup "numpy" ProxFn.Impl = Some numpy ->
        exists self, ProxFn.init shape alpha beta b c gamma d implem = Ok self).
Proof.
  split; [apply InitFacts.init_raises_scalars|].
  split; [apply InitFacts.init_raises_dims_b|].
  split; [apply InitFacts.init_raises_dims_c|].
  split.
  - intros self H.
    destruct (InitFacts.init_ok_inv _ _ _ _ _ _ _ _ _ H)
      as (Hb & Hc & Eb & Ec & _).
    rewrite Eb, Ec.
    split; [exact Hb|]. split; [exact Hc|].
    split; [destruct b; simpl in *; auto|].
    split; [destruct c; simpl in *; auto|].
    split; [intros r ->; apply InitFacts.materialized_scalar|].
    split; [intros a ->; reflexivity|].
    split; [intros r ->; apply InitFacts.materialized_scalar|].
    intros a ->; reflexivity.
  - intros ra rb rg rd numpy Ha Hbe Hg Hd Hra Hrg Hb Hc Hi Hn.
    eexists. eapply InitFacts.init_ok; eauto.
Qed.

Lemma init_validation_witness :
  (exists e,
      ProxFn.init (env := Examples.env) [2]
        (ProxFn.PyScalar (-1)) (ProxFn.PyScalar 1) (ProxFn.PyScalar 0)
        (ProxFn.PyScalar 0) (ProxFn.PyScalar 0) (ProxFn.PyScalar 0) None
      = Raise e)
  /\ ProxFn.init (env := Examples.env) [2]
       (ProxFn.PyScalar 1) (ProxFn.PyScalar 1)
       (ProxFn.PyArray (Np.mk_ndarray [1] [0%R])) (ProxFn.PyScalar 0)
       (ProxFn.PyScalar 0) (ProxFn.PyScalar 0) None
     = Raise (PyException "Invalid dimensions of b.")
  /\ ProxFn.init (env := Examples.env) [2]
       (ProxFn.PyScalar 1) (ProxFn.PyScalar 1) (ProxFn.PyScalar 0)
       (ProxFn.PyArray (Np.mk_ndarray [1] [0%R])) (ProxFn.PyScalar 0)
       (ProxFn.PyScalar 0) None
     = Raise (PyException "Invalid dimensions of c.")
  /\ (exists self,
         ProxFn.init (env := Examples.env) [2]
           (ProxFn.PyScalar 1) (ProxFn.PyScalar 2) (ProxFn.PyScalar 5)
           (ProxFn.PyArray (Np.mk_ndarray [2] [3; 4]%R)) (ProxFn.PyScalar 0)
           (ProxFn.PyScalar 0) None
         = Ok self)
  /\ Np.shape (ProxFn.materialized [2] (ProxFn.PyScalar 5)) = [2].
Proof.
  split; [|split; [|split; [|split]]].
  - apply (proj1 (init_validation (env := Examples.env) [2]
             (ProxFn.PyScalar (-1)) (ProxFn.PyScalar 1) (ProxFn.PyScalar 0)
             (ProxFn.PyScalar 0) (ProxFn.PyScalar 0) (ProxFn.PyScalar 0) None)).
    left. simpl. lra.
  - apply (proj1 (proj2 (init_validation (env := Examples.env) [2]
             (ProxFn.PyScalar 1) (ProxFn.PyScalar 1)
             (ProxFn.PyArray (Np.mk_ndarray [1] [0%R])) (ProxFn.PyScalar 0)
             (ProxFn.PyScalar 0) (ProxFn.PyScalar 0) None))).
    simpl. discriminate.
  - apply (proj1 (proj2 (proj2 (init_validation (env := Examples.env) [2]
             (ProxFn.PyScalar 1) (ProxFn.PyScalar 1) (ProxFn.PyScalar 0)
             (ProxFn.PyArray (Np.mk_ndarray [1] [0%R])) (ProxFn.PyScalar 0)
             (ProxFn.PyScalar 0) None)))).
    + exact I.
    + simpl. discriminate.
  - apply (proj2 (proj2 (proj2 (proj2 (init_validation (env := Examples.env) [2]
             (ProxFn.PyScalar 1) (ProxFn.PyScalar 2) (ProxFn.PyScalar 5)
             (ProxFn.PyArray (Np.mk_ndarray [2] [3; 4]%R)) (ProxFn.PyScalar 0)
             (ProxFn.PyScalar 0) None))))
             1%R 2%R 0%R 0%R "numpy"%string);
      simpl; try reflexivity; try lra; exact I.
  - apply (proj1 (proj2 (proj2 (proj1 (proj2 (proj2 (proj2
             (init_validation (env := Examples.env) [2]
                (ProxFn.PyScalar 1) (ProxFn.PyScalar 2) (ProxFn.PyScalar 5)
                (ProxFn.PyArray (Np.mk_ndarray [2] [3; 4]%R)) (ProxFn.PyScalar 0)
                (ProxFn.PyScalar 0) None))))
             (ProxFn.mk [2] 1 2 (ProxFn.materialized [2] (ProxFn.PyScalar 5))
                (Np.mk_ndarray [2] [3; 4]%R) 0 0 None "numpy"
                None None None None)
             (InitFacts.init_ok (env := Examples.env) [2]
                (ProxFn.PyScalar 1) (ProxFn.PyScalar 2) (ProxFn.PyScalar 5)
                (ProxFn.PyArray (Np.mk_ndarray [2] [3; 4]%R)) (ProxFn.PyScalar 0)
                (ProxFn.PyScalar 0) None 1%R 2%R 0%R 0%R "numpy"%string
                eq_refl eq_refl eq_refl eq_refl
                (Rle_0_1) (Rle_refl 0) I eq_refl eq_refl eq_refl))))).
Defined.

(** ** [ProxFn.gen_cuda_code] *)

Module CodegenFacts.
Import ProxFn Affine.

Lemma buffers_nonempty (self : t) :
  all_zero (b self) = false \/ all_zero (c self) = false ->
  cuda_additional_buffers self <> [].
Proof.
  unfold cuda_additional_buffers.
  destruct (all_zero (c self)), (all_zero (b self)); simpl;
    intros [H|H]; discriminate.
Qed.

Lemma buffers_empty (self : t) :
  all_zero (b self) = true -> all_zero (c self) = true ->
  cuda_additional_buffers self = [].
Proof.
  unfold cuda_additional_buffers. now intros -> ->.
Qed.

Section WithEnv.
Context {env : Env} {atom : Atom}.

Lemma gen_raises (self : t) :
  cuda_additional_buffers self <> [] ->
  gen_cuda_code self = Raise (registration_error self).
Proof.
  intros Hne. unfold gen_cuda_code.
  change (cuda_additional_buffers
            (mk (lin_op_shape self) (alpha self) (beta self) (b self)
                (c self) (gamma self) (d self) (implem_key self)
                (implementation self) (kernel_cuda_prox self)
                (Some []) (cuda_code self) (argnames self)))
    with (cuda_additional_buffers self).
  destruct (cuda_additional_buffers self) as [|[aname aval] rest];
    [contradiction|].
  cbn [for_each register_buffer argnames]. unfold registration_error.
  destruct (argnames self); reflexivity.
Qed.

Lemma gen_ok_zero (self self' : t) :
  gen_cuda_code self = Ok self' ->
  all_zero (b self) = true /\ all_zero (c self) = true.
Proof.
  intros H.
  destruct (all_zero (b self)) eqn:Eb, (all_zero (c self)) eqn:Ec; auto;
    rewrite gen_raises in H by (apply buffers_nonempty; auto);
    discriminate.
Qed.

End WithEnv.

Lemma all_zero_zeros (sh : list nat) : all_zero (Np.zeros sh) = true.
Proof.
  unfold all_zero, Np.zeros. simpl.
  induction (Np.size sh) as [|n IH]; simpl; [reflexivity|].
  rewrite IH. unfold Reqb. now destruct (Req_dec_T 0 0).
Qed.

End CodegenFacts.

(** C10. A wrapper whose [b] or [c] is not identically zero has a non-empty
    list of additional buffers, and [gen_cuda_code] raises while registering
    the first of them: [AttributeError] at [self.argnames], an attribute
    that [__init__] does not create, and [TypeError] at the two-argument
    [append] should the attribute exist.  Hence [gen_cuda_code] completes
    only for [b] and [c] identically zero, as it does for the wrapper
    [Examples.doubled]. *)
Theorem gen_cuda_code_needs_zero_b_c :
  (forall (env : ProxFn.Env) (atom : ProxFn.Atom) (self : ProxFn.t),
      ProxFn.all_zero (ProxFn.b self) = false
      \/ ProxFn.all_zero (ProxFn.c self) = false ->
      ProxFn.cuda_additional_buffers self <> []
      /\ ProxFn.gen_cuda_code self
         = Raise (match ProxFn.argnames self with
                  | None => AttributeError
                  | Some _ => TypeError
                  end))
  /\ (forall (env : ProxFn.Env) (atom : ProxFn.Atom) (self self' : ProxFn.t),
        ProxFn.gen_cuda_code self = Ok self' ->
        ProxFn.all_zero (ProxFn.b self) = true
        /\ ProxFn.all_zero (ProxFn.c self) = true)
  /\ (forall (env : ProxFn.Env) shape alpha beta b c gamma d implem self,
        ProxFn.init shape alpha beta b c gamma d implem = Ok self ->
        ProxFn.argnames self = None)
  /\ (exists self',
        ProxFn.gen_cuda_code (env := Examples.env) (atom := Examples.inplace_atom)
                             Examples.doubled = Ok self').
Proof.
  split; [|split; [|split]].
  - intros env atom self H. split.
    + now apply CodegenFacts.buffers_nonempty.
    + apply CodegenFacts.gen_raises. now apply CodegenFacts.buffers_nonempty.
  - intros env atom self self'. apply CodegenFacts.gen_ok_zero.
  - intros env shape alpha beta b c gamma d implem self H.
    now destruct (InitFacts.init_ok_inv _ _ _ _ _ _ _ _ _ H)
      as (_ & _ & _ & _ & _ & Hn & _).
  - unfold ProxFn.gen_cuda_code.
    change (ProxFn.cuda_additional_buffers
              (ProxFn.mk (ProxFn.lin_op_shape Examples.doubled)
                 (ProxFn.alpha Examples.doubled) (ProxFn.beta Examples.doubled)
                 (ProxFn.b Examples.doubled) (ProxFn.c Examples.doubled)
                 (ProxFn.gamma Examples.doubled) (ProxFn.d Examples.doubled)
                 (ProxFn.implem_key Examples.doubled)
                 (ProxFn.implementation Examples.doubled)
                 (ProxFn.kernel_cuda_prox Examples.doubled)
                 (Some []) (ProxFn.cuda_code Examples.doubled)
                 (ProxFn.argnames Examples.doubled)))
      with (ProxFn.cuda_additional_buffers Examples.doubled).
    rewrite CodegenFacts.buffers_empty
      by apply (CodegenFacts.all_zero_zeros [2]).
    eexists. reflexivity.
Qed.

Lemma gen_cuda_code_needs_zero_b_c_witness :
  (ProxFn.cuda_additional_buffers Examples.shifted <> []
   /\ ProxFn.gen_cuda_code (env := Examples.env) (atom := Examples.inplace_atom)
                           Examples.shifted
      = Raise AttributeError)
  /\ (ProxFn.all_zero (ProxFn.b Examples.doubled) = true
      /\ ProxFn.all_zero (ProxFn.c Examples.doubled) = true)
  /\ ProxFn.argnames
       (ProxFn.mk [2] 1 1 (ProxFn.materialized [2] (ProxFn.PyScalar 1))
          (ProxFn.materialized [2] (ProxFn.PyScalar 0)) 0 0 None "numpy"
          None None None None) = None.
Proof.
  split; [|split].
  - apply (proj1 gen_cuda_code_needs_zero_b_c Examples.env Examples.inplace_atom
             Examples.shifted).
    left. unfold ProxFn.all_zero, ProxFn.Reqb. simpl.
    destruct (Req_dec_T 1 0) as [E|_]; [lra|reflexivity].
  - destruct (proj2 (proj2 (proj2 gen_cuda_code_needs_zero_b_c))) as [self' H].
    exact (proj1 (proj2 gen_cuda_code_needs_zero_b_c)
             Examples.env Examples.inplace_atom Examples.doubled self' H).
  - apply (proj1 (proj2 (proj2 gen_cuda_code_needs_zero_b_c)) Examples.env [2]
             (ProxFn.PyScalar 1) (ProxFn.PyScalar 1) (ProxFn.PyScalar 1)
             (ProxFn.PyScalar 0) (ProxFn.PyScalar 0) (ProxFn.PyScalar 0) None).
    apply InitFacts.init_ok; simpl; try reflexivity; try lra; exact I.
Defined.

(** C2 (the code departs from the claim).  For the wrapper [f(x - b)] with
    [b = (1, 1)] and [c = 0], [gen_cuda_code] emits no kernel: it raises
    [AttributeError] while registering the buffer [b].  Were [b] registered,
    the expression produced by [gen_v] would subtract it inside the divisor,
    [(v*rho) / (rho - b[...])], and would index it with the printed list of
    index terms; the host computes [(v*rho)*(beta/(rho + 2*gamma)) - b]. *)
Theorem gen_cuda_code_b_term :
  ProxFn.gen_cuda_code (env := Examples.env) (atom := Examples.inplace_atom)
                       Examples.shifted = Raise AttributeError
  /\ ProxFn.gen_v (env := Examples.env) Examples.shifted ["b"%string]
                  ["vidx"%string]
     = Ok "(((v[vidx] * rho))) / (rho - b[['vidx']])"%string
  /\ ProxFn.gen_v (env := Examples.env) Examples.shifted [] ["vidx"%string]
     = Ok "(((v[vidx] * rho))) / (rho)"%string.
Proof.
  assert (Hm : ProxFn.mul_beta (env := Examples.env) Examples.shifted
               = EmptyString).
  { unfold ProxFn.mul_beta. simpl.
    destruct (Req_dec_T 1 1) as [_|E]; [reflexivity|lra]. }
  assert (Hg : ProxFn.plus_2gamma (env := Examples.env) Examples.shifted
               = EmptyString).
  { unfold ProxFn.plus_2gamma. simpl.
    destruct (Req_dec_T 0 0) as [_|E]; [reflexivity|lra]. }
  split; [|split].
  - rewrite CodegenFacts.gen_raises; [reflexivity|].
    apply CodegenFacts.buffers_nonempty.
    left. unfold ProxFn.all_zero, ProxFn.Reqb. simpl.
    destruct (Req_dec_T 1 0) as [E|_]; [lra|reflexivity].
  - unfold ProxFn.gen_v. rewrite Hm, Hg. reflexivity.
  - unfold ProxFn.gen_v. rewrite Hm, Hg. reflexivity.
Qed.

(* ================================================================== *)
(** * Part III: further properties of the three classes *)
(* ================================================================== *)

(** ** [transpose]: construction, round trips and the emitted indices *)

Module TransposeMore.
Import Transpose TransposeFacts PermuteFacts Closed Np NpFacts.

(** An in-range index list is remapped without an exception. *)
Lemma remap_gather (idx perm : list nat) :
  Forall (fun m => m < length idx) perm ->
  Cuda.remap idx perm = Ok (gather idx perm).
Proof.
  induction 1 as [|m perm Hm Hp IH]; simpl; [reflexivity|].
  unfold Cuda.remap in *. simpl. unfold Cuda.item at 1.
  destruct (nth_error idx m) as [x|] eqn:E.
  - simpl. rewrite IH. simpl. f_equal. f_equal.
    symmetry. now apply nth_error_nth.
  - apply nth_error_None in E. lia.
Qed.

Lemma remap_out_of_range {T : Type} (idx : list T) (perm : list nat) :
  ~ Forall (fun m => m < length idx) perm ->
  Cuda.remap idx perm = Raise IndexError.
Proof.
  unfold Cuda.remap.
  induction perm as [|m perm IH]; intros Hr; simpl.
  - exfalso. apply Hr. constructor.
  - unfold Cuda.item at 1.
    destruct (nth_error idx m) as [x|] eqn:E; simpl; [|reflexivity].
    rewrite IH; [reflexivity|].
    intros Hf. apply Hr. constructor; [|assumption].
    apply nth_error_Some. congruence.
Qed.

Lemma perm_length (a : list nat) (n : nat) :
  Permutation a (seq 0 n) -> length a = n.
Proof. intros Hp. rewrite (Permutation_length Hp). apply length_seq. Qed.

Lemma perm_nth_lt (a : list nat) (n m : nat) :
  Permutation a (seq 0 n) -> m < n -> nth m a 0 < n.
Proof.
  intros Hp Hm.
  assert (Hin : In (nth m a 0) a).
  { apply nth_In. now rewrite (perm_length _ _ Hp). }
  apply (Permutation_in _ Hp), in_seq in Hin. lia.
Qed.

(** Reading a contiguous array at a valid multi-index. *)
Lemma item_as_view (x : ndarray) (idx : list nat) :
  item (as_view x) idx = nth (offset idx (strides (shape x))) (data x) 0%R.
Proof. reflexivity. Qed.

(** The element that the transposed copy holds at [idx] is the element of
    the original at the index remapped by the inverse permutation. *)
Lemma permuted_item (sh a inv : list nat) (x : ndarray) (idx : list nat) :
  Permutation a (seq 0 (length sh)) ->
  Permutation inv (seq 0 (length sh)) ->
  (forall i, i < length sh -> nth (nth i a 0) inv 0 = i) ->
  (forall m, m < length sh -> nth (nth m inv 0) a 0 = m) ->
  shape x = sh ->
  Forall2 lt idx (gather sh a) ->
  Forall2 lt (gather idx inv) sh
  /\ item (as_view (permuted x a)) idx = item (as_view x) (gather idx inv).
Proof.
  intros Hpa Hpi Hleft Hright Hsx Hidx.
  pose proof (perm_length _ _ Hpa) as Hla.
  pose proof (perm_length _ _ Hpi) as Hli.
  assert (Hlidx : length idx = length sh).
  { rewrite (Forall2_length Hidx), gather_length. exact Hla. }
  assert (Hshape : gather (gather sh a) inv = sh).
  { apply gather_gather_inv; auto. intros m Hm. now apply perm_nth_lt. }
  assert (Hv : Forall2 lt (gather idx inv) sh).
  { assert (Hv' : Forall2 lt (gather idx inv) (gather (gather sh a) inv)).
    { apply Forall2_lt_gather; [assumption|].
      rewrite gather_length, Hla. now apply perm_range. }
    now rewrite Hshape in Hv'. }
  assert (Hback : gather (gather idx inv) a = idx).
  { apply gather_gather_inv; rewrite ?Hlidx; auto.
    intros m Hm. now apply perm_nth_lt. }
  split; [exact Hv|].
  destruct (perm_index sh a inv (gather idx inv) Hpa Hli Hleft Hv)
    as (_ & _ & HC).
  rewrite Hback in HC.
  rewrite !item_as_view.
  change (shape (permuted x a)) with (gather (shape x) a).
  rewrite Hsx.
  pose proof (permuted_at x a idx) as Hat. rewrite Hsx in Hat.
  rewrite Hat by assumption. now rewrite HC.
Qed.

End TransposeMore.

(** ** [transpose] on integer axes *)

Module TransposeIntFacts.
Import TransposeInt.

Lemma valid_index_dec (n : nat) (i : Z) : valid_index n i \/ ~ valid_index n i.
Proof. unfold valid_index. lia. Qed.

Lemma Forall_valid_dec (n : nat) (l : list Z) :
  Forall (valid_index n) l \/ ~ Forall (valid_index n) l.
Proof.
  induction l as [|a l IH]; [left; constructor|].
  destruct (valid_index_dec n a) as [Ha|Ha].
  - destruct IH as [Hl|Hl]; [left; now constructor|].
    right. intros H. inversion H. contradiction.
  - right. intros H. inversion H. contradiction.
Qed.

Lemma position_lt (n : nat) (i : Z) : valid_index n i -> position n i < n.
Proof.
  unfold valid_index, position. intros H.
  destruct (i <? 0)%Z eqn:E; lia.
Qed.

Lemma py_index_valid (n : nat) (i : Z) :
  valid_index n i -> py_index n i = Ok (position n i).
Proof.
  unfold valid_index, py_index. intros [H1 H2].
  apply Z.leb_le in H1. apply Z.ltb_lt in H2. now rewrite H1, H2.
Qed.

Lemma py_index_invalid (n : nat) (i : Z) :
  ~ valid_index n i -> py_index n i = Raise IndexError.
Proof.
  unfold valid_index, py_index. intros H.
  destruct (- Z.of_nat n <=? i)%Z eqn:E1; [|reflexivity].
  destruct (i <? Z.of_nat n)%Z eqn:E2; [|reflexivity].
  apply Z.leb_le in E1. apply Z.ltb_lt in E2. lia.
Qed.

Lemma position_of_nat (n k : nat) : position n (Z.of_nat k) = k.
Proof.
  unfold position. destruct (Z.of_nat k <? 0)%Z eqn:E; [|lia].
  apply Z.ltb_lt in E. lia.
Qed.

Lemma py_index_of_nat (n k : nat) :
  py_index n (Z.of_nat k) = if k <? n then Ok k else Raise IndexError.
Proof.
  destruct (Nat.ltb_spec k n) as [H|H].
  - rewrite py_index_valid by (unfold valid_index; lia).
    now rewrite position_of_nat.
  - apply py_index_invalid. unfold valid_index. lia.
Qed.

(** The loop of [__init__] succeeds as soon as every axis is an index of
    [inverse]; the axes need not denote distinct positions. *)
Lemma inverse_loop_ok (n : nat) (l : list Z) :
  forall (k : nat) (inv0 : list nat),
    length inv0 = n -> Forall (valid_index n) l ->
    exists inv,
      for_each (fun inv p => j <- py_index (length inv) (snd p) ;;
                             Ok (upd inv j (fst p)))
               (combine (seq k (length l)) l) inv0 = Ok inv
      /\ length inv = n.
Proof.
  induction l as [|a l IH]; intros k inv0 Hlen Hr; simpl.
  - now exists inv0.
  - inversion Hr as [|? ? Ha Hr']; subst.
    rewrite py_index_valid by assumption. simpl.
    apply IH; auto. now rewrite upd_length.
Qed.

Lemma inverse_loop_bad (n : nat) (l : list Z) :
  forall (k : nat) (inv0 : list nat),
    length inv0 = n -> ~ Forall (valid_index n) l ->
    for_each (fun inv p => j <- py_index (length inv) (snd p) ;;
                           Ok (upd inv j (fst p)))
             (combine (seq k (length l)) l) inv0 = Raise IndexError.
Proof.
  induction l as [|a l IH]; intros k inv0 Hlen Hr; simpl.
  - exfalso. apply Hr. constructor.
  - rewrite Hlen. destruct (valid_index_dec n a) as [Ha|Ha].
    + rewrite py_index_valid by assumption. simpl.
      apply IH; [now rewrite upd_length|].
      intros Hf. apply Hr. now constructor.
    + now rewrite py_index_invalid.
Qed.

Lemma shape_ok (sh : list nat) (l : list Z) :
  Forall (valid_index (length sh)) l ->
  map_result (fun i => k <- py_index (length sh) i ;; Ok (nth k sh 0)) l
  = Ok (gather sh (map (position (length sh)) l)).
Proof.
  induction 1 as [|a l Ha Hl IH]; simpl; [reflexivity|].
  rewrite py_index_valid by assumption. simpl. now rewrite IH.
Qed.

Lemma shape_bad (sh : list nat) (l : list Z) :
  ~ Forall (valid_index (length sh)) l ->
  map_result (fun i => k <- py_index (length sh) i ;; Ok (nth k sh 0)) l
  = Raise IndexError.
Proof.
  induction l as [|a l IH]; intros Hr; simpl.
  - exfalso. apply Hr. constructor.
  - destruct (valid_index_dec (length sh) a) as [Ha|Ha].
    + rewrite py_index_valid by assumption. simpl.
      rewrite IH; [reflexivity|]. intros Hf. apply Hr. now constructor.
    + now rewrite py_index_invalid.
Qed.

(** Normalising the axes of [np.transpose]. *)
Lemma normalize_ok (n : nat) (l : list Z) :
  Forall (valid_index n) l ->
  map_result (fun a => match py_index n a with
                       | Ok k => Ok k
                       | Raise _ => Raise ValueError
                       end) l
  = Ok (map (position n) l).
Proof.
  induction 1 as [|a l Ha Hl IH]; simpl; [reflexivity|].
  rewrite py_index_valid by assumption. simpl. now rewrite IH.
Qed.

Lemma normalize_of_nat (n : nat) (l : list nat) :
  map_result (fun a => match py_index n a with
                       | Ok k => Ok k
                       | Raise _ => Raise ValueError
                       end) (map Z.of_nat l)
  = if forallb (fun a => a <? n) l then Ok l else Raise ValueError.
Proof.
  induction l as [|a l IH]; simpl; [reflexivity|].
  rewrite py_index_of_nat. destruct (a <? n); simpl; [|reflexivity].
  rewrite IH. now destruct (forallb (fun a0 => a0 <? n) l).
Qed.

(** What a successful [__init__] stored. *)
Lemma init_inv (sh : list nat) (a : list Z) (t : node) :
  init sh a = Ok t ->
  axes t = a /\ arg_shape t = sh
  /\ Forall (valid_index (length sh)) a
  /\ shape t = gather sh (map (position (length sh)) a).
Proof.
  unfold init. intros H.
  destruct (for_each _ (enumerate a) _) as [inv|e]; [|discriminate].
  cbn [bind] in H.
  destruct (Forall_valid_dec (length sh) a) as [Hv|Hv].
  - rewrite shape_ok in H by assumption. cbn [bind] in H.
    inversion H; subst. repeat split; auto.
  - rewrite shape_bad in H by assumption. discriminate.
Qed.

(** On natural axes the class is the one of the module [Transpose]. *)
Lemma inverse_loop_of_nat (l : list nat) :
  forall (ks : list nat) (inv0 : list nat),
    for_each (fun inv p => j <- py_index (length inv) (snd p) ;;
                           Ok (upd inv j (fst p)))
             (combine ks (map Z.of_nat l)) inv0
    = for_each (fun inv p => setitem inv (snd p) (fst p))
               (combine ks l) inv0.
Proof.
  induction l as [|a l IH]; intros [|k ks] inv0; simpl; try reflexivity.
  rewrite py_index_of_nat. unfold setitem at 1.
  destruct (a <? length inv0); simpl; [apply IH|reflexivity].
Qed.

Lemma shape_of_nat (sh : list nat) (l : list nat) :
  map_result (fun i => k <- py_index (length sh) i ;; Ok (nth k sh 0))
             (map Z.of_nat l)
  = map_result (getitem sh) l.
Proof.
  induction l as [|a l IH]; simpl; [reflexivity|].
  rewrite py_index_of_nat, IH. unfold getitem at 2.
  now destruct (a <? length sh).
Qed.

Lemma init_of_nat (sh a : list nat) :
  init sh (map Z.of_nat a)
  = (t <- Transpose.init sh a ;; Ok (of_nat_node t)).
Proof.
  unfold init, Transpose.init, enumerate.
  rewrite length_map, inverse_loop_of_nat, shape_of_nat.
  destruct (for_each _ (combine (seq 0 (length a)) a) _) as [inv|e];
    [|reflexivity].
  cbn [bind].
  destruct (map_result (getitem sh) a) as [s|e]; reflexivity.
Qed.

Lemma forward_of_nat (t : Transpose.node) (x : Np.ndarray) :
  forward (of_nat_node t) x = Transpose.forward t x.
Proof.
  unfold forward, Transpose.forward, np_transpose, of_nat_node.
  cbn [axes shape base]. rewrite normalize_of_nat.
  destruct (forallb (fun a => a <? length (Np.vshape (Np.as_view x)))
                    (Transpose.axes t)) eqn:E; [reflexivity|].
  cbn [bind]. unfold Np.transpose, Np.is_perm. rewrite E.
  now rewrite andb_false_r.
Qed.

Lemma adjoint_of_nat (t : Transpose.node) (y : Np.ndarray) :
  adjoint (of_nat_node t) y = Transpose.adjoint t y.
Proof. reflexivity. Qed.

End TransposeIntFacts.

(** X1. [transpose.__init__] checks ranges only.  With the axes taken as
    Python integers (a negative axis counts from the end), it succeeds
    exactly when every axis is an index both of a sequence as long as [axes]
    and of the input's shape, whether or not the axes denote distinct
    positions; it then records [axes], the input's shape and the shape
    [arg.shape[i] for i in axes], and an inverse as long as [axes].  Any
    other axis makes it raise [IndexError].  On natural axes the
    constructor is the one of the module [Transpose]. *)
Theorem transpose_init_range (arg_shape : list nat) (axes : list Z) :
  (Forall (TransposeInt.valid_index (length axes)) axes ->
   Forall (TransposeInt.valid_index (length arg_shape)) axes ->
   exists t,
     TransposeInt.init arg_shape axes = Ok t
     /\ TransposeInt.axes t = axes
     /\ TransposeInt.arg_shape t = arg_shape
     /\ TransposeInt.shape t
        = gather arg_shape
                 (map (TransposeInt.position (length arg_shape)) axes)
     /\ length (TransposeInt.inverse t) = length axes)
  /\ (~ (Forall (TransposeInt.valid_index (length axes)) axes
         /\ Forall (TransposeInt.valid_index (length arg_shape)) axes) ->
      TransposeInt.init arg_shape axes = Raise IndexError)
  /\ (forall natural : list nat,
        axes = map Z.of_nat natural ->
        TransposeInt.init arg_shape axes
        = (t <- Transpose.init arg_shape natural ;;
           Ok (TransposeInt.of_nat_node t))).
Proof.
  split; [|split].
  - intros Ha Hs.
    destruct (TransposeIntFacts.inverse_loop_ok (length axes) axes 0
                (seq 0 (length axes))) as (inv & Hrun & Hl); auto.
    { apply length_seq. }
    exists (TransposeInt.mk_node axes inv
              (LinOp.init [arg_shape]
                 (gather arg_shape
                    (map (TransposeInt.position (length arg_shape)) axes)))).
    split; [|repeat split; auto].
    unfold TransposeInt.init, enumerate. rewrite Hrun. cbn [bind].
    now rewrite TransposeIntFacts.shape_ok.
  - intros Hbad. unfold TransposeInt.init, enumerate.
    destruct (TransposeIntFacts.Forall_valid_dec (length axes) axes)
      as [Ha|Ha].
    + destruct (TransposeIntFacts.inverse_loop_ok (length axes) axes 0
                  (seq 0 (length axes))) as (inv & Hrun & Hl); auto.
      { apply length_seq. }
      rewrite Hrun. cbn [bind].
      rewrite TransposeIntFacts.shape_bad; [reflexivity|].
      intros Hs. apply Hbad. now split.
    + rewrite (TransposeIntFacts.inverse_loop_bad (length axes));
        [reflexivity|apply length_seq|assumption].
  - intros natural ->. apply TransposeIntFacts.init_of_nat.
Qed.

Lemma transpose_init_range_witness :
  (exists t,
     TransposeInt.init [2; 3] [(-1)%Z; 0%Z] = Ok t
     /\ TransposeInt.axes t = [(-1)%Z; 0%Z]
     /\ TransposeInt.arg_shape t = [2; 3]
     /\ TransposeInt.shape t
        = gather [2; 3]
                 (map (TransposeInt.position (length [2; 3])) [(-1)%Z; 0%Z])
     /\ length (TransposeInt.inverse t) = length [(-1)%Z; 0%Z])
  /\ TransposeInt.init [2; 3] [0%Z; 2%Z] = Raise IndexError
  /\ TransposeInt.init [2; 3] [0%Z; (-3)%Z] = Raise IndexError.
Proof.
  split; [|split].
  - apply (proj1 (transpose_init_range [2; 3] [(-1)%Z; 0%Z])).
    + repeat constructor; unfold TransposeInt.valid_index; simpl; lia.
    + repeat constructor; unfold TransposeInt.valid_index; simpl; lia.
  - apply (proj1 (proj2 (transpose_init_range [2; 3] [0%Z; 2%Z]))).
    intros [H _]. inversion H as [|? ? _ H']. inversion H' as [|? ? H2 _].
    unfold TransposeInt.valid_index in H2. simpl in H2. lia.
  - apply (proj1 (proj2 (transpose_init_range [2; 3] [0%Z; (-3)%Z]))).
    intros [H _]. inversion H as [|? ? _ H']. inversion H' as [|? ? H2 _].
    unfold TransposeInt.valid_index in H2. simpl in H2. lia.
Defined.

(** X2. A constructed [transpose] node evaluates [forward] on an array of
    the input's shape if and only if the positions that its axes denote
    (a negative axis counts from the end) form a permutation of
    [range(rank)]: then the result is the copy transposed by these
    positions, and for any other [axes] that the constructor let through
    (repeated positions, or too few axes) [forward] raises [ValueError].
    On natural axes [forward] is the one of the module [Transpose]. *)
Theorem transpose_forward_needs_permutation (arg_shape : list nat)
        (axes : list Z) (t : TransposeInt.node) (x : Np.ndarray) :
  TransposeInt.init arg_shape axes = Ok t ->
  Np.shape x = arg_shape ->
  (Permutation (map (TransposeInt.position (length arg_shape)) axes)
               (seq 0 (length arg_shape)) ->
   TransposeInt.forward t x
   = Ok (Closed.permuted x
           (map (TransposeInt.position (length arg_shape)) axes)))
  /\ (~ Permutation (map (TransposeInt.position (length arg_shape)) axes)
                    (seq 0 (length arg_shape)) ->
      TransposeInt.forward t x = Raise ValueError)
  /\ (forall tn : Transpose.node,
        TransposeInt.forward (TransposeInt.of_nat_node tn) x
        = Transpose.forward tn x).
Proof.
  intros Hinit Hsx.
  destruct (TransposeIntFacts.init_inv _ _ _ Hinit) as (Ha & _ & Hv & Hsh).
  assert (Hnorm : TransposeInt.np_transpose (Np.as_view x) axes
                  = Np.transpose (Np.as_view x)
                      (map (TransposeInt.position (length arg_shape)) axes)).
  { unfold TransposeInt.np_transpose. cbn [Np.as_view Np.vshape].
    rewrite Hsx, TransposeIntFacts.normalize_ok by assumption.
    reflexivity. }
  split; [|split].
  - intros Hp. unfold TransposeInt.forward. rewrite Ha, Hnorm, Hsh.
    rewrite <- Hsx. apply PermuteFacts.transpose_copy. now rewrite Hsx.
  - intros Hnp. unfold TransposeInt.forward. rewrite Ha, Hnorm.
    unfold Np.transpose. cbn [Np.as_view Np.vshape]. rewrite Hsx.
    destruct (Np.is_perm (map (TransposeInt.position (length arg_shape)) axes)
                         (length arg_shape)) eqn:E; [|reflexivity].
    exfalso. apply Hnp. now apply Permutation_of_is_perm.
  - intros tn. apply TransposeIntFacts.forward_of_nat.
Qed.

Lemma transpose_forward_needs_permutation_witness :
  TransposeInt.forward
    (TransposeInt.mk_node [(-1)%Z; 0%Z] [1; 0] (LinOp.init [[2; 3]] [3; 2]))
    (Np.mk_ndarray [2; 3] [1; 2; 3; 4; 5; 6]%R)
  = Ok (Closed.permuted (Np.mk_ndarray [2; 3] [1; 2; 3; 4; 5; 6]%R)
          (map (TransposeInt.position (length [2; 3])) [(-1)%Z; 0%Z]))
  /\ TransposeInt.forward
       (TransposeInt.mk_node [0%Z; 0%Z] [1; 1] (LinOp.init [[2; 3]] [2; 2]))
       (Np.mk_ndarray [2; 3] [1; 2; 3; 4; 5; 6]%R)
     = Raise ValueError.
Proof.
  split.
  - apply (proj1 (transpose_forward_needs_permutation [2; 3] [(-1)%Z; 0%Z]
             (TransposeInt.mk_node [(-1)%Z; 0%Z] [1; 0]
                (LinOp.init [[2; 3]] [3; 2]))
             (Np.mk_ndarray [2; 3] [1; 2; 3; 4; 5; 6]%R) eq_refl eq_refl)).
    simpl. apply perm_swap.
  - apply (proj1 (proj2 (transpose_forward_needs_permutation [2; 3]
             [0%Z; 0%Z]
             (TransposeInt.mk_node [0%Z; 0%Z] [1; 1]
                (LinOp.init [[2; 3]] [2; 2]))
             (Np.mk_ndarray [2; 3] [1; 2; 3; 4; 5; 6]%R) eq_refl eq_refl))).
    intros Hp. apply Permutation_sym in Hp.
    apply (Permutation_in 1) in Hp; simpl in *; intuition discriminate.
Defined.

(** X3. The other round trip of a [transpose] node built from a
    permutation: for every array [y] of the node's shape,
    [forward(adjoint(y))] is [y] itself. *)
Theorem transpose_forward_of_adjoint (arg_shape axes : list nat)
        (y : Np.ndarray) :
  Permutation axes (seq 0 (length arg_shape)) ->
  Np.shape y = gather arg_shape axes -> Np.wf y ->
  exists t x,
    Transpose.init arg_shape axes = Ok t
    /\ Transpose.adjoint t y = Ok x
    /\ Np.shape x = arg_shape
    /\ Transpose.forward t x = Ok y.
Proof.
  intros Hp Hsy Hwy.
  destruct (TransposeFacts.init_perm arg_shape axes Hp)
    as (inv & Hinit & Hli & Hleft & Hright & Hpi).
  pose proof (TransposeMore.perm_length _ _ Hp) as Hla.
  assert (Hshape : gather (gather arg_shape axes) inv = arg_shape).
  { apply PermuteFacts.gather_gather_inv; auto.
    intros m Hm. now apply TransposeMore.perm_nth_lt. }
  assert (Hly : length (Np.shape y) = length arg_shape).
  { now rewrite Hsy, gather_length. }
  exists (Transpose.mk_node axes inv
            (LinOp.init [arg_shape] (gather arg_shape axes))).
  exists (Closed.permuted y inv).
  split; [exact Hinit|].
  split; [now apply TransposeSpec.adjoint_perm|].
  assert (Hsx : Np.shape (Closed.permuted y inv) = arg_shape).
  { unfold Closed.permuted. simpl. now rewrite Hsy. }
  split; [exact Hsx|].
  rewrite TransposeSpec.forward_perm by assumption.
  f_equal. apply PermuteFacts.permuted_permuted; rewrite ?Hly; auto.
Qed.

Lemma transpose_forward_of_adjoint_witness :
  exists t x,
    Transpose.init [2; 3] [1; 0] = Ok t
    /\ Transpose.adjoint t (Np.mk_ndarray [3; 2] [1; 4; 2; 5; 3; 6]%R) = Ok x
    /\ Np.shape x = [2; 3]
    /\ Transpose.forward t x = Ok (Np.mk_ndarray [3; 2] [1; 4; 2; 5; 3; 6]%R).
Proof.
  apply (transpose_forward_of_adjoint [2; 3] [1; 0]
           (Np.mk_ndarray [3; 2] [1; 4; 2; 5; 3; 6]%R)).
  - simpl. apply perm_swap.
  - reflexivity.
  - reflexivity.
Defined.

(** X4. A [transpose] node built from a permutation preserves the inner
    product of an array with itself, [<forward(x), forward(x)> = <x, x>], so
    the factor 1 of its [norm_bound], which returns [input_mags[0]]
    unchanged, is exact. *)
Theorem transpose_isometry (arg_shape axes : list nat) (x : Np.ndarray)
        (m : R) (ms : list R) :
  Permutation axes (seq 0 (length arg_shape)) ->
  Np.shape x = arg_shape -> Np.wf x ->
  exists t fx r,
    Transpose.init arg_shape axes = Ok t
    /\ Transpose.forward t x = Ok fx
    /\ Np.inner fx fx = Ok r
    /\ Np.inner x x = Ok r
    /\ Transpose.norm_bound t (m :: ms) = Ok m.
Proof.
  intros Hp Hsx Hwx.
  destruct (TransposeFacts.init_perm arg_shape axes Hp)
    as (inv & Hinit & Hli & Hleft & Hright & Hpi).
  pose proof (TransposeMore.perm_length _ _ Hp) as Hla.
  assert (Hshape : gather (gather arg_shape axes) inv = arg_shape).
  { apply PermuteFacts.gather_gather_inv; auto.
    intros k Hk. now apply TransposeMore.perm_nth_lt. }
  set (y := Closed.permuted x axes).
  assert (Hsy : Np.shape y = gather arg_shape axes).
  { unfold y, Closed.permuted. simpl. now rewrite Hsx. }
  destruct (AdjointFacts.transpose_identity arg_shape axes x y Hp Hsx Hwx Hsy
              (PermuteFacts.permuted_wf x axes))
    as (t & fx & ay & r & Hi & Hf & Ha & Hr1 & Hr2).
  rewrite Hinit in Hi. inversion Hi; subst t. clear Hi.
  rewrite TransposeSpec.forward_perm in Hf by assumption.
  inversion Hf; subst fx. clear Hf.
  rewrite TransposeSpec.adjoint_perm in Ha by assumption.
  inversion Ha; subst ay. clear Ha.
  assert (Hback : Closed.permuted y inv = x).
  { unfold y. apply PermuteFacts.permuted_permuted; rewrite ?Hsx; auto. }
  rewrite Hback in Hr2.
  exists (Transpose.mk_node axes inv
            (LinOp.init [arg_shape] (gather arg_shape axes))), y, r.
  repeat split; auto.
  now apply TransposeSpec.forward_perm.
Qed.

Lemma transpose_isometry_witness :
  exists t fx r,
    Transpose.init [2; 3] [1; 0] = Ok t
    /\ Transpose.forward t (Np.mk_ndarray [2; 3] [1; 2; 3; 4; 5; 6]%R) = Ok fx
    /\ Np.inner fx fx = Ok r
    /\ Np.inner (Np.mk_ndarray [2; 3] [1; 2; 3; 4; 5; 6]%R)
                (Np.mk_ndarray [2; 3] [1; 2; 3; 4; 5; 6]%R) = Ok r
    /\ Transpose.norm_bound t (7%R :: []) = Ok 7%R.
Proof.
  apply (transpose_isometry [2; 3] [1; 0]
           (Np.mk_ndarray [2; 3] [1; 2; 3; 4; 5; 6]%R) 7%R []).
  - simpl. apply perm_swap.
  - reflexivity.
  - reflexivity.
Defined.

(** X5. The index lists of the emitters agree with the host operators.  For
    a node built from a permutation and a valid multi-index [absidx] of the
    node's shape, [forward_cuda] hands its input node the index list
    [absidx[i] for i in inverse], which is a valid multi-index of the input,
    and the element of [forward(x)] at [absidx] is the element of [x] at
    that list.  Likewise [adjoint_cuda] hands on [absidx[i] for i in axes]
    for a multi-index of the input's shape, and the element of
    [adjoint(y)] at [absidx] is the element of [y] at that list.  An index
    list with fewer terms than there are axes makes both emitters raise
    [IndexError] before the neighbour is asked. *)
Theorem transpose_cuda_index (arg_shape axes : list nat) (x y : Np.ndarray) :
  Permutation axes (seq 0 (length arg_shape)) ->
  Np.shape x = arg_shape -> Np.shape y = gather arg_shape axes ->
  exists t fx ay,
    Transpose.init arg_shape axes = Ok t
    /\ Transpose.forward t x = Ok fx
    /\ Transpose.adjoint t y = Ok ay
    /\ (forall absidx, Forall2 lt absidx (Transpose.shape t) ->
          exists new_idx,
            (forall innode n,
                TransposeCuda.forward_cuda t innode n absidx
                = innode n new_idx)
            /\ Forall2 lt new_idx arg_shape
            /\ Np.item (Np.as_view fx) absidx = Np.item (Np.as_view x) new_idx)
    /\ (forall absidx, Forall2 lt absidx arg_shape ->
          exists new_idx,
            (forall outnode n,
                TransposeCuda.adjoint_cuda t outnode n absidx
                = outnode n new_idx)
            /\ Forall2 lt new_idx (Transpose.shape t)
            /\ Np.item (Np.as_view ay) absidx = Np.item (Np.as_view y) new_idx)
    /\ (forall (T : Type) (absidx : list T) (node : Cuda.emitter T) (n : nat),
          length absidx < length axes ->
          TransposeCuda.forward_cuda t node n absidx = Raise IndexError
          /\ TransposeCuda.adjoint_cuda t node n absidx = Raise IndexError).
Proof.
  intros Hp Hsx Hsy.
  destruct (TransposeFacts.init_perm arg_shape axes Hp)
    as (inv & Hinit & Hli & Hleft & Hright & Hpi).
  pose proof (TransposeMore.perm_length _ _ Hp) as Hla.
  assert (Hshape : gather (gather arg_shape axes) inv = arg_shape).
  { apply PermuteFacts.gather_gather_inv; auto.
    intros k Hk. now apply TransposeMore.perm_nth_lt. }
  exists (Transpose.mk_node axes inv
            (LinOp.init [arg_shape] (gather arg_shape axes))).
  exists (Closed.permuted x axes), (Closed.permuted y inv).
  split; [exact Hinit|].
  split; [now apply TransposeSpec.forward_perm|].
  split; [now apply TransposeSpec.adjoint_perm|].
  split; [|split].
  - intros absidx Hidx. unfold Transpose.shape in Hidx. simpl in Hidx.
    exists (gather absidx inv).
    destruct (TransposeMore.permuted_item arg_shape axes inv x absidx)
      as (Hv & Hitem); auto.
    split; [|split; assumption].
    intros innode n. unfold TransposeCuda.forward_cuda. simpl.
    rewrite TransposeMore.remap_gather; [reflexivity|].
    rewrite (Forall2_length Hidx), gather_length, Hla.
    now apply TransposeFacts.perm_range.
  - intros absidx Hidx.
    exists (gather absidx axes).
    assert (Hly : length (gather arg_shape axes) = length arg_shape).
    { now rewrite gather_length. }
    destruct (TransposeMore.permuted_item (gather arg_shape axes) inv axes y
                absidx) as (Hv & Hitem); rewrite ?Hly, ?Hshape; auto.
    split; [|split; assumption].
    intros outnode n. unfold TransposeCuda.adjoint_cuda. simpl.
    rewrite TransposeMore.remap_gather; [reflexivity|].
    rewrite (Forall2_length Hidx). now apply TransposeFacts.perm_range.
  - intros T absidx node n Hshort.
    assert (Hbad : forall p, Permutation p (seq 0 (length arg_shape)) ->
                     ~ Forall (fun m => m < length absidx) p).
    { intros p Hpp Hall.
      assert (Hin : In (length arg_shape - 1) p).
      { apply (Permutation_in _ (Permutation_sym Hpp)), in_seq. lia. }
      rewrite Forall_forall in Hall. apply Hall in Hin. lia. }
    unfold TransposeCuda.forward_cuda, TransposeCuda.adjoint_cuda. simpl.
    rewrite !TransposeMore.remap_out_of_range by auto.
    split; reflexivity.
Qed.

Lemma transpose_cuda_index_witness :
  exists t fx ay,
    Transpose.init [2; 3] [1; 0] = Ok t
    /\ Transpose.forward t (Np.mk_ndarray [2; 3] [1; 2; 3; 4; 5; 6]%R) = Ok fx
    /\ Transpose.adjoint t (Np.mk_ndarray [3; 2] [1; 4; 2; 5; 3; 6]%R) = Ok ay
    /\ (forall absidx, Forall2 lt absidx (Transpose.shape t) ->
          exists new_idx,
            (forall innode n,
                TransposeCuda.forward_cuda t innode n absidx
                = innode n new_idx)
            /\ Forall2 lt new_idx [2; 3]
            /\ Np.item (Np.as_view fx) absidx
               = Np.item (Np.as_view (Np.mk_ndarray [2; 3] [1; 2; 3; 4; 5; 6]%R))
                         new_idx)
    /\ (forall absidx, Forall2 lt absidx [2; 3] ->
          exists new_idx,
            (forall outnode n,
                TransposeCuda.adjoint_cuda t outnode n absidx
                = outnode n new_idx)
            /\ Forall2 lt new_idx (Transpose.shape t)
            /\ Np.item (Np.as_view ay) absidx
               = Np.item (Np.as_view (Np.mk_ndarray [3; 2] [1; 4; 2; 5; 3; 6]%R))
                         new_idx)
    /\ (forall (T : Type) (absidx : list T) (node : Cuda.emitter T) (n : nat),
          length absidx < length [1; 0] ->
          TransposeCuda.forward_cuda t node n absidx = Raise IndexError
          /\ TransposeCuda.adjoint_cuda t node n absidx = Raise IndexError).
Proof.
  apply (transpose_cuda_index [2; 3] [1; 0]
           (Np.mk_ndarray [2; 3] [1; 2; 3; 4; 5; 6]%R)
           (Np.mk_ndarray [3; 2] [1; 4; 2; 5; 3; 6]%R)).
  - simpl. apply perm_swap.
  - reflexivity.
  - reflexivity.
Defined.

(** ** [pxwise_matrixmult]: inputs of another trailing dimension, linearity *)

Module PxwiseMore.
Import Np NpFacts WindowFacts AccumulateFacts PxwiseLoops RSum Closed.

Lemma for_each_app {X S : Type} (body : S -> X -> result S) (l1 l2 : list X)
      (s : S) :
  for_each body (l1 ++ l2) s
  = (s' <- for_each body l1 s ;; for_each body l2 s').
Proof.
  revert s; induction l1 as [|x l1 IH]; intros s; simpl; [reflexivity|].
  destruct (body s x) as [s1|e]; simpl; [apply IH|reflexivity].
Qed.

(** [a[..., j]] beyond the last axis. *)
Lemma ell1_out (lead : list nat) (M j : nat) (buf : list R) :
  M <= j ->
  ell1 (as_view (mk_ndarray (lead ++ [M]) buf)) j = Raise IndexError.
Proof.
  intros Hj. unfold ell1, as_view; simpl.
  rewrite length_app; simpl.
  replace (length lead + 1 - 1) with (length lead) by lia.
  destruct (length lead + 1 <? 1) eqn:E; [reflexivity|].
  rewrite <- (Nat.add_0_r (length lead)) at 1.
  rewrite app_nth2_plus. simpl.
  destruct (Nat.ltb_spec j M); [lia|reflexivity].
Qed.

(** Shapes that differ in their last extent only cannot be broadcast to
    one another unless the source extent is 1. *)
Lemma bcast_strides_last (lead : list nat) (M M' : nat) :
  M <> M' -> M <> 1 ->
  forall st, bcast_strides (lead ++ [M]) st (lead ++ [M']) = None.
Proof.
  intros Hne H1. induction lead as [|d lead IH]; intros st; simpl.
  - destruct st as [|s [|s' st]]; try reflexivity.
    destruct (Nat.eqb_spec M M'); [contradiction|].
    destruct (Nat.eqb_spec M 1); [contradiction|reflexivity].
  - destruct st as [|s st]; [reflexivity|]. now rewrite IH.
Qed.

Lemma copyto_last_mismatch (lead : list nat) (M M' : nat) (d : list R) :
  M <> M' -> M <> 1 ->
  copyto (lead ++ [M']) (as_view (mk_ndarray (lead ++ [M]) d))
  = Raise ValueError.
Proof.
  intros Hne H1. unfold copyto, as_view.
  cbn [vshape vstrides voffset vbase shape data].
  rewrite !length_app. cbn [length]. rewrite Nat.sub_diag.
  cbn [strip_ones]. unfold broadcast_to.
  cbn [vshape vstrides voffset vbase].
  rewrite !length_app. cbn [length].
  rewrite Nat.ltb_irrefl, Nat.sub_diag. cbn [skipn].
  now rewrite bcast_strides_last.
Qed.

Section Node.
Variables (lead : list nat) (N M M' : nat) (Ad : list R) (nb : option R).

Let t : Pxwise.node :=
  Pxwise.mk_node (mk_ndarray (lead ++ [N; M]) Ad) nb
                 (LinOp.init [lead ++ [M']] (lead ++ [N])).

(** [forward] on an input whose last axis is at least as long as [M]. *)
Lemma forward_wide (xd : list R) :
  M <= M' ->
  exists F,
    Pxwise.forward t (mk_ndarray (lead ++ [M']) xd)
    = Ok (mk_ndarray (lead ++ [N]) F)
    /\ length F = size lead * N
    /\ forall q i, q < size lead -> i < N ->
         nth (q * N + i) F 0%R
         = rsum (fun j => (Aget Ad N M q i j * xget xd M' q j)%R) M.
Proof.
  intros HM. unfold Pxwise.forward, t. simpl.
  rewrite from_end_2, drop_last_1_2. simpl.
  destruct (outer_loop lead N
    (fun res i =>
       M0 <- from_end 1 (lead ++ [N; M]) ;;
       for_each (fun res j =>
         a <- ell2 (as_view (mk_ndarray (lead ++ [N; M]) Ad)) i j ;;
         x <- ell1 (as_view (mk_ndarray (lead ++ [M']) xd)) j ;;
         Pxwise.accumulate res i a x) (seq 0 M0) res)
    (fun q i r0 =>
       fold_left (fun acc j => (acc + Aget Ad N M q i j * xget xd M' q j)%R)
                 (seq 0 M) r0))
    with N 0 (repeat 0%R (size (lead ++ [N]))) as (F & Hrun & HF & Hnth).
  - intros i d Hi Hd. rewrite from_end_1_2. simpl.
    apply (inner_loop lead N i
             (fun j => ell2 (as_view (mk_ndarray (lead ++ [N; M]) Ad)) i j)
             (fun j => ell1 (as_view (mk_ndarray (lead ++ [M']) xd)) j)
             (fun q j => Aget Ad N M q i j) (fun q j => xget xd M' q j));
      auto.
    + intros j Hj. apply in_seq in Hj.
      rewrite ell2_tail by lia. apply shows_scaled.
    + intros j Hj. apply in_seq in Hj.
      rewrite ell1_tail by lia. apply shows_scaled.
  - lia.
  - rewrite repeat_length, size_app. simpl. lia.
  - unfold zeros. simpl in Hrun. rewrite Hrun. simpl.
    unfold Pxwise.shape. simpl.
    rewrite copyto_same by (rewrite size_app; simpl; lia).
    exists F. repeat split; auto.
    intros q i Hq Hi. rewrite (Hnth q i Hq Hi).
    replace (0 <=? i) with true by (symmetry; now apply Nat.leb_le; lia).
    replace (i <? 0 + N) with true by (symmetry; apply Nat.ltb_lt; lia).
    simpl. rewrite nth_repeat_0, fold_acc. lra.
Qed.

(** [forward] on an input whose last axis is shorter than [M]: the first
    row of products runs out of components. *)
Lemma forward_short (xd : list R) :
  M' < M -> 0 < N ->
  Pxwise.forward t (mk_ndarray (lead ++ [M']) xd) = Raise IndexError.
Proof.
  intros HM HN. unfold Pxwise.forward, t. simpl.
  rewrite from_end_2, drop_last_1_2. simpl.
  destruct N as [|N']; [lia|]. cbn [seq for_each].
  rewrite from_end_1_2. cbn [bind].
  replace M with (M' + (M - M')) at 1 by lia.
  rewrite seq_app, for_each_app.
  destruct (inner_loop lead (S N') 0
              (fun j => ell2 (as_view (mk_ndarray (lead ++ [S N'; M]) Ad)) 0 j)
              (fun j => ell1 (as_view (mk_ndarray (lead ++ [M']) xd)) j)
              (fun q j => Aget Ad (S N') M q 0 j) (fun q j => xget xd M' q j)
              (seq 0 M'))
    with (d := repeat 0%R (size (lead ++ [S N']))) as (d' & Hrun & _).
  - lia.
  - intros j Hj. apply in_seq in Hj.
    rewrite ell2_tail by lia. apply shows_scaled.
  - intros j Hj. apply in_seq in Hj.
    rewrite ell1_tail by lia. apply shows_scaled.
  - rewrite repeat_length, size_app. simpl. lia.
  - unfold zeros. rewrite Hrun. cbn [bind].
    destruct (M - M') as [|k] eqn:E; [lia|]. cbn [seq for_each].
    rewrite ell2_tail by lia. cbn [bind].
    rewrite ell1_out by lia. reflexivity.
Qed.

(** [adjoint] towards an input buffer whose last axis is not [M]: the sums
    are formed, and the final copy is refused. *)
Lemma adjoint_mismatch (yd : list R) :
  M' <> M -> M <> 1 ->
  Pxwise.adjoint t (mk_ndarray (lead ++ [N]) yd) = Raise ValueError.
Proof.
  intros Hne H1. unfold Pxwise.adjoint, t. simpl.
  rewrite from_end_1_2, drop_last_2. simpl.
  destruct (outer_loop lead M
    (fun res i =>
       N0 <- from_end 2 (lead ++ [N; M]) ;;
       for_each (fun res j =>
         a <- ell2 (as_view (mk_ndarray (lead ++ [N; M]) Ad)) j i ;;
         y <- ell1 (as_view (mk_ndarray (lead ++ [N]) yd)) j ;;
         Pxwise.accumulate res i a y) (seq 0 N0) res)
    (fun q i r0 =>
       fold_left (fun acc j => (acc + Aget Ad N M q j i * xget yd N q j)%R)
                 (seq 0 N) r0))
    with M 0 (repeat 0%R (size (lead ++ [M]))) as (G & Hrun & HG & Hnth).
  - intros i d Hi Hd. rewrite from_end_2. simpl.
    apply (inner_loop lead M i
             (fun j => ell2 (as_view (mk_ndarray (lead ++ [N; M]) Ad)) j i)
             (fun j => ell1 (as_view (mk_ndarray (lead ++ [N]) yd)) j)
             (fun q j => Aget Ad N M q j i) (fun q j => xget yd N q j));
      auto.
    + intros j Hj. apply in_seq in Hj.
      rewrite ell2_tail by lia. apply shows_scaled.
    + intros j Hj. apply in_seq in Hj.
      rewrite ell1_tail by lia. apply shows_scaled.
  - lia.
  - rewrite repeat_length, size_app. simpl. lia.
  - unfold zeros. simpl in Hrun. rewrite Hrun. simpl.
    unfold Pxwise.arg_shape. simpl.
    apply copyto_last_mismatch; auto.
Qed.

End Node.

(** A component of a linear combination of two inputs. *)
Lemma xget_combination (c1 c2 : R) (xd1 xd2 : list R) (P M q j : nat) :
  length xd1 = P * M -> length xd2 = P * M -> q < P -> j < M ->
  xget (map2 (fun a b => (c1 * a + c2 * b)%R) xd1 xd2) M q j
  = (c1 * xget xd1 M q j + c2 * xget xd2 M q j)%R.
Proof.
  intros H1 H2 Hq Hj. unfold xget.
  assert (Hk : j + q * M < P * M) by nia.
  rewrite map2_nth by lia.
  rewrite (nth_map_in _ _ _ 0%nat) by (rewrite length_seq; lia).
  now rewrite seq_nth by lia.
Qed.

End PxwiseMore.

(** X6. A [pxwise_matrixmult] node whose input has a longer last axis than
    the [M] columns of [A] (the constructor accepts it) evaluates [forward]
    without complaint on the first [M] components of every pixel and never
    reads the others:
    [y[pixel,i] = sum_{j < M} A[pixel,i,j]*x[pixel,j]]. *)
Theorem pxwise_forward_ignores_tail (lead : list nat) (N M M' : nat)
        (Ad : list R) (nb : option R) (xd : list R) :
  M <= M' ->
  exists t F,
    Pxwise.init (Np.mk_ndarray (lead ++ [N; M]) Ad) (lead ++ [M']) nb = Ok t
    /\ Pxwise.forward t (Np.mk_ndarray (lead ++ [M']) xd)
       = Ok (Np.mk_ndarray (lead ++ [N]) F)
    /\ length F = Np.size lead * N
    /\ forall q i, q < Np.size lead -> i < N ->
         nth (q * N + i) F 0%R
         = Closed.rsum (fun j => (Closed.Aget Ad N M q i j
                                  * Closed.xget xd M' q j)%R) M.
Proof.
  intros HM.
  destruct (PxwiseMore.forward_wide lead N M M' Ad nb xd HM)
    as (F & Hf & HF & Hn).
  eexists. exists F. split; [apply AdjointFacts.init_matching|].
  split; [exact Hf|]. split; assumption.
Qed.

Lemma pxwise_forward_ignores_tail_witness :
  exists t F,
    Pxwise.init (Np.mk_ndarray ([1] ++ [2; 2]) [2; 0; 0; 3]%R) ([1] ++ [3]) None
    = Ok t
    /\ Pxwise.forward t (Np.mk_ndarray ([1] ++ [3]) [1; 1; 7]%R)
       = Ok (Np.mk_ndarray ([1] ++ [2]) F)
    /\ length F = Np.size [1] * 2
    /\ forall q i, q < Np.size [1] -> i < 2 ->
         nth (q * 2 + i) F 0%R
         = Closed.rsum (fun j => (Closed.Aget [2; 0; 0; 3]%R 2 2 q i j
                                  * Closed.xget [1; 1; 7]%R 3 q j)%R) 2.
Proof.
  apply (pxwise_forward_ignores_tail [1] 2 2 3 [2; 0; 0; 3]%R None
           [1; 1; 7]%R).
  lia.
Defined.

(** X7. A [pxwise_matrixmult] node whose input has a shorter last axis than
    the [M] columns of [A] is accepted by the constructor, and every call of
    [forward] raises [IndexError] (for [N >= 1] rows), whatever the
    contents of the input. *)
Theorem pxwise_forward_short_input (lead : list nat) (N M M' : nat)
        (Ad : list R) (nb : option R) (xd : list R) :
  M' < M -> 0 < N ->
  exists t,
    Pxwise.init (Np.mk_ndarray (lead ++ [N; M]) Ad) (lead ++ [M']) nb = Ok t
    /\ Pxwise.forward t (Np.mk_ndarray (lead ++ [M']) xd) = Raise IndexError.
Proof.
  intros HM HN. eexists. split; [apply AdjointFacts.init_matching|].
  now apply PxwiseMore.forward_short.
Qed.

Lemma pxwise_forward_short_input_witness :
  exists t,
    Pxwise.init (Np.mk_ndarray ([1] ++ [2; 2]) [2; 0; 0; 3]%R) ([1] ++ [1]) None
    = Ok t
    /\ Pxwise.forward t (Np.mk_ndarray ([1] ++ [1]) [1%R]) = Raise IndexError.
Proof.
  apply (pxwise_forward_short_input [1] 2 2 1 [2; 0; 0; 3]%R None [1%R]); lia.
Defined.

(** X8. A [pxwise_matrixmult] node whose input's last axis differs from the
    [M] columns of [A] (with [M <> 1]) is accepted by the constructor, and
    every call of [adjoint] raises [ValueError]: the sums are formed in an
    array of last axis [M], which cannot be copied into the input's
    buffer. *)
Theorem pxwise_adjoint_wrong_input (lead : list nat) (N M M' : nat)
        (Ad : list R) (nb : option R) (yd : list R) :
  M' <> M -> M <> 1 ->
  exists t,
    Pxwise.init (Np.mk_ndarray (lead ++ [N; M]) Ad) (lead ++ [M']) nb = Ok t
    /\ Pxwise.adjoint t (Np.mk_ndarray (lead ++ [N]) yd) = Raise ValueError.
Proof.
  intros Hne H1. eexists. split; [apply AdjointFacts.init_matching|].
  now apply PxwiseMore.adjoint_mismatch.
Qed.

Lemma pxwise_adjoint_wrong_input_witness :
  exists t,
    Pxwise.init (Np.mk_ndarray ([1] ++ [2; 2]) [2; 0; 0; 3]%R) ([1] ++ [3]) None
    = Ok t
    /\ Pxwise.adjoint t (Np.mk_ndarray ([1] ++ [2]) [1; 1]%R)
       = Raise ValueError.
Proof.
  apply (pxwise_adjoint_wrong_input [1] 2 2 3 [2; 0; 0; 3]%R None [1; 1]%R);
    lia.
Defined.

(** X9. [forward] of a [pxwise_matrixmult] node is linear over the reals:
    on the combination [c1*x1 + c2*x2] of two inputs of the input's shape it
    returns, entry by entry, [c1*forward(x1) + c2*forward(x2)]. *)
Theorem pxwise_forward_linear (lead : list nat) (N M : nat) (Ad : list R)
        (nb : option R) (c1 c2 : R) (xd1 xd2 : list R) :
  length xd1 = Np.size lead * M -> length xd2 = Np.size lead * M ->
  exists t F1 F2 F,
    Pxwise.init (Np.mk_ndarray (lead ++ [N; M]) Ad) (lead ++ [M]) nb = Ok t
    /\ Pxwise.forward t (Np.mk_ndarray (lead ++ [M]) xd1)
       = Ok (Np.mk_ndarray (lead ++ [N]) F1)
    /\ Pxwise.forward t (Np.mk_ndarray (lead ++ [M]) xd2)
       = Ok (Np.mk_ndarray (lead ++ [N]) F2)
    /\ Pxwise.forward t
         (Np.mk_ndarray (lead ++ [M])
            (map2 (fun a b => (c1 * a + c2 * b)%R) xd1 xd2))
       = Ok (Np.mk_ndarray (lead ++ [N]) F)
    /\ forall q i, q < Np.size lead -> i < N ->
         nth (q * N + i) F 0%R
         = (c1 * nth (q * N + i) F1 0 + c2 * nth (q * N + i) F2 0)%R.
Proof.
  intros H1 H2.
  destruct (PxwiseMore.forward_wide lead N M M Ad nb xd1 (le_n M))
    as (F1 & Hf1 & _ & Hn1).
  destruct (PxwiseMore.forward_wide lead N M M Ad nb xd2 (le_n M))
    as (F2 & Hf2 & _ & Hn2).
  destruct (PxwiseMore.forward_wide lead N M M Ad nb
              (map2 (fun a b => (c1 * a + c2 * b)%R) xd1 xd2) (le_n M))
    as (F & Hf & _ & Hn).
  eexists. exists F1, F2, F. split; [apply AdjointFacts.init_matching|].
  split; [exact Hf1|]. split; [exact Hf2|]. split; [exact Hf|].
  intros q i Hq Hi.
  rewrite (Hn q i Hq Hi), (Hn1 q i Hq Hi), (Hn2 q i Hq Hi).
  rewrite !RSum.rsum_mult_l, <- RSum.rsum_plus.
  apply RSum.rsum_ext. intros j Hj.
  rewrite (PxwiseMore.xget_combination c1 c2 xd1 xd2 (Np.size lead)) by auto.
  ring.
Qed.

Lemma pxwise_forward_linear_witness :
  exists t F1 F2 F,
    Pxwise.init (Np.mk_ndarray ([1] ++ [2; 2]) [2; 0; 0; 3]%R) ([1] ++ [2]) None
    = Ok t
    /\ Pxwise.forward t (Np.mk_ndarray ([1] ++ [2]) [1; 1]%R)
       = Ok (Np.mk_ndarray ([1] ++ [2]) F1)
    /\ Pxwise.forward t (Np.mk_ndarray ([1] ++ [2]) [0; 1]%R)
       = Ok (Np.mk_ndarray ([1] ++ [2]) F2)
    /\ Pxwise.forward t
         (Np.mk_ndarray ([1] ++ [2])
            (map2 (fun a b => (2 * a + 5 * b)%R) [1; 1]%R [0; 1]%R))
       = Ok (Np.mk_ndarray ([1] ++ [2]) F)
    /\ forall q i, q < Np.size [1] -> i < 2 ->
         nth (q * 2 + i) F 0%R
         = (2 * nth (q * 2 + i) F1 0 + 5 * nth (q * 2 + i) F2 0)%R.
Proof.
  apply (pxwise_forward_linear [1] 2 2 [2; 0; 0; 3]%R None 2%R 5%R
           [1; 1]%R [0; 1]%R); reflexivity.
Defined.

(** ** [pxwise_matrixmult.norm_bound]: a single 2 x 2 matrix *)

Module NormBoundMore.
Import Closed.
Local Open Scope R_scope.

(** The loops over [ATA] and the closed form, for arbitrary entries. *)
Lemma computed_2x2 (a11 a12 a21 a22 : R) (base : LinOp.t) :
  Pxwise.computed_bound
    (Pxwise.mk_node (one_pixel 2 2 [a11; a12; a21; a22]) None base)
  = Ok (closed_2x2 (0 + a11 * a11 + a21 * a21) (0 + a11 * a12 + a21 * a22)
                   (0 + a12 * a11 + a22 * a21) (0 + a12 * a12 + a22 * a22)).
Proof. reflexivity. Qed.

(** For a symmetric positive semidefinite [[p, q], [q, s]] the closed form
    is the larger root of the characteristic polynomial. *)
Lemma closed_2x2_sym (p q s : R) :
  0 <= p -> 0 <= s ->
  0 <= closed_2x2 p q q s
  /\ p <= closed_2x2 p q q s
  /\ s <= closed_2x2 p q q s
  /\ (closed_2x2 p q q s - p) * (closed_2x2 p q q s - s) = q * q.
Proof.
  intros Hp Hs. unfold closed_2x2.
  set (disc := (p + s) ^ 2 - 4 * (p * s - q * q)).
  assert (Hdisc : disc = (p - s) * (p - s) + 4 * (q * q)).
  { unfold disc. ring. }
  assert (Hd : 0 <= disc).
  { rewrite Hdisc. pose proof (Rle_0_sqr (p - s)) as H1.
    pose proof (Rle_0_sqr q) as H2. unfold Rsqr in H1, H2. lra. }
  rewrite (Rmax_right 0 disc) by exact Hd.
  pose proof (sqrt_pos disc) as Hg.
  pose proof (sqrt_sqrt disc Hd) as Hgg.
  set (g := sqrt disc) in *.
  rewrite (Rmax_left ((p + s + g) * / 2) ((p + s - g) * / 2)) by lra.
  unfold Pxwise.py_max.
  destruct (Rlt_dec ((p + s + g) * / 2) 0) as [Hneg|_]; [lra|].
  assert (Hps : (p - s) * (p - s) <= g * g).
  { rewrite Hgg, Hdisc. pose proof (Rle_0_sqr q) as H2.
    unfold Rsqr in H2. lra. }
  assert (Hge1 : p - s <= g) by nra.
  assert (Hge2 : s - p <= g) by nra.
  split; [lra|]. split; [lra|]. split; [lra|].
  replace (((p + s + g) * / 2 - p) * ((p + s + g) * / 2 - s))
    with ((g * g - (p - s) * (p - s)) * / 4) by field.
  rewrite Hgg, Hdisc. field.
Qed.

(** A quadratic form whose matrix has determinant 0 and a nonnegative
    diagonal is nonnegative. *)
Lemma form_nonneg (u w q x1 x2 : R) :
  0 <= u -> 0 <= w -> u * w = q * q ->
  0 <= u * (x1 * x1) - 2 * q * (x1 * x2) + w * (x2 * x2).
Proof.
  intros Hu Hw Huw.
  set (F := u * (x1 * x1) - 2 * q * (x1 * x2) + w * (x2 * x2)).
  assert (HF : (u + w) * F
               = (u * x1 - q * x2) * (u * x1 - q * x2)
                 + (w * x2 - q * x1) * (w * x2 - q * x1)).
  { unfold F.
    replace ((u * x1 - q * x2) * (u * x1 - q * x2)
             + (w * x2 - q * x1) * (w * x2 - q * x1))
      with ((u * u + q * q) * (x1 * x1) - 2 * q * (u + w) * (x1 * x2)
            + (w * w + q * q) * (x2 * x2)) by ring.
    rewrite <- Huw. ring. }
  destruct (Req_dec_T (u + w) 0) as [E|E].
  - assert (Hu0 : u = 0) by lra. assert (Hw0 : w = 0) by lra.
    assert (Hq : q * q = 0) by (rewrite <- Huw, Hu0; ring).
    assert (Hq0 : q = 0) by (destruct (Rmult_integral _ _ Hq); assumption).
    unfold F. rewrite Hu0, Hw0, Hq0. lra.
  - assert (Hpos : 0 < u + w) by lra.
    assert (Hprod : 0 <= (u + w) * F).
    { rewrite HF.
      pose proof (Rle_0_sqr (u * x1 - q * x2)) as H1.
      pose proof (Rle_0_sqr (w * x2 - q * x1)) as H2.
      unfold Rsqr in H1, H2. lra. }
    destruct (Rle_lt_dec 0 F) as [HF0|HF0]; [exact HF0|].
    exfalso.
    assert (Hneg : (u + w) * F < 0).
    { replace ((u + w) * F) with (- ((u + w) * (- F))) by ring.
      assert (0 < (u + w) * (- F)) by (apply Rmult_lt_0_compat; lra).
      lra. }
    lra.
Qed.

End NormBoundMore.

(** X10. For a node holding a single 2 x 2 matrix [A] and no override,
    [norm_bound] returns [l * input_mags[0]] where [l >= 0] is a root of the
    characteristic polynomial of [ATA = [[p, q], [q, s]]] and bounds the
    squared gain of [forward]:
    [|forward(x)|^2 <= l * |x|^2] for every input [x].  So [l] is the
    largest eigenvalue of [ATA], the square of the operator norm of [A]. *)
Theorem norm_bound_2x2_spectral (a11 a12 a21 a22 m : R) (ms : list R) :
  exists t l,
    Pxwise.init (Np.mk_ndarray [2; 2] [a11; a12; a21; a22]) [2] None = Ok t
    /\ Pxwise.norm_bound t (m :: ms) = Ok (l * m)%R
    /\ (0 <= l)%R
    /\ (let p := a11 * a11 + a21 * a21 in
        let q := a11 * a12 + a21 * a22 in
        let s := a12 * a12 + a22 * a22 in
        l * l - (p + s) * l + (p * s - q * q) = 0)%R
    /\ forall x1 x2 : R,
         exists y1 y2,
           Pxwise.forward t (Np.mk_ndarray [2] [x1; x2])
           = Ok (Np.mk_ndarray [2] [y1; y2])
           /\ (y1 * y1 + y2 * y2 <= l * (x1 * x1 + x2 * x2))%R.
Proof.
  set (p := (a11 * a11 + a21 * a21)%R).
  set (q := (a11 * a12 + a21 * a22)%R).
  set (s := (a12 * a12 + a22 * a22)%R).
  assert (Hp : (0 <= p)%R) by (unfold p; nra).
  assert (Hs : (0 <= s)%R) by (unfold s; nra).
  destruct (NormBoundMore.closed_2x2_sym p q s Hp Hs) as (Hl & Hlp & Hls & Hdet).
  set (l := Closed.closed_2x2 p q q s) in *.
  exists (Pxwise.mk_node (Closed.one_pixel 2 2 [a11; a12; a21; a22]) None
            (LinOp.init [[2]] [2])), l.
  split; [reflexivity|]. split.
  { unfold Pxwise.norm_bound. cbn [Pxwise.normbound].
    rewrite NormBoundMore.computed_2x2. cbn [bind]. do 2 f_equal.
    unfold l, p, q, s. f_equal; ring. }
  split; [exact Hl|]. split.
  { cbv zeta. fold p q s.
    replace (l * l - (p + s) * l + (p * s - q * q))%R
      with ((l - p) * (l - s) - q * q)%R by ring.
    rewrite Hdet. ring. }
  intros x1 x2.
  exists (0 + a11 * x1 + a12 * x2)%R, (0 + a21 * x1 + a22 * x2)%R.
  split.
  { cbv -[Rplus Rmult]. reflexivity. }
  pose proof (NormBoundMore.form_nonneg (l - p) (l - s) q x1 x2) as Hform.
  assert (H0 : (0 <= (l - p) * (x1 * x1) - 2 * q * (x1 * x2)
                      + (l - s) * (x2 * x2))%R).
  { apply Hform; lra. }
  unfold p, q, s in H0. nra.
Qed.

(** ** [pxwise_matrixmult]: the emitters and their counter of temporaries *)

Module EmitFacts.
Import Cuda PxwiseCuda.

(** ["%d" % n] determines [n]. *)
Lemma fmt_d_inj (n m : nat) : ProxFn.fmt_d n = ProxFn.fmt_d m -> n = m.
Proof.
  unfold ProxFn.fmt_d. intros H.
  apply DecimalNat.Unsigned.to_uint_inj.
  assert (Hs : Some (Nat.to_uint n) = Some (Nat.to_uint m)).
  { rewrite <- !NilEmpty.usu. now rewrite H. }
  now inversion Hs.
Qed.

Lemma append_inj (p s1 s2 : string) :
  (p ++ s1)%string = (p ++ s2)%string -> s1 = s2.
Proof.
  induction p as [|ch p IH]; simpl; intros H; [exact H|].
  inversion H. auto.
Qed.

(** A loop whose body never lowers the counter does not lower it. *)
Lemma for_each_counter {X : Type}
      (body : string * nat -> X -> result (string * nat)) (l : list X) :
  (forall s i s', body s i = Ok s' -> snd s <= snd s') ->
  forall s s', for_each body l s = Ok s' -> snd s <= snd s'.
Proof.
  intros Hb. induction l as [|x l IH]; intros s s' H; simpl in H.
  - inversion H. lia.
  - destruct (body s x) as [s1|e] eqn:E; [|discriminate]. simpl in H.
    apply Hb in E. apply IH in H. lia.
Qed.

(** A loop whose body always succeeds and adds [k] to the counter. *)
Lemma for_each_exact {X : Type}
      (body : string * nat -> X -> result (string * nat)) (k : nat)
      (l : list X) :
  (forall s i, In i l -> exists c, body s i = Ok (c, snd s + k)) ->
  forall s, exists c, for_each body l s = Ok (c, snd s + length l * k).
Proof.
  induction l as [|x l IH]; intros Hb s; simpl.
  - exists (fst s). rewrite Nat.add_0_r. now destruct s.
  - destruct (Hb s x (or_introl eq_refl)) as (c1 & ->). simpl.
    destruct (IH (fun s i H => Hb s i (or_intror H)) (c1, snd s + k))
      as (c & ->).
    exists c. simpl. do 2 f_equal. lia.
Qed.

Lemma set_last_nonempty {T : Type} (l : list T) (x : T) :
  l <> [] -> exists l', set_last l x = Ok l'.
Proof.
  intros Hne. unfold set_last.
  destruct (Nat.ltb_spec (length l) 1) as [H|H]; [|eauto].
  destruct l; [contradiction|simpl in H; lia].
Qed.

Lemma last_item_nonempty {T : Type} (l : list T) :
  l <> [] -> exists x, last_item l = Ok x.
Proof.
  intros Hne. unfold last_item.
  destruct (Nat.ltb_spec (length l) 1) as [H|H].
  - destruct l; [contradiction|simpl in H; lia].
  - unfold item.
    destruct (nth_error l (length l - 1)) as [x|] eqn:E; [eauto|].
    apply nth_error_None in E. lia.
Qed.

Section Emitters.
Context {cg : Codegen}.
Variables (t : Pxwise.node) (linop_id : nat) (node : emitter term).

Lemma forward_cuda_inv (n : nat) (absidx : list term) (code var : string)
      (n' : nat) :
  monotone node ->
  forward_cuda t linop_id node n absidx = Ok (code, var, n') ->
  var = ("var_" ++ ProxFn.fmt_d n)%string /\ n + 2 <= n'.
Proof.
  intros Hm H. unfold forward_cuda in H. cbn [cuda_additional_buffers item
    nth_error bind fst] in H.
  destruct (sub2ind (absidx ++ [Int 0]) (Np.shape (Pxwise.A t)))
    as [linaidx|e]; [|discriminate].
  cbn [bind] in H.
  destruct (from_end 1 (Np.shape (Pxwise.A t))) as [M|e]; [|discriminate].
  cbn [bind] in H.
  match type of H with
  | bind (for_each ?body ?l ?s0) _ = _ =>
      destruct (for_each body l s0) as [s|e] eqn:E; [|discriminate];
      apply (for_each_counter body l) in E
  end.
  - cbn [bind] in H. inversion H; subst. simpl in E. split; [reflexivity|lia].
  - intros st i st' Hs.
    destruct (set_last absidx (Text (ProxFn.fmt_d i))) as [newidx|e'];
      [|discriminate].
    cbn [bind] in Hs.
    destruct (node (snd st) newidx) as [[[icode ivar] k]|e'] eqn:En;
      [|discriminate].
    cbn [bind] in Hs. inversion Hs; subst. simpl. now apply Hm in En.
Qed.

Lemma adjoint_cuda_inv (n : nat) (absidx : list term) (code var : string)
      (n' : nat) :
  monotone node ->
  adjoint_cuda t linop_id node n absidx = Ok (code, var, n') ->
  var = ("var_" ++ ProxFn.fmt_d n)%string /\ n + 2 <= n'.
Proof.
  intros Hm H. unfold adjoint_cuda in H. cbn [cuda_additional_buffers item
    nth_error bind fst] in H.
  destruct (last_item absidx) as [last|e]; [|discriminate].
  cbn [bind] in H.
  destruct (sub2ind (drop_last 1 absidx ++ [Int 0; last])
                    (Np.shape (Pxwise.A t))) as [linaidx|e]; [|discriminate].
  cbn [bind] in H.
  destruct (from_end 2 (Np.shape (Pxwise.A t))) as [N|e]; [|discriminate].
  cbn [bind] in H.
  match type of H with
  | bind (for_each ?body ?l ?s0) _ = _ =>
      destruct (for_each body l s0) as [s|e] eqn:E; [|discriminate];
      apply (for_each_counter body l) in E
  end.
  - cbn [bind] in H. inversion H; subst. simpl in E. split; [reflexivity|lia].
  - intros st i st' Hs.
    destruct (set_last absidx (Text (ProxFn.fmt_d i))) as [newidx|e'];
      [|discriminate].
    cbn [bind] in Hs.
    destruct (node (snd st) newidx) as [[[icode ivar] k]|e'] eqn:En;
      [|discriminate].
    cbn [bind] in Hs.
    destruct (from_end 1 (Np.shape (Pxwise.A t))) as [M|e']; [|discriminate].
    cbn [bind] in Hs. inversion Hs; subst. simpl. now apply Hm in En.
Qed.

End Emitters.

End EmitFacts.

(** X11. The emitters compose without reusing a temporary.  Over a
    neighbour that never hands back a smaller counter, [forward_cuda] and
    [adjoint_cuda] of a [pxwise_matrixmult] node return the variable
    [var_<n>] for the counter [n] they were given and a counter of at least
    [n + 2], so the names [var_<n>] and [idx_<n+1>] they declare are out of
    reach of every later counter: distinct counters give distinct names.
    Both emitters are therefore again emitters that never hand back a
    smaller counter, and so are those of a [transpose] node. *)
Theorem pxwise_cuda_counter {cg : PxwiseCuda.Codegen} (t : Pxwise.node)
        (linop_id : nat) (node : Cuda.emitter PxwiseCuda.term) :
  Cuda.monotone node ->
  (forall n absidx code var n',
      PxwiseCuda.forward_cuda t linop_id node n absidx = Ok (code, var, n')
      \/ PxwiseCuda.adjoint_cuda t linop_id node n absidx = Ok (code, var, n')
      ->
      var = ("var_" ++ ProxFn.fmt_d n)%string /\ n + 2 <= n')
  /\ Cuda.monotone (PxwiseCuda.forward_cuda t linop_id node)
  /\ Cuda.monotone (PxwiseCuda.adjoint_cuda t linop_id node)
  /\ (forall tr : Transpose.node,
        Cuda.monotone (TransposeCuda.forward_cuda tr node)
        /\ Cuda.monotone (TransposeCuda.adjoint_cuda tr node))
  /\ (forall n m,
        ("var_" ++ ProxFn.fmt_d n)%string = ("var_" ++ ProxFn.fmt_d m)%string
        \/ ("idx_" ++ ProxFn.fmt_d n)%string = ("idx_" ++ ProxFn.fmt_d m)%string
        -> n = m).
Proof.
  intros Hm. split; [|split; [|split; [|split]]].
  - intros n absidx code var n' [H|H].
    + exact (EmitFacts.forward_cuda_inv t linop_id node n absidx code var n' Hm H).
    + exact (EmitFacts.adjoint_cuda_inv t linop_id node n absidx code var n' Hm H).
  - intros n absidx code var n' H.
    destruct (EmitFacts.forward_cuda_inv t linop_id node n absidx code var n' Hm H).
    lia.
  - intros n absidx code var n' H.
    destruct (EmitFacts.adjoint_cuda_inv t linop_id node n absidx code var n' Hm H).
    lia.
  - intros tr. split; intros n absidx code var n' H.
    + unfold TransposeCuda.forward_cuda in H.
      destruct (Cuda.remap absidx (Transpose.inverse tr)) as [idx|e];
        [|discriminate].
      exact (Hm _ _ _ _ _ H).
    + unfold TransposeCuda.adjoint_cuda in H.
      destruct (Cuda.remap absidx (Transpose.axes tr)) as [idx|e];
        [|discriminate].
      exact (Hm _ _ _ _ _ H).
  - intros n m [H|H]; apply EmitFacts.append_inj in H;
      now apply EmitFacts.fmt_d_inj.
Qed.

Lemma pxwise_cuda_counter_witness :
  (forall n absidx code var n',
      PxwiseCuda.forward_cuda (cg := MoreExamples.comma_codegen)
        MoreExamples.wide 7 MoreExamples.leaf n absidx = Ok (code, var, n')
      \/ PxwiseCuda.adjoint_cuda (cg := MoreExamples.comma_codegen)
           MoreExamples.wide 7 MoreExamples.leaf n absidx = Ok (code, var, n')
      ->
      var = ("var_" ++ ProxFn.fmt_d n)%string /\ n + 2 <= n')
  /\ Cuda.monotone (PxwiseCuda.forward_cuda (cg := MoreExamples.comma_codegen)
                      MoreExamples.wide 7 MoreExamples.leaf)
  /\ Cuda.monotone (PxwiseCuda.adjoint_cuda (cg := MoreExamples.comma_codegen)
                      MoreExamples.wide 7 MoreExamples.leaf)
  /\ (forall tr : Transpose.node,
        Cuda.monotone (TransposeCuda.forward_cuda tr MoreExamples.leaf)
        /\ Cuda.monotone (TransposeCuda.adjoint_cuda tr MoreExamples.leaf))
  /\ (forall n m,
        ("var_" ++ ProxFn.fmt_d n)%string = ("var_" ++ ProxFn.fmt_d m)%string
        \/ ("idx_" ++ ProxFn.fmt_d n)%string = ("idx_" ++ ProxFn.fmt_d m)%string
        -> n = m).
Proof.
  apply (pxwise_cuda_counter (cg := MoreExamples.comma_codegen)
           MoreExamples.wide 7 MoreExamples.leaf).
  intros n idx code var n' H. unfold MoreExamples.leaf in H.
  inversion H. lia.
Defined.

(** X12. What the emitters of a [pxwise_matrixmult] node need and consume.
    [adjoint_cuda] raises [IndexError] on an empty index list, before
    [sub2ind] is called.  [forward_cuda] calls [sub2ind] first and passes on
    its exception, as [adjoint_cuda] does for a non-empty list; on an empty
    list that [sub2ind] accepts, [forward_cuda] raises [IndexError] unless
    [A] has no columns.  With a non-empty index list that [sub2ind]
    accepts, over a neighbour that always succeeds and uses [k] temporaries
    per call, [forward_cuda] calls it once per column of [A] and
    [adjoint_cuda] once per row: they return [var_<n>] and the counters
    [n + 2 + M*k] and [n + 2 + N*k]. *)
Theorem pxwise_cuda_emits {cg : PxwiseCuda.Codegen} (lead : list nat)
        (N M : nat) (Ad : list R) (nb : option R) (base : LinOp.t)
        (linop_id : nat) (node : Cuda.emitter PxwiseCuda.term) (k n : nat)
        (absidx : list PxwiseCuda.term) :
  let t := Pxwise.mk_node (Np.mk_ndarray (lead ++ [N; M]) Ad) nb base in
  (PxwiseCuda.adjoint_cuda t linop_id node n [] = Raise IndexError)
  /\ (forall e,
        PxwiseCuda.sub2ind (absidx ++ [PxwiseCuda.Int 0]) (lead ++ [N; M])
        = Raise e ->
        PxwiseCuda.forward_cuda t linop_id node n absidx = Raise e)
  /\ (forall last e,
        Cuda.last_item absidx = Ok last ->
        PxwiseCuda.sub2ind (drop_last 1 absidx ++ [PxwiseCuda.Int 0; last])
                           (lead ++ [N; M]) = Raise e ->
        PxwiseCuda.adjoint_cuda t linop_id node n absidx = Raise e)
  /\ (forall s,
        PxwiseCuda.sub2ind [PxwiseCuda.Int 0] (lead ++ [N; M]) = Ok s ->
        0 < M ->
        PxwiseCuda.forward_cuda t linop_id node n [] = Raise IndexError)
  /\ ((forall c idx, exists code var, node c idx = Ok (code, var, c + k)) ->
      absidx <> [] ->
      (forall s,
          PxwiseCuda.sub2ind (absidx ++ [PxwiseCuda.Int 0]) (lead ++ [N; M])
          = Ok s ->
          exists code,
            PxwiseCuda.forward_cuda t linop_id node n absidx
            = Ok (code, ("var_" ++ ProxFn.fmt_d n)%string, n + 2 + M * k))
      /\ (forall last s,
             Cuda.last_item absidx = Ok last ->
             PxwiseCuda.sub2ind
               (drop_last 1 absidx ++ [PxwiseCuda.Int 0; last])
               (lead ++ [N; M]) = Ok s ->
             exists code,
               PxwiseCuda.adjoint_cuda t linop_id node n absidx
               = Ok (code, ("var_" ++ ProxFn.fmt_d n)%string, n + 2 + N * k))).
Proof.
  intros t. split; [reflexivity|]. split; [|split; [|split]].
  - intros e He. unfold PxwiseCuda.forward_cuda, t.
    cbn [PxwiseCuda.cuda_additional_buffers Cuda.item nth_error bind fst
         Pxwise.A Np.shape].
    now rewrite He.
  - intros last e Hl He. unfold PxwiseCuda.adjoint_cuda, t.
    cbn [PxwiseCuda.cuda_additional_buffers Cuda.item nth_error bind fst
         Pxwise.A Np.shape].
    rewrite Hl. cbn [bind]. now rewrite He.
  - intros s Hs HM. unfold PxwiseCuda.forward_cuda, t.
    cbn [PxwiseCuda.cuda_additional_buffers Cuda.item nth_error bind fst
         Pxwise.A Np.shape app].
    rewrite Hs. cbn [bind].
    rewrite PxwiseLoops.from_end_1_2. cbn [bind].
    destruct M as [|M']; [lia|]. reflexivity.
  - intros Hnode Hne. split.
    + intros s Hs. unfold PxwiseCuda.forward_cuda, t.
      cbn [PxwiseCuda.cuda_additional_buffers Cuda.item nth_error bind fst
           Pxwise.A Np.shape].
      rewrite Hs. cbn [bind].
      rewrite PxwiseLoops.from_end_1_2. cbn [bind].
      match goal with
      | |- exists _, bind (for_each ?body ?l ?s0) _ = _ =>
          destruct (EmitFacts.for_each_exact body k l) with (s := s0)
            as (c & Hrun)
      end.
      * intros st i _.
        destruct (EmitFacts.set_last_nonempty absidx
                    (PxwiseCuda.Text (ProxFn.fmt_d i)) Hne) as (l' & ->).
        cbn [bind].
        destruct (Hnode (snd st) l') as (code & var & ->). cbn [bind].
        eexists. reflexivity.
      * rewrite Hrun. cbn [bind fst snd]. rewrite length_seq.
        exists c. do 2 f_equal.
    + intros last s Hl Hs. unfold PxwiseCuda.adjoint_cuda, t.
      cbn [PxwiseCuda.cuda_additional_buffers Cuda.item nth_error bind fst
           Pxwise.A Np.shape].
      rewrite Hl. cbn [bind]. rewrite Hs. cbn [bind].
      rewrite PxwiseLoops.from_end_2. cbn [bind].
      match goal with
      | |- exists _, bind (for_each ?body ?l ?s0) _ = _ =>
          destruct (EmitFacts.for_each_exact body k l) with (s := s0)
            as (c & Hrun)
      end.
      * intros st i _.
        destruct (EmitFacts.set_last_nonempty absidx
                    (PxwiseCuda.Text (ProxFn.fmt_d i)) Hne) as (l' & ->).
        cbn [bind].
        destruct (Hnode (snd st) l') as (code & var & ->). cbn [bind].
        rewrite PxwiseLoops.from_end_1_2. cbn [bind].
        eexists. reflexivity.
      * rewrite Hrun. cbn [bind fst snd]. rewrite length_seq.
        exists c. do 2 f_equal.
Qed.

Lemma pxwise_cuda_emits_witness :
  PxwiseCuda.adjoint_cuda (cg := MoreExamples.comma_codegen)
    MoreExamples.wide 7 MoreExamples.leaf 4 [] = Raise IndexError
  /\ PxwiseCuda.forward_cuda (cg := MoreExamples.comma_codegen)
       MoreExamples.wide 7 MoreExamples.leaf 4 [] = Raise ValueError
  /\ PxwiseCuda.adjoint_cuda (cg := MoreExamples.comma_codegen)
       MoreExamples.wide 7 MoreExamples.leaf 4
       [PxwiseCuda.Text "p"; PxwiseCuda.Text "i"] = Raise ValueError
  /\ PxwiseCuda.forward_cuda (cg := MoreExamples.join_codegen)
       MoreExamples.wide 7 MoreExamples.leaf 4 [] = Raise IndexError
  /\ (exists code,
        PxwiseCuda.forward_cuda (cg := MoreExamples.comma_codegen)
          MoreExamples.wide 7 MoreExamples.leaf 4 [PxwiseCuda.Text "i"]
        = Ok (code, ("var_" ++ ProxFn.fmt_d 4)%string, 4 + 2 + 3 * 1))
  /\ (exists code,
        PxwiseCuda.adjoint_cuda (cg := MoreExamples.comma_codegen)
          MoreExamples.wide 7 MoreExamples.leaf 4 [PxwiseCuda.Text "i"]
        = Ok (code, ("var_" ++ ProxFn.fmt_d 4)%string, 4 + 2 + 2 * 1)).
Proof.
  destruct (pxwise_cuda_emits (cg := MoreExamples.comma_codegen)
              [] 2 3 [1; 2; 3; 4; 5; 6]%R None (LinOp.init [[3]] [2]) 7
              MoreExamples.leaf 1 4 [PxwiseCuda.Text "i"])
    as (H1 & _ & _ & _ & H5).
  destruct (pxwise_cuda_emits (cg := MoreExamples.comma_codegen)
              [] 2 3 [1; 2; 3; 4; 5; 6]%R None (LinOp.init [[3]] [2]) 7
              MoreExamples.leaf 1 4 [])
    as (_ & H2 & _).
  destruct (pxwise_cuda_emits (cg := MoreExamples.comma_codegen)
              [] 2 3 [1; 2; 3; 4; 5; 6]%R None (LinOp.init [[3]] [2]) 7
              MoreExamples.leaf 1 4
              [PxwiseCuda.Text "p"; PxwiseCuda.Text "i"])
    as (_ & _ & H3 & _).
  destruct (pxwise_cuda_emits (cg := MoreExamples.join_codegen)
              [] 2 3 [1; 2; 3; 4; 5; 6]%R None (LinOp.init [[3]] [2]) 7
              MoreExamples.leaf 1 4 [])
    as (_ & _ & _ & H4 & _).
  split; [exact H1|].
  split; [apply (H2 ValueError); reflexivity|].
  split; [apply (H3 (PxwiseCuda.Text "i") ValueError); reflexivity|].
  split; [apply (H4 "0"%string); [reflexivity|lia]|].
  destruct H5 as (Hf & Ha).
  - intros c idx. eexists. eexists. reflexivity.
  - discriminate.
  - split.
    + apply (Hf "i,0"%string). reflexivity.
    + apply (Ha (PxwiseCuda.Text "i") "0,i"%string); reflexivity.
Defined.

(** ** [ProxFn]: copies, scaling, evaluation and the degenerate scalars *)

(** What a completed [gen_cuda_code] leaves behind. *)
Module CodegenMore.
Import ProxFn Affine CodegenFacts.

Section WithEnv.
Context {env : Env} {atom : Atom}.

(** What a completed [gen_cuda_code] leaves in the instance. *)
Lemma gen_ok_inv (self self' : t) :
  gen_cuda_code self = Ok self' ->
  exists code,
    cuda_additional_buffers self = []
    /\ Np.size (lin_op_shape self) <> 0 /\ MAX_THREADS_PER_BLOCK <> 0
    /\ SourceModule code = Ok tt
    /\ self' = mk (lin_op_shape self) (alpha self) (beta self) (b self)
                  (c self) (gamma self) (d self) (implem_key self)
                  (implementation self)
                  (Some (mk_kernel code
                           (Np.size (lin_op_shape self)
                            / Nat.min (Np.size (lin_op_shape self))
                                      MAX_THREADS_PER_BLOCK)
                           (Nat.min (Np.size (lin_op_shape self))
                                    MAX_THREADS_PER_BLOCK)
                           []))
                  (Some []) (Some code) (argnames self).
Proof.
  intros H.
  destruct (gen_ok_zero _ _ H) as (Hb & Hc).
  pose proof (buffers_empty self Hb Hc) as Hbuf.
  unfold gen_cuda_code in H.
  change (cuda_additional_buffers
            (mk (lin_op_shape self) (alpha self) (beta self) (b self)
                (c self) (gamma self) (d self) (implem_key self)
                (implementation self) (kernel_cuda_prox self)
                (Some []) (cuda_code self) (argnames self)))
    with (cuda_additional_buffers self) in H.
  rewrite Hbuf in H. cbn [for_each bind] in H.
  destruct _prox_cuda as [f|]; [|discriminate]. cbn [bind] in H.
  match type of H with
  | bind ?m _ = _ => destruct m as [cucode|e]; [|discriminate]
  end.
  cbn [bind] in H.
  match type of H with
  | bind (SourceModule ?code) _ = _ =>
      destruct (SourceModule code) as [[]|e] eqn:Ec; [|discriminate];
      exists code
  end.
  cbn [bind] in H.
  match type of H with
  | bind (if ?b then _ else _) _ = _ => destruct b eqn:Eb; [discriminate|]
  end.
  cbn [bind] in H. apply Nat.eqb_neq in Eb.
  cbn [lin_op_shape alpha beta b c gamma d implem_key implementation
       cuda_args argnames map] in H.
  inversion H.
  repeat split; auto; intros Hz; apply Eb.
  - cbn [lin_op_shape]. rewrite Hz. reflexivity.
  - cbn [lin_op_shape]. rewrite Hz. apply Nat.min_0_r.
Qed.

End WithEnv.

(** The wrapper [Examples.doubled] compiles. *)
Lemma gen_doubled :
  exists self',
    gen_cuda_code (env := Examples.env) (atom := Examples.inplace_atom)
                  Examples.doubled = Ok self'.
Proof.
  unfold gen_cuda_code.
  change (cuda_additional_buffers
            (mk (lin_op_shape Examples.doubled)
               (alpha Examples.doubled) (beta Examples.doubled)
               (b Examples.doubled) (c Examples.doubled)
               (gamma Examples.doubled) (d Examples.doubled)
               (implem_key Examples.doubled)
               (implementation Examples.doubled)
               (kernel_cuda_prox Examples.doubled)
               (Some []) (cuda_code Examples.doubled)
               (argnames Examples.doubled)))
    with (cuda_additional_buffers Examples.doubled).
  rewrite buffers_empty by apply (all_zero_zeros [2]).
  eexists. reflexivity.
Qed.

End CodegenMore.

Module OpsFacts.
Import ProxFn ProxFnOps Affine InitFacts.
Local Open Scope R_scope.

Lemma materialized_shape (shape : list nat) (v : pyval) :
  dims_ok shape v -> Np.shape (materialized shape v) = shape.
Proof. destruct v as [r|a]; simpl; auto. Qed.

Section WithEnv.
Context {env : Env}.

Lemma In_values (im : string) :
  existsb (fun kv => String.eqb (snd kv) im) Impl = true
  <-> In im (map snd Impl).
Proof.
  rewrite existsb_exists, in_map_iff. split.
  - intros (kv & Hin & Heq). apply String.eqb_eq in Heq. eauto.
  - intros (kv & Heq & Hin). exists kv. split; [assumption|].
    now apply String.eqb_eq.
Qed.

Lemma lookup_some (k v : string) :
  lookup k Impl = Some v -> In k (map fst Impl) /\ In v (map snd Impl).
Proof.
  unfold lookup.
  destruct (find (fun kv => String.eqb (fst kv) k) Impl) as [kv|] eqn:E;
    [|discriminate].
  simpl. intros Hv. inversion Hv; subst.
  apply find_some in E as (Hin & Heq). apply String.eqb_eq in Heq.
  split; [rewrite <- Heq|]; now apply in_map.
Qed.

Lemma lookup_none (k : string) :
  lookup k Impl = None -> ~ In k (map fst Impl).
Proof.
  unfold lookup.
  destruct (find (fun kv => String.eqb (fst kv) k) Impl) as [kv|] eqn:E;
    [discriminate|].
  intros _ Hin. apply in_map_iff in Hin as (kv & Heq & Hin).
  apply (find_none _ _ E) in Hin. apply String.eqb_neq in Hin. contradiction.
Qed.

(** The constructor on scalars that pass the checks, for any [implem]. *)
Lemma init_ok_gen (shape : list nat) (ra rb rg rd : R) (b c : pyval)
      (implem : option string) (numpy impl : string) :
  0 <= ra -> 0 <= rg -> dims_ok shape b -> dims_ok shape c ->
  lookup "numpy" Impl = Some numpy ->
  match implem with
  | Some im => set_implementation im
  | None => Ok numpy
  end = Ok impl ->
  init shape (PyScalar ra) (PyScalar rb) b c (PyScalar rg) (PyScalar rd) implem
  = Ok (mk shape ra rb (materialized shape b) (materialized shape c)
           rg rd implem impl None None None None).
Proof.
  intros Ha Hg Hb Hc Hn Hi. unfold init. cbn [for_each combine].
  rewrite (check_dims_ok _ _ _ Hb). cbn [bind].
  rewrite (check_dims_ok _ _ _ Hc). cbn [bind].
  rewrite (check_nonneg_ok _ _ Ha). cbn [bind].
  rewrite (check_nonneg_ok _ _ Hg).
  cbn [bind check_scalar isscalar float]. rewrite Hn. cbn [bind].
  rewrite Hi. reflexivity.
Qed.

(** Everything a successful constructor call tells about its arguments
    and about the instance. *)
Lemma init_inv_full (shape : list nat) (alpha beta b c gamma d : pyval)
      (implem : option string) (self : t) :
  init shape alpha beta b c gamma d implem = Ok self ->
  exists ra rb rg rd numpy impl,
    alpha = PyScalar ra /\ beta = PyScalar rb
    /\ gamma = PyScalar rg /\ d = PyScalar rd
    /\ 0 <= ra /\ 0 <= rg /\ dims_ok shape b /\ dims_ok shape c
    /\ lookup "numpy" Impl = Some numpy
    /\ match implem with
       | Some im => set_implementation im
       | None => Ok numpy
       end = Ok impl
    /\ self = mk shape ra rb (materialized shape b) (materialized shape c)
                 rg rd implem impl None None None None.
Proof.
  intros H.
  destruct (init_ok_inv _ _ _ _ _ _ _ _ _ H) as (Hb & Hc & _).
  assert (Hgood : ~ (bad_nonneg alpha \/ bad_nonneg gamma
                     \/ isscalar beta = false \/ isscalar d = false)).
  { intros Hbad.
    destruct (init_raises_scalars shape alpha beta b c gamma d implem Hbad)
      as [e He].
    congruence. }
  destruct alpha as [ra|aa]; [|exfalso; apply Hgood; left; exact I].
  destruct gamma as [rg|ga]; [|exfalso; apply Hgood; right; left; exact I].
  destruct beta as [rb|ba];
    [|exfalso; apply Hgood; right; right; left; reflexivity].
  destruct d as [rd|da];
    [|exfalso; apply Hgood; right; right; right; reflexivity].
  assert (Hra : 0 <= ra).
  { destruct (Rle_lt_dec 0 ra) as [Hle|Hlt]; [exact Hle|].
    exfalso. apply Hgood. left. exact Hlt. }
  assert (Hrg : 0 <= rg).
  { destruct (Rle_lt_dec 0 rg) as [Hle|Hlt]; [exact Hle|].
    exfalso. apply Hgood. right. left. exact Hlt. }
  unfold init in H. cbn [for_each combine] in H.
  rewrite (check_dims_ok _ _ _ Hb) in H. cbn [bind] in H.
  rewrite (check_dims_ok _ _ _ Hc) in H. cbn [bind] in H.
  rewrite (check_nonneg_ok _ _ Hra) in H. cbn [bind] in H.
  rewrite (check_nonneg_ok _ _ Hrg) in H.
  cbn [bind check_scalar isscalar float] in H.
  destruct (lookup "numpy" Impl) as [numpy|]; [|discriminate].
  cbn [bind] in H.
  destruct (match implem with
            | Some im => set_implementation im
            | None => Ok numpy
            end) as [impl|e] eqn:Ei; [|discriminate].
  cbn [bind] in H. inversion H.
  exists ra, rb, rg, rd, numpy, impl. repeat split; auto.
Qed.

(** Running the constructor again on the attributes of an instance. *)
Lemma reinit (shape : list nat) (alpha beta b c gamma d : pyval)
      (implem : option string) (self : t) (ra' : R) :
  init shape alpha beta b c gamma d implem = Ok self -> 0 <= ra' ->
  init (lin_op_shape self) (PyScalar ra') (PyScalar (ProxFn.beta self))
       (PyArray (ProxFn.b self)) (PyArray (ProxFn.c self))
       (PyScalar (ProxFn.gamma self)) (PyScalar (ProxFn.d self))
       (implem_key self)
  = Ok (mk (lin_op_shape self) ra' (ProxFn.beta self) (ProxFn.b self)
           (ProxFn.c self) (ProxFn.gamma self) (ProxFn.d self)
           (implem_key self) (implementation self) None None None None).
Proof.
  intros H Hra'.
  destruct (init_inv_full _ _ _ _ _ _ _ _ _ H)
    as (ra & rb & rg & rd & numpy & impl & -> & -> & -> & -> & Hra & Hrg
        & Hb & Hc & Hn & Hi & ->).
  cbn [lin_op_shape ProxFn.beta ProxFn.b ProxFn.c ProxFn.gamma ProxFn.d
       implem_key implementation].
  apply (init_ok_gen shape ra' rb rg rd (PyArray (materialized shape b))
           (PyArray (materialized shape c)) implem numpy impl); auto.
  - simpl. now apply materialized_shape.
  - simpl. now apply materialized_shape.
Qed.

(** A fresh instance has no compiled kernel and no kernel attributes. *)
Lemma init_fresh (shape : list nat) (alpha beta b c gamma d : pyval)
      (implem : option string) (self : t) :
  init shape alpha beta b c gamma d implem = Ok self ->
  self = mk (lin_op_shape self) (ProxFn.alpha self) (ProxFn.beta self)
            (ProxFn.b self) (ProxFn.c self) (ProxFn.gamma self)
            (ProxFn.d self) (implem_key self) (implementation self)
            None None None None
  /\ lin_op_shape self = shape /\ implem_key self = implem
  /\ 0 <= ProxFn.alpha self /\ 0 <= ProxFn.gamma self
  /\ Np.shape (ProxFn.b self) = shape /\ Np.shape (ProxFn.c self) = shape.
Proof.
  intros H.
  destruct (init_inv_full _ _ _ _ _ _ _ _ _ H)
    as (ra & rb & rg & rd & numpy & impl & -> & -> & -> & -> & Hra & Hrg
        & Hb & Hc & Hn & Hi & ->).
  simpl. repeat split; auto; now apply materialized_shape.
Qed.

End WithEnv.

End OpsFacts.

(** X13. [ProxFn * k] scales [alpha] and nothing else.  For an instance
    built by the constructor and a scalar [k > 0] the product is a fresh
    instance with [alpha*k] and the same operator shape, [beta], [b], [c],
    [gamma], [d] and implementation, so the terms [<c,x> + gamma*<x,x> + d]
    of the represented function are not multiplied.  For a scalar [k <= 0]
    and for an array on the right, [ProxFn * other] raises [TypeError].
    The method [__rmul__], which the interpreter calls for [k * ProxFn]
    with a Python number [k], returns [ProxFn * k] or raises as it does. *)
Theorem proxfn_mul_scales_alpha {env : ProxFn.Env} (shape : list nat)
        (alpha beta b c gamma d : ProxFn.pyval) (implem : option string)
        (self : ProxFn.t) :
  ProxFn.init shape alpha beta b c gamma d implem = Ok self ->
  (forall k, (0 < k)%R ->
     ProxFnOps.__mul__ self (ProxFn.PyScalar k)
     = Ok (ProxFn.mk (ProxFn.lin_op_shape self) (ProxFn.alpha self * k)
             (ProxFn.beta self) (ProxFn.b self) (ProxFn.c self)
             (ProxFn.gamma self) (ProxFn.d self) (ProxFn.implem_key self)
             (ProxFn.implementation self) None None None None)
     /\ ProxFnOps.__rmul__ self (ProxFn.PyScalar k)
        = ProxFnOps.__mul__ self (ProxFn.PyScalar k))
  /\ (forall k, (k <= 0)%R ->
        ProxFnOps.__mul__ self (ProxFn.PyScalar k) = Raise TypeError
        /\ ProxFnOps.__rmul__ self (ProxFn.PyScalar k) = Raise TypeError)
  /\ (forall a, ProxFnOps.__mul__ self (ProxFn.PyArray a) = Raise TypeError).
Proof.
  intros H. split; [|split].
  - intros k Hk. split; [|reflexivity].
    unfold ProxFnOps.__mul__.
    destruct (Rlt_dec 0 k) as [_|Hn]; [|contradiction].
    unfold ProxFnOps.copy.
    cbn [ProxFnOps.get_data ProxFnOps.filled ProxFnOps.kw_alpha
         ProxFnOps.kw_beta ProxFnOps.kw_gamma ProxFnOps.kw_c ProxFnOps.kw_b
         ProxFnOps.kw_d ProxFnOps.kw_implem].
    apply (OpsFacts.reinit _ _ _ _ _ _ _ _ _ _ H).
    destruct (OpsFacts.init_fresh _ _ _ _ _ _ _ _ _ H)
      as (_ & _ & _ & Ha & _).
    apply Rmult_le_pos; lra.
  - intros k Hk. unfold ProxFnOps.__rmul__, ProxFnOps.__mul__.
    destruct (Rlt_dec 0 k) as [Hp|_]; [lra|split; reflexivity].
  - intros a. reflexivity.
Qed.

Lemma proxfn_mul_scales_alpha_witness :
  (ProxFnOps.__mul__ (env := Examples.env) Examples.shifted (ProxFn.PyScalar 3)
   = Ok (ProxFn.mk [2] (1 * 3) 1 (Np.mk_ndarray [2] [1; 1]%R) (Np.zeros [2])
           0 0 None "numpy" None None None None))
  /\ ProxFnOps.__mul__ (env := Examples.env) Examples.shifted
                       (ProxFn.PyScalar (-1)) = Raise TypeError
  /\ ProxFnOps.__rmul__ (env := Examples.env) Examples.shifted
                        (ProxFn.PyScalar (-1)) = Raise TypeError.
Proof.
  assert (H : ProxFn.init (env := Examples.env) [2]
                (ProxFn.PyScalar 1) (ProxFn.PyScalar 1)
                (ProxFn.PyArray (Np.mk_ndarray [2] [1; 1]%R))
                (ProxFn.PyArray (Np.zeros [2]))
                (ProxFn.PyScalar 0) (ProxFn.PyScalar 0) None
              = Ok Examples.shifted).
  { apply (InitFacts.init_ok (env := Examples.env)); simpl;
      try reflexivity; lra. }
  split.
  - apply (proj1 (proxfn_mul_scales_alpha (env := Examples.env) _ _ _ _ _ _ _ _
                    _ H) 3%R). lra.
  - apply (proj1 (proj2 (proxfn_mul_scales_alpha (env := Examples.env)
                           _ _ _ _ _ _ _ _ _ H)) (-1)%R). lra.
Defined.

(** X14. [copy()] without arguments rebuilds an instance from its own
    attributes: applied to an instance fresh from the constructor it
    returns an equal instance, whether [b] and [c] were given as scalars or
    as arrays.  The compiled kernel is not copied: the copy of an instance
    on which [gen_cuda_code] has completed is the instance as it was before
    compilation. *)
Theorem proxfn_copy_roundtrip {env : ProxFn.Env} (shape : list nat)
        (alpha beta b c gamma d : ProxFn.pyval) (implem : option string)
        (self : ProxFn.t) :
  ProxFn.init shape alpha beta b c gamma d implem = Ok self ->
  ProxFnOps.copy self None ProxFnOps.no_kwargs = Ok self
  /\ forall (atom : ProxFn.Atom) (compiled : ProxFn.t),
       ProxFn.gen_cuda_code self = Ok compiled ->
       ProxFn.kernel_cuda_prox compiled <> None
       /\ ProxFnOps.copy compiled None ProxFnOps.no_kwargs = Ok self.
Proof.
  intros H.
  destruct (OpsFacts.init_fresh _ _ _ _ _ _ _ _ _ H)
    as (Hself & _ & _ & Ha & _).
  assert (Hcopy : ProxFnOps.copy self None ProxFnOps.no_kwargs = Ok self).
  { unfold ProxFnOps.copy.
    cbn [ProxFnOps.get_data ProxFnOps.filled ProxFnOps.no_kwargs
         ProxFnOps.kw_alpha ProxFnOps.kw_beta ProxFnOps.kw_gamma
         ProxFnOps.kw_c ProxFnOps.kw_b ProxFnOps.kw_d ProxFnOps.kw_implem].
    rewrite (OpsFacts.reinit _ _ _ _ _ _ _ _ _ _ H Ha).
    now rewrite <- Hself. }
  split; [exact Hcopy|].
  intros atom compiled Hgen.
  destruct (CodegenMore.gen_ok_inv self compiled Hgen)
    as (code & _ & _ & _ & _ & ->).
  split; [discriminate|]. exact Hcopy.
Qed.

Lemma proxfn_copy_roundtrip_witness :
  ProxFnOps.copy (env := Examples.env) Examples.doubled None
                 ProxFnOps.no_kwargs = Ok Examples.doubled
  /\ exists compiled,
       ProxFn.gen_cuda_code (env := Examples.env)
         (atom := Examples.inplace_atom) Examples.doubled = Ok compiled
       /\ ProxFn.kernel_cuda_prox compiled <> None
       /\ ProxFnOps.copy (env := Examples.env) compiled None
                         ProxFnOps.no_kwargs = Ok Examples.doubled.
Proof.
  destruct (proxfn_copy_roundtrip (env := Examples.env) [2]
              (ProxFn.PyScalar 1) (ProxFn.PyScalar 2)
              (ProxFn.PyArray (Np.zeros [2])) (ProxFn.PyArray (Np.zeros [2]))
              (ProxFn.PyScalar 0) (ProxFn.PyScalar 0) None Examples.doubled)
    as (H1 & H2).
  { apply (InitFacts.init_ok (env := Examples.env)); simpl;
      try reflexivity; lra. }
  split; [exact H1|].
  destruct CodegenMore.gen_doubled as (compiled & Hgen).
  exists compiled. split; [exact Hgen|].
  exact (H2 Examples.inplace_atom compiled Hgen).
Defined.

(** X15. [copy(lin_op)] onto an operator of another shape fails unless a new
    [b] is passed: the instance stores [b] expanded to its own operator's
    shape, also when the constructor was given the scalar default, and the
    constructor that [copy] runs rejects it with
    "Invalid dimensions of b.". *)
Theorem proxfn_copy_other_shape {env : ProxFn.Env} (shape : list nat)
        (alpha beta b c gamma d : ProxFn.pyval) (implem : option string)
        (self : ProxFn.t) (new_shape : list nat) (kw : ProxFnOps.kwargs) :
  ProxFn.init shape alpha beta b c gamma d implem = Ok self ->
  new_shape <> shape ->
  ProxFnOps.kw_b kw = None ->
  ProxFnOps.copy self (Some new_shape) kw
  = Raise (PyException "Invalid dimensions of b.").
Proof.
  intros H Hne Hkw.
  destruct (OpsFacts.init_fresh _ _ _ _ _ _ _ _ _ H)
    as (_ & _ & _ & _ & _ & Hb & _).
  unfold ProxFnOps.copy. cbn [ProxFnOps.get_data]. rewrite Hkw.
  cbn [ProxFnOps.filled]. unfold ProxFn.init.
  cbn [for_each combine].
  rewrite InitFacts.check_dims_bad; [reflexivity|].
  simpl. rewrite Hb. congruence.
Qed.

Lemma proxfn_copy_other_shape_witness :
  ProxFnOps.copy (env := Examples.env) Examples.doubled (Some [3])
                 ProxFnOps.no_kwargs
  = Raise (PyException "Invalid dimensions of b.").
Proof.
  apply (proxfn_copy_other_shape (env := Examples.env) [2]
           (ProxFn.PyScalar 1) (ProxFn.PyScalar 2)
           (ProxFn.PyArray (Np.zeros [2])) (ProxFn.PyArray (Np.zeros [2]))
           (ProxFn.PyScalar 0) (ProxFn.PyScalar 0) None).
  - apply (InitFacts.init_ok (env := Examples.env)); simpl;
      try reflexivity; lra.
  - discriminate.
  - reflexivity.
Defined.

(** X16. Division undoes multiplication on [alpha]: for an instance fresh
    from the constructor and a number [k > 0], [self / k] succeeds and
    [(self / k) * k] is an instance equal to [self] (over the reals).
    [self / 0] raises [ZeroDivisionError], and [self / k] for [k < 0]
    raises [TypeError]. *)
Theorem proxfn_div_mul {env : ProxFn.Env} (shape : list nat)
        (alpha beta b c gamma d : ProxFn.pyval) (implem : option string)
        (self : ProxFn.t) :
  ProxFn.init shape alpha beta b c gamma d implem = Ok self ->
  (forall k, (0 < k)%R ->
     exists q,
       ProxFnOps.__div__ self k = Ok q
       /\ ProxFn.alpha q = (ProxFn.alpha self * (1 / k))%R
       /\ ProxFnOps.__truediv__ self k = Ok q
       /\ ProxFnOps.__mul__ q (ProxFn.PyScalar k) = Ok self)
  /\ ProxFnOps.__div__ self 0 = Raise ZeroDivisionError
  /\ (forall k, (k < 0)%R -> ProxFnOps.__div__ self k = Raise TypeError).
Proof.
  intros H.
  destruct (OpsFacts.init_fresh _ _ _ _ _ _ _ _ _ H)
    as (Hself & _ & _ & Ha & _).
  split; [|split].
  - intros k Hk.
    assert (Hinv : (0 < 1 / k)%R).
    { unfold Rdiv. rewrite Rmult_1_l. now apply Rinv_0_lt_compat. }
    assert (Hdiv : ProxFnOps.__div__ self k
                   = ProxFnOps.__mul__ self (ProxFn.PyScalar (1 / k))).
    { unfold ProxFnOps.__div__, ProxFn.py_div.
      destruct (Req_dec_T k 0) as [E|_]; [lra|]. reflexivity. }
    assert (Hq : ProxFnOps.__mul__ self (ProxFn.PyScalar (1 / k))
                 = ProxFn.init (ProxFn.lin_op_shape self)
                     (ProxFn.PyScalar (ProxFn.alpha self * (1 / k)))
                     (ProxFn.PyScalar (ProxFn.beta self))
                     (ProxFn.PyArray (ProxFn.b self))
                     (ProxFn.PyArray (ProxFn.c self))
                     (ProxFn.PyScalar (ProxFn.gamma self))
                     (ProxFn.PyScalar (ProxFn.d self))
                     (ProxFn.implem_key self)).
    { unfold ProxFnOps.__mul__.
      destruct (Rlt_dec 0 (1 / k)) as [_|Hn]; [reflexivity|contradiction]. }
    assert (Hpos : (0 <= ProxFn.alpha self * (1 / k))%R).
    { apply Rmult_le_pos; lra. }
    pose proof (OpsFacts.reinit _ _ _ _ _ _ _ _ _ _ H Hpos) as Hre.
    eexists. split; [rewrite Hdiv, Hq; exact Hre|].
    split; [reflexivity|].
    split; [unfold ProxFnOps.__truediv__; rewrite Hdiv, Hq; exact Hre|].
    unfold ProxFnOps.__mul__.
    destruct (Rlt_dec 0 k) as [_|Hn]; [|contradiction].
    unfold ProxFnOps.copy.
    cbn [ProxFnOps.get_data ProxFnOps.filled ProxFnOps.kw_alpha
         ProxFnOps.kw_beta ProxFnOps.kw_gamma ProxFnOps.kw_c ProxFnOps.kw_b
         ProxFnOps.kw_d ProxFnOps.kw_implem
         ProxFn.lin_op_shape ProxFn.alpha ProxFn.beta ProxFn.b ProxFn.c
         ProxFn.gamma ProxFn.d ProxFn.implem_key].
    replace (ProxFn.alpha self * (1 / k) * k)%R with (ProxFn.alpha self)
      by (field; lra).
    rewrite (OpsFacts.reinit _ _ _ _ _ _ _ _ _ _ H Ha).
    now rewrite <- Hself.
  - unfold ProxFnOps.__div__, ProxFn.py_div.
    destruct (Req_dec_T 0 0) as [_|E]; [reflexivity|lra].
  - intros k Hk. unfold ProxFnOps.__div__, ProxFn.py_div.
    destruct (Req_dec_T k 0) as [E|_]; [lra|]. cbn [bind].
    unfold ProxFnOps.__rmul__, ProxFnOps.__mul__.
    assert (Hinv : (1 / k < 0)%R).
    { unfold Rdiv. rewrite Rmult_1_l. now apply Rinv_lt_0_compat. }
    destruct (Rlt_dec 0 (1 / k)) as [Hp|_]; [lra|reflexivity].
Qed.

Lemma proxfn_div_mul_witness :
  (exists q,
      ProxFnOps.__div__ (env := Examples.env) Examples.shifted 4 = Ok q
      /\ ProxFn.alpha q = (ProxFn.alpha Examples.shifted * (1 / 4))%R
      /\ ProxFnOps.__truediv__ (env := Examples.env) Examples.shifted 4 = Ok q
      /\ ProxFnOps.__mul__ (env := Examples.env) q (ProxFn.PyScalar 4)
         = Ok Examples.shifted)
  /\ ProxFnOps.__div__ (env := Examples.env) Examples.shifted 0
     = Raise ZeroDivisionError
  /\ ProxFnOps.__div__ (env := Examples.env) Examples.shifted (-2)
     = Raise TypeError.
Proof.
  assert (H : ProxFn.init (env := Examples.env) [2]
                (ProxFn.PyScalar 1) (ProxFn.PyScalar 1)
                (ProxFn.PyArray (Np.mk_ndarray [2] [1; 1]%R))
                (ProxFn.PyArray (Np.zeros [2]))
                (ProxFn.PyScalar 0) (ProxFn.PyScalar 0) None
              = Ok Examples.shifted).
  { apply (InitFacts.init_ok (env := Examples.env)); simpl;
      try reflexivity; lra. }
  destruct (proxfn_div_mul (env := Examples.env) _ _ _ _ _ _ _ _ _ H)
    as (H1 & H2 & H3).
  split; [apply (H1 4%R); lra|]. split; [exact H2|]. apply (H3 (-2)%R). lra.
Defined.

(** ** [ProxFn.eval] *)

Module EvalFacts.
Import Np NpFacts WindowFacts RSum Closed ProxFn ProxFnOps EvalForm.
Local Open Scope R_scope.

(** [a (op) b] for two contiguous arrays of one shape. *)
Lemma binop_arrays (f : R -> R -> R) (a b : ndarray) :
  shape b = shape a -> wf a -> wf b ->
  binop f (as_view a) (as_view b)
  = Ok (mk_ndarray (shape a) (map2 f (data a) (data b))).
Proof.
  intros Hs Ha Hb.
  pose proof (materialize_as_view a Ha) as Hma.
  pose proof (materialize_as_view b Hb) as Hmb.
  unfold as_view in *. rewrite Hs in *.
  rewrite binop_same by apply strides_length.
  now rewrite Hma, Hmb.
Qed.

Lemma sum_map2 (l1 l2 : list R) :
  length l1 = length l2 ->
  Np.sum (map2 Rmult l1 l2)
  = rsum (fun k => nth k l1 0 * nth k l2 0) (length l1).
Proof.
  intros H. rewrite map2_nth by assumption. apply sum_map_seq.
Qed.

Lemma sum_squares (l : list R) :
  Np.sum (map (fun x => x * x) l)
  = rsum (fun k => nth k l 0 * nth k l 0) (length l).
Proof.
  rewrite (map_via_nth (fun x => x * x) 0 l). apply sum_map_seq.
Qed.

Section WithEvaluator.
Context {ev : Evaluator}.

Lemma eval_closed (self : t) (v : ndarray) :
  shape v = lin_op_shape self -> wf v ->
  shape (b self) = lin_op_shape self -> wf (b self) ->
  shape (c self) = lin_op_shape self -> wf (c self) ->
  eval self v
  = (e <- _eval self (arg self v) ;;
     Ok (alpha self * e + affine_part self v)).
Proof.
  intros Hv Hvw Hb Hbw Hc Hcw.
  assert (Hlb : length (data (b self)) = length (data v)).
  { unfold wf in *. now rewrite Hbw, Hvw, Hb, Hv. }
  assert (Hlc : length (data (c self)) = length (data v)).
  { unfold wf in *. now rewrite Hcw, Hvw, Hc, Hv. }
  unfold eval.
  rewrite (binop_arrays Rminus (sop (fun x r => r * x) v (beta self)) (b self)).
  2:{ simpl. congruence. }
  2:{ unfold wf, sop. simpl. now rewrite length_map. }
  2:{ assumption. }
  cbn [bind sop shape data].
  assert (Harg : mk_ndarray (shape v)
                   (map2 Rminus (map (fun x => beta self * x) (data v))
                         (data (b self)))
                 = arg self v).
  { unfold arg. rewrite Hv. f_equal.
    rewrite map2_nth by (rewrite length_map; lia).
    rewrite length_map. apply map_ext_in. intros k Hk. apply in_seq in Hk.
    now rewrite (nth_map_in _ _ _ 0) by lia. }
  rewrite Harg.
  destruct (_eval self (arg self v)) as [e|err]; [|reflexivity].
  cbn [bind].
  rewrite (binop_arrays Rmult (c self) v) by (auto; congruence).
  cbn [bind data umap].
  rewrite sum_map2 by assumption. rewrite sum_squares.
  unfold affine_part. rewrite Hlc. f_equal. ring.
Qed.

End WithEvaluator.

End EvalFacts.

(** X17. For an array [v] of the operator's shape, [eval(v)] makes one call
    of [_eval], on [beta*v - b], and raises only if that call raises; it
    returns [alpha*_eval(beta*v - b) + <c,v> + gamma*<v,v> + d]. *)
Theorem proxfn_eval_closed {ev : ProxFnOps.Evaluator} (self : ProxFn.t)
        (v : Np.ndarray) :
  Np.shape v = ProxFn.lin_op_shape self -> Np.wf v ->
  Np.shape (ProxFn.b self) = ProxFn.lin_op_shape self -> Np.wf (ProxFn.b self) ->
  Np.shape (ProxFn.c self) = ProxFn.lin_op_shape self -> Np.wf (ProxFn.c self) ->
  (forall e, ProxFnOps._eval self (EvalForm.arg self v) = Ok e ->
     ProxFnOps.eval self v
     = Ok (ProxFn.alpha self * e + EvalForm.affine_part self v)%R)
  /\ (forall err, ProxFnOps._eval self (EvalForm.arg self v) = Raise err ->
        ProxFnOps.eval self v = Raise err).
Proof.
  intros Hv Hvw Hb Hbw Hc Hcw.
  rewrite (EvalFacts.eval_closed self v Hv Hvw Hb Hbw Hc Hcw).
  split; intros x Hx; now rewrite Hx.
Qed.

Lemma proxfn_eval_closed_witness :
  (forall e,
      ProxFnOps._eval (Evaluator := MoreExamples.sum_eval) Examples.shifted
        (EvalForm.arg Examples.shifted MoreExamples.v34) = Ok e ->
      ProxFnOps.eval (ev := MoreExamples.sum_eval) Examples.shifted
                     MoreExamples.v34
      = Ok (ProxFn.alpha Examples.shifted * e
            + EvalForm.affine_part Examples.shifted MoreExamples.v34)%R)
  /\ (forall err,
         ProxFnOps._eval (Evaluator := MoreExamples.sum_eval) Examples.shifted
           (EvalForm.arg Examples.shifted MoreExamples.v34) = Raise err ->
         ProxFnOps.eval (ev := MoreExamples.sum_eval) Examples.shifted
                        MoreExamples.v34 = Raise err).
Proof.
  apply (proxfn_eval_closed (ev := MoreExamples.sum_eval)
           Examples.shifted MoreExamples.v34); reflexivity.
Defined.

(** X18. Scaling and evaluation: when [_eval] does not look at the
    wrapper's parameters, the value of [self * k] at [v] is
    [k*alpha*_eval(beta*v - b) + <c,v> + gamma*<v,v> + d]: of the value of
    [self] at [v] only the first term is multiplied by [k]. *)
Theorem proxfn_eval_scaled {env : ProxFn.Env} {ev : ProxFnOps.Evaluator}
        (shape : list nat) (alpha beta b c gamma d : ProxFn.pyval)
        (implem : option string) (self : ProxFn.t) (k : R) (v : Np.ndarray)
        (e : R) :
  ProxFn.init shape alpha beta b c gamma d implem = Ok self ->
  (0 < k)%R ->
  Np.shape v = shape -> Np.wf v ->
  Np.wf (ProxFn.b self) -> Np.wf (ProxFn.c self) ->
  (forall s u, ProxFnOps._eval s u = ProxFnOps._eval self u) ->
  ProxFnOps._eval self (EvalForm.arg self v) = Ok e ->
  exists scaled,
    ProxFnOps.__mul__ self (ProxFn.PyScalar k) = Ok scaled
    /\ ProxFnOps.eval self v
       = Ok (ProxFn.alpha self * e + EvalForm.affine_part self v)%R
    /\ ProxFnOps.eval scaled v
       = Ok (ProxFn.alpha self * k * e + EvalForm.affine_part self v)%R.
Proof.
  intros H Hk Hv Hvw Hbw Hcw Hign He.
  destruct (OpsFacts.init_fresh _ _ _ _ _ _ _ _ _ H)
    as (_ & Hshape & _ & Ha & _ & Hb & Hc).
  assert (Hpos : (0 <= ProxFn.alpha self * k)%R) by (apply Rmult_le_pos; lra).
  set (scaled := ProxFn.mk (ProxFn.lin_op_shape self) (ProxFn.alpha self * k)
                   (ProxFn.beta self) (ProxFn.b self) (ProxFn.c self)
                   (ProxFn.gamma self) (ProxFn.d self) (ProxFn.implem_key self)
                   (ProxFn.implementation self) None None None None).
  exists scaled. split; [|split].
  - unfold ProxFnOps.__mul__.
    destruct (Rlt_dec 0 k) as [_|Hn]; [|contradiction].
    exact (OpsFacts.reinit _ _ _ _ _ _ _ _ _ _ H Hpos).
  - rewrite EvalFacts.eval_closed by congruence. now rewrite He.
  - rewrite EvalFacts.eval_closed by (simpl; congruence).
    change (EvalForm.arg scaled v) with (EvalForm.arg self v).
    rewrite Hign, He. reflexivity.
Qed.

Lemma proxfn_eval_scaled_witness :
  exists scaled,
    ProxFnOps.__mul__ (env := Examples.env) Examples.shifted (ProxFn.PyScalar 3)
    = Ok scaled
    /\ ProxFnOps.eval (ev := MoreExamples.sum_eval) Examples.shifted
                      MoreExamples.v34
       = Ok (ProxFn.alpha Examples.shifted * (0 + (1 * 3 - 1) + (1 * 4 - 1))
             + EvalForm.affine_part Examples.shifted MoreExamples.v34)%R
    /\ ProxFnOps.eval (ev := MoreExamples.sum_eval) scaled MoreExamples.v34
       = Ok (ProxFn.alpha Examples.shifted * 3 * (0 + (1 * 3 - 1) + (1 * 4 - 1))
             + EvalForm.affine_part Examples.shifted MoreExamples.v34)%R.
Proof.
  apply (proxfn_eval_scaled (env := Examples.env)
           (ev := MoreExamples.sum_eval) [2]
           (ProxFn.PyScalar 1) (ProxFn.PyScalar 1)
           (ProxFn.PyArray (Np.mk_ndarray [2] [1; 1]%R))
           (ProxFn.PyArray (Np.zeros [2]))
           (ProxFn.PyScalar 0) (ProxFn.PyScalar 0) None
           Examples.shifted 3%R MoreExamples.v34
           (0 + (1 * 3 - 1) + (1 * 4 - 1))%R).
  - apply (InitFacts.init_ok (env := Examples.env)); simpl;
      try reflexivity; lra.
  - lra.
  - reflexivity.
  - reflexivity.
  - reflexivity.
  - reflexivity.
  - reflexivity.
  - reflexivity.
Defined.

(** ** [ProxFn.prox]: the degenerate scalars *)

(** X19. The constructor lets [alpha = 0] and [beta = 0] through, and
    [prox] then divides by [alpha*beta^2 = 0]: every call raises
    [ZeroDivisionError] before the core operator is reached.  The same
    exception is raised for [rho + 2*gamma = 0] (with [alpha*beta^2 <> 0]
    and [v] of the operator's shape), at the division
    [beta / (rho + 2*gamma)]. *)
Theorem prox_zero_division {env : ProxFn.Env} {atom : ProxFn.Atom}
        (self : ProxFn.t) (rho : R) (v : ProxFn.loc) (h : ProxFn.heap) :
  ((ProxFn.alpha self = 0 \/ ProxFn.beta self = 0)%R ->
   ProxFn.prox self rho v h = Raise ZeroDivisionError)
  /\ ((ProxFn.alpha self * ProxFn.beta self ^ 2 <> 0)%R ->
      (rho + 2 * ProxFn.gamma self = 0)%R ->
      Np.shape (h v) = ProxFn.lin_op_shape self ->
      Np.shape (ProxFn.c self) = ProxFn.lin_op_shape self ->
      Np.wf (ProxFn.c self) ->
      ProxFn.prox self rho v h = Raise ZeroDivisionError)
  /\ (forall (shape : list nat) (numpy : string) (ra rb : R),
        ProxFn.lookup "numpy" ProxFn.Impl = Some numpy ->
        (0 <= ra)%R ->
        exists accepted,
          ProxFn.init shape (ProxFn.PyScalar ra) (ProxFn.PyScalar rb)
            (ProxFn.PyScalar 0) (ProxFn.PyScalar 0) (ProxFn.PyScalar 0)
            (ProxFn.PyScalar 0) None = Ok accepted
          /\ ProxFn.alpha accepted = ra /\ ProxFn.beta accepted = rb).
Proof.
  split; [|split].
  - intros Hz. unfold ProxFn.prox, ProxFn.py_div.
    destruct (Req_dec_T (ProxFn.alpha self * ProxFn.beta self ^ 2) 0)
      as [_|Hne]; [reflexivity|].
    exfalso. apply Hne. destruct Hz as [-> | ->]; simpl; ring.
  - intros Hne Hz Hv Hc Hcw. unfold ProxFn.prox, ProxFn.py_div.
    destruct (Req_dec_T (ProxFn.alpha self * ProxFn.beta self ^ 2) 0)
      as [E|_]; [contradiction|].
    cbn [bind]. rewrite !ProxFacts.store_same.
    rewrite ProxFacts.iop_same by (simpl; auto; congruence).
    cbn [bind].
    destruct (Req_dec_T (rho + 2 * ProxFn.gamma self) 0) as [_|E];
      [reflexivity|contradiction].
  - intros shape numpy ra rb Hn Hra. eexists. split.
    + apply (InitFacts.init_ok shape); try reflexivity; try exact I;
        try exact Hn; try exact Hra; lra.
    + split; reflexivity.
Qed.

Lemma prox_zero_division_witness :
  (exists self,
      ProxFn.init (env := Examples.env) [2]
        (ProxFn.PyScalar 0) (ProxFn.PyScalar 0) (ProxFn.PyScalar 0)
        (ProxFn.PyScalar 0) (ProxFn.PyScalar 0) (ProxFn.PyScalar 0) None
      = Ok self
      /\ ProxFn.alpha self = 0%R /\ ProxFn.beta self = 0%R
      /\ ProxFn.prox (atom := Examples.copy_atom) self 1 0 Examples.heap0
         = Raise ZeroDivisionError)
  /\ ProxFn.prox (atom := Examples.copy_atom) Examples.doubled 0 0
                 Examples.heap0 = Raise ZeroDivisionError.
Proof.
  split.
  - destruct (proj2 (proj2 (prox_zero_division (env := Examples.env)
                              (atom := Examples.copy_atom)
                              Examples.doubled 0%R 0 Examples.heap0))
                    [2] "numpy"%string 0%R 0%R eq_refl (Rle_refl 0))
      as (self & Hinit & Ha & Hb).
    exists self. split; [exact Hinit|]. split; [exact Ha|]. split; [exact Hb|].
    apply (proj1 (prox_zero_division (env := Examples.env)
                    (atom := Examples.copy_atom) self 1%R 0 Examples.heap0)).
    left. exact Ha.
  - apply (proj1 (proj2 (prox_zero_division (env := Examples.env)
                           (atom := Examples.copy_atom)
                           Examples.doubled 0%R 0 Examples.heap0))).
    + simpl. lra.
    + simpl. lra.
    + reflexivity.
    + reflexivity.
    + reflexivity.
Defined.

(** ** [ProxFn.set_implementation] *)

(** X20. [set_implementation(im)] only ever selects a registered
    implementation: a successful call returns one of the values of [Impl],
    and calling it again on the value returned selects the same value.  A
    failing call raises "Invalid implementation.", and then [im] is neither
    a value nor a key of [Impl].  An instance built with [implem = im]
    stores such a value. *)
Theorem set_implementation_registered {env : ProxFn.Env} (im : string) :
  (forall v, ProxFn.set_implementation im = Ok v ->
     In v (map snd ProxFn.Impl) /\ ProxFn.set_implementation v = Ok v)
  /\ (forall e, ProxFn.set_implementation im = Raise e ->
        e = PyException "Invalid implementation."
        /\ ~ In im (map snd ProxFn.Impl) /\ ~ In im (map fst ProxFn.Impl))
  /\ (forall shape alpha beta b c gamma d self,
        ProxFn.init shape alpha beta b c gamma d (Some im) = Ok self ->
        In (ProxFn.implementation self) (map snd ProxFn.Impl)).
Proof.
  assert (Hok : forall v, ProxFn.set_implementation im = Ok v ->
                  In v (map snd ProxFn.Impl)).
  { intros v H. unfold ProxFn.set_implementation in H.
    destruct (existsb (fun kv => String.eqb (snd kv) im) ProxFn.Impl) eqn:E.
    - inversion H; subst. now apply OpsFacts.In_values.
    - destruct (ProxFn.lookup im ProxFn.Impl) as [w|] eqn:El; [|discriminate].
      inversion H; subst. now apply OpsFacts.lookup_some in El. }
  split; [|split].
  - intros v H. split; [now apply Hok|].
    apply Hok, OpsFacts.In_values in H.
    unfold ProxFn.set_implementation. now rewrite H.
  - intros e H. unfold ProxFn.set_implementation in H.
    destruct (existsb (fun kv => String.eqb (snd kv) im) ProxFn.Impl) eqn:E;
      [discriminate|].
    destruct (ProxFn.lookup im ProxFn.Impl) as [w|] eqn:El; [discriminate|].
    inversion H. split; [reflexivity|]. split.
    + intros Hin. apply OpsFacts.In_values in Hin. congruence.
    + now apply OpsFacts.lookup_none.
  - intros shape alpha beta b c gamma d self H.
    destruct (OpsFacts.init_inv_full _ _ _ _ _ _ _ _ _ H)
      as (ra & rb & rg & rd & numpy & impl & _ & _ & _ & _ & _ & _ & _ & _
          & _ & Hi & ->).
    simpl. now apply Hok.
Qed.

Lemma set_implementation_registered_witness :
  (In "halide"%string (map snd (ProxFn.Impl (Env := Examples.env)))
   /\ ProxFn.set_implementation (env := Examples.env) "halide" = Ok "halide"%string)
  /\ (PyException "Invalid implementation."
      = PyException "Invalid implementation."
      /\ ~ In "cuda"%string (map snd (ProxFn.Impl (Env := Examples.env)))
      /\ ~ In "cuda"%string (map fst (ProxFn.Impl (Env := Examples.env)))).
Proof.
  split.
  - apply (proj1 (set_implementation_registered (env := Examples.env) "halide")
                 "halide"%string).
    reflexivity.
  - apply (proj1 (proj2 (set_implementation_registered (env := Examples.env)
                           "cuda"))
                 (PyException "Invalid implementation.")).
    reflexivity.
Defined.

(** ** [ProxFn.gen_cuda_code]: the launch configuration *)


(** X21. A completed [gen_cuda_code] leaves a usable launch configuration:
    the wrapper's scalars, [b], [c] and implementation are untouched, the
    list of buffer arguments is empty, the compiled source is the one kept
    in [cuda_code], and with [n] the number of elements of the operator the
    block size is [min(n, MAX_THREADS_PER_BLOCK)] and the grid size is
    [n // block]; both are at least 1 and [grid * block <= n].  So for an
    operator without elements [gen_cuda_code] never completes. *)
Theorem gen_cuda_code_launch {env : ProxFn.Env} {atom : ProxFn.Atom}
        (self self' : ProxFn.t) :
  ProxFn.gen_cuda_code self = Ok self' ->
  exists k,
    ProxFn.kernel_cuda_prox self' = Some k
    /\ ProxFn.cuda_code self' = Some (ProxFn.k_source k)
    /\ ProxFn.SourceModule (ProxFn.k_source k) = Ok tt
    /\ ProxFn.k_const_vals k = [] /\ ProxFn.cuda_args self' = Some []
    /\ ProxFn.k_block k
       = Nat.min (Np.size (ProxFn.lin_op_shape self))
                 ProxFn.MAX_THREADS_PER_BLOCK
    /\ ProxFn.k_grid k
       = Np.size (ProxFn.lin_op_shape self) / ProxFn.k_block k
    /\ 1 <= ProxFn.k_block k <= ProxFn.MAX_THREADS_PER_BLOCK
    /\ 1 <= ProxFn.k_grid k
    /\ ProxFn.k_grid k * ProxFn.k_block k <= Np.size (ProxFn.lin_op_shape self)
    /\ Np.size (ProxFn.lin_op_shape self) <> 0
    /\ (ProxFn.lin_op_shape self' = ProxFn.lin_op_shape self
        /\ ProxFn.alpha self' = ProxFn.alpha self
        /\ ProxFn.beta self' = ProxFn.beta self
        /\ ProxFn.b self' = ProxFn.b self /\ ProxFn.c self' = ProxFn.c self
        /\ ProxFn.gamma self' = ProxFn.gamma self
        /\ ProxFn.d self' = ProxFn.d self
        /\ ProxFn.implementation self' = ProxFn.implementation self).
Proof.
  intros H.
  destruct (CodegenMore.gen_ok_inv self self' H)
    as (code & _ & Hn & Hmax & Hc & ->).
  set (n := Np.size (ProxFn.lin_op_shape self)) in *.
  set (mx := ProxFn.MAX_THREADS_PER_BLOCK) in *.
  eexists. split; [reflexivity|]. cbn.
  assert (Hmin : Nat.min n mx <> 0) by lia.
  assert (Hle : Nat.min n mx <= n) by lia.
  split; [reflexivity|]. split; [exact Hc|].
  split; [reflexivity|]. split; [reflexivity|].
  split; [reflexivity|]. split; [reflexivity|].
  split; [fold n mx; lia|].
  split.
  - fold n mx. apply Nat.div_le_lower_bound; lia.
  - split.
    + fold n mx. rewrite Nat.mul_comm. apply Nat.Div0.mul_div_le.
    + split; [exact Hn|]. repeat split; reflexivity.
Qed.

Lemma gen_cuda_code_launch_witness :
  exists self' k,
    ProxFn.gen_cuda_code (env := Examples.env) (atom := Examples.inplace_atom)
                         Examples.doubled = Ok self'
    /\ ProxFn.kernel_cuda_prox self' = Some k
    /\ ProxFn.k_block k = 2
    /\ ProxFn.k_grid k = 1.
Proof.
  destruct CodegenMore.gen_doubled as (self' & H).
  destruct (gen_cuda_code_launch (env := Examples.env)
              (atom := Examples.inplace_atom) Examples.doubled self' H)
    as (k & Hk & _ & _ & _ & _ & Hb & Hg & _).
  exists self', k. split; [exact H|]. split; [exact Hk|].
  assert (Hb2 : ProxFn.k_block k = 2) by exact Hb.
  split; [exact Hb2|]. rewrite Hg, Hb2. reflexivity.
Defined.

(** ** [ProxFn]: sums *)

Module SumFacts.
Import ProxFn ProxFnSum.

Lemma extend_left (rest l : list t) :
  for_each (fun acc g => add acc (Fn g)) rest (Fns l) = Ok (Fns (l ++ rest)).
Proof.
  revert l; induction rest as [|g rest IH]; intros l; simpl.
  - now rewrite app_nil_r.
  - rewrite IH. now rewrite <- app_assoc.
Qed.

Lemma sum_right_list (rest : list t) :
  forall f, rest <> [] -> sum_right f rest = Ok (Fns (f :: rest)).
Proof.
  induction rest as [|g rest IH]; intros f Hne; [contradiction|].
  destruct rest as [|g' rest].
  - reflexivity.
  - cbn [sum_right]. cbn [sum_right] in IH.
    rewrite IH by discriminate. reflexivity.
Qed.

End SumFacts.

(** X22. A sum of two or more [ProxFn] objects is the flat list of its
    terms in the order written, whether it is evaluated from the left,
    [((f + g1) + g2) + ...], or from the right, [f + (g1 + (g2 + ...))]:
    [__add__] starts or extends a list on the left and [__radd__] extends
    one on the right.  A number plus a [ProxFn] raises [TypeError] in either
    order, so such a sum cannot be started from 0. *)
Theorem proxfn_sum_flat (f : ProxFn.t) (rest : list ProxFn.t) (r : R) :
  rest <> [] ->
  ProxFnSum.sum_left f rest = Ok (ProxFnSum.Fns (f :: rest))
  /\ ProxFnSum.sum_right f rest = Ok (ProxFnSum.Fns (f :: rest))
  /\ ProxFnSum.add (ProxFnSum.Num r) (ProxFnSum.Fn f) = Raise TypeError
  /\ ProxFnSum.add (ProxFnSum.Fn f) (ProxFnSum.Num r) = Raise TypeError.
Proof.
  intros Hne. split; [|split; [|split; reflexivity]].
  - destruct rest as [|g rest]; [contradiction|].
    unfold ProxFnSum.sum_left. cbn [for_each ProxFnSum.add ProxFnSum.__add__ bind].
    now rewrite SumFacts.extend_left.
  - now apply SumFacts.sum_right_list.
Qed.

Lemma proxfn_sum_flat_witness :
  ProxFnSum.sum_left Examples.doubled [Examples.shifted; Examples.doubled]
  = Ok (ProxFnSum.Fns [Examples.doubled; Examples.shifted; Examples.doubled])
  /\ ProxFnSum.sum_right Examples.doubled [Examples.shifted; Examples.doubled]
     = Ok (ProxFnSum.Fns [Examples.doubled; Examples.shifted; Examples.doubled])
  /\ ProxFnSum.add (ProxFnSum.Num 0) (ProxFnSum.Fn Examples.doubled)
     = Raise TypeError
  /\ ProxFnSum.add (ProxFnSum.Fn Examples.doubled) (ProxFnSum.Num 0)
     = Raise TypeError.
Proof.
  apply (proxfn_sum_flat Examples.doubled
           [Examples.shifted; Examples.doubled] 0%R).
  discriminate.
Defined.

(** ** [ProxFn]: the proximal operator of a scaled function *)

(** X23. Scaling and [prox]: for an instance built by the constructor with
    [alpha > 0] and [beta <> 0], a scalar [k > 0], [rho > 0] and [v] of the
    operator's shape, [prox] of [self * k] hands the core operator the same
    shifted argument [v_hat] as [prox] of [self] would, with the parameter
    [rho_hat / k] in place of [rho_hat]; an exception of the core operator
    is passed on, and a result [x_hat] is returned holding
    [(x_hat + b)/beta] as for [self]. *)
Theorem prox_of_scaled {env : ProxFn.Env} {atom : ProxFn.Atom}
        (shape : list nat) (alpha beta b c gamma d : ProxFn.pyval)
        (implem : option string) (self : ProxFn.t) (k rho : R)
        (v : ProxFn.loc) (h : ProxFn.heap) :
  ProxFn.init shape alpha beta b c gamma d implem = Ok self ->
  (0 < ProxFn.alpha self)%R -> ProxFn.beta self <> 0%R ->
  (0 < k)%R -> (0 < rho)%R ->
  Np.shape (h v) = shape -> Np.wf (h v) ->
  Np.wf (ProxFn.b self) -> Np.wf (ProxFn.c self) ->
  exists scaled h_hat,
    ProxFnOps.__mul__ self (ProxFn.PyScalar k) = Ok scaled
    /\ h_hat v = Np.mk_ndarray shape (Affine.v_hat self rho (Np.data (h v)))
    /\ (forall l, l <> v -> h_hat l = h l)
    /\ (forall e,
          ProxFn._prox scaled (Affine.rho_hat self rho / k) v h_hat = Raise e ->
          ProxFn.prox scaled rho v h = Raise e)
    /\ (forall xhat h',
          ProxFn._prox scaled (Affine.rho_hat self rho / k) v h_hat
          = Ok (xhat, h') ->
          Np.shape (h' xhat) = shape -> Np.wf (h' xhat) ->
          exists h_out,
            ProxFn.prox scaled rho v h = Ok (xhat, h_out)
            /\ h_out xhat
               = Np.mk_ndarray shape (Affine.x_out self (Np.data (h' xhat)))).
Proof.
  intros H Ha Hbe Hk Hrho Hv Hvw Hbw Hcw.
  destruct (OpsFacts.init_fresh _ _ _ _ _ _ _ _ _ H)
    as (_ & Hshape & _ & _ & Hg & Hb & Hc).
  assert (Hpos : (0 <= ProxFn.alpha self * k)%R) by (apply Rmult_le_pos; lra).
  set (scaled := ProxFn.mk (ProxFn.lin_op_shape self) (ProxFn.alpha self * k)
                   (ProxFn.beta self) (ProxFn.b self) (ProxFn.c self)
                   (ProxFn.gamma self) (ProxFn.d self) (ProxFn.implem_key self)
                   (ProxFn.implementation self) None None None None).
  assert (Hmul : ProxFnOps.__mul__ self (ProxFn.PyScalar k) = Ok scaled).
  { unfold ProxFnOps.__mul__.
    destruct (Rlt_dec 0 k) as [_|Hn]; [|contradiction].
    exact (OpsFacts.reinit _ _ _ _ _ _ _ _ _ _ H Hpos). }
  assert (Hrh : Affine.rho_hat scaled rho = (Affine.rho_hat self rho / k)%R).
  { unfold Affine.rho_hat, scaled. cbn [ProxFn.alpha ProxFn.beta ProxFn.gamma].
    assert (ProxFn.beta self ^ 2 <> 0)%R by (apply pow_nonzero; assumption).
    field. repeat split; lra. }
  destruct (ProxFacts.prox_run (atom := atom) scaled rho v h)
    as (h_hat & Hhat & Hrest & Herr & Hok); try assumption;
    try (unfold scaled; cbn [ProxFn.alpha ProxFn.beta ProxFn.gamma ProxFn.b
           ProxFn.c ProxFn.lin_op_shape]; congruence).
  { unfold scaled. cbn [ProxFn.alpha]. apply Rmult_lt_0_compat; lra. }
  rewrite Hrh in Herr, Hok.
  change (Affine.v_hat scaled rho (Np.data (h v)))
    with (Affine.v_hat self rho (Np.data (h v))) in Hhat.
  change (ProxFn.lin_op_shape scaled) with (ProxFn.lin_op_shape self)
    in Hhat, Hok.
  rewrite Hshape in Hhat, Hok.
  exists scaled, h_hat.
  split; [exact Hmul|]. split; [exact Hhat|]. split; [exact Hrest|].
  split; [exact Herr|].
  intros xhat h' Hrun Hx Hxw.
  destruct (Hok xhat h' Hrun Hx Hxw) as (h_out & Hp & Hout & _).
  exists h_out. split; [exact Hp|]. exact Hout.
Qed.

Lemma prox_of_scaled_witness :
  exists scaled h_hat,
    ProxFnOps.__mul__ (env := Examples.env) Examples.shifted (ProxFn.PyScalar 3)
    = Ok scaled
    /\ h_hat 0 = Np.mk_ndarray [2] (Affine.v_hat Examples.shifted 2
                                     (Np.data (Examples.heap0 0)))
    /\ (forall l, l <> 0 -> h_hat l = Examples.heap0 l)
    /\ (forall e,
          ProxFn._prox (Atom := Examples.copy_atom) scaled
                       (Affine.rho_hat Examples.shifted 2 / 3) 0 h_hat
          = Raise e ->
          ProxFn.prox (atom := Examples.copy_atom) scaled 2 0 Examples.heap0
          = Raise e)
    /\ (forall xhat h',
          ProxFn._prox (Atom := Examples.copy_atom) scaled
                       (Affine.rho_hat Examples.shifted 2 / 3) 0 h_hat
          = Ok (xhat, h') ->
          Np.shape (h' xhat) = [2] -> Np.wf (h' xhat) ->
          exists h_out,
            ProxFn.prox (atom := Examples.copy_atom) scaled 2 0 Examples.heap0
            = Ok (xhat, h_out)
            /\ h_out xhat
               = Np.mk_ndarray [2] (Affine.x_out Examples.shifted
                                      (Np.data (h' xhat)))).
Proof.
  apply (prox_of_scaled (env := Examples.env) (atom := Examples.copy_atom) [2]
           (ProxFn.PyScalar 1) (ProxFn.PyScalar 1)
           (ProxFn.PyArray (Np.mk_ndarray [2] [1; 1]%R))
           (ProxFn.PyArray (Np.zeros [2]))
           (ProxFn.PyScalar 0) (ProxFn.PyScalar 0) None
           Examples.shifted 3%R 2%R 0 Examples.heap0).
  - apply (InitFacts.init_ok (env := Examples.env)); simpl;
      try reflexivity; lra.
  - simpl. lra.
  - simpl. lra.
  - lra.
  - lra.
  - reflexivity.
  - reflexivity.
  - reflexivity.
  - reflexivity.
Defined.
